(** * SimplyBuilder: the structure-to-DOM compiler and its two stores

    A shallow embedding of
      - [src/stores/domStore/main.js]      (DomStore: ElementRefStore),
      - the event store module            (EventStore: ActionRefStore),
      - [createElement/buildElement.js]   (BuildElement),
      - [createElement/main.js]           (CreateElementFromStruct),
      - the unit conversion of UtilsApp   ([toRem]),
    over a small model of the browser's DOM.

    The JavaScript code works on three pieces of shared mutable state: the
    document (a heap of live nodes), the object [ElementRefStore] and the
    [Map] [ActionRefStore].  They are gathered in a [World] that every
    function threads; a [try]/[catch] is modelled by an explicit [Throw]
    completion that [try_catch] intercepts, and the mutations done before a
    throw stay in the world, as they do in JavaScript.

    What the model fixes:
      - a description is a tree of records; the description the caller keeps
        after a call is returned next to the call's value, since the code
        writes into it.  Where it matters that the arrays of a description
        are objects that can be reached more than once, they are kept in a
        store of arrays of their own ([createFromStruct_shared]);
        [shared_as_tree] relates the two;
      - the callback is a function that only counts its invocations (field
        [callbacks] of the world);
      - what the browser decides (which names [createElement],
        [createElementNS], [setAttribute] and [attachShadow] accept, which
        members an element has) is a parameter [Host]; [browser] is one
        instance, used for the concrete runs;
      - the table [EventActions] of the event application is a parameter
        from action names to handlers;
      - [textContent] and [innerHTML] are kept as the strings assigned: the
        nodes a browser would parse out of them are not in the document of
        the model, whose [childNodes] are the elements appended by the code. *)

From Stdlib Require Import ZArith Ascii String Lia.
From Stdlib Require SpecFloat.
From stdpp Require Import base option list gmap strings.

Local Open Scope string_scope.
Local Open Scope list_scope.

(** ** Values *)

(** A live DOM node is known by its identity, its index in the document's
    heap.  A handler function is known by its identity as well. *)
Abbreviation elem := nat (only parsing).
Abbreviation handler := nat (only parsing).

Inductive NodeKind := HTMLElement | SVGElement | ShadowRoot.

(** Which DOM entry point wrote an attribute. *)
Inductive Setter := ViaSetAttribute | ViaSetAttributeNS | ViaDataset.

Record Attr := mkAttr {
  attrName : string;
  attrValue : string;
  attrVia : Setter }.

Record Node := mkNode {
  kind : NodeKind;
  nodeName : string;
  attributes : list Attr;
  childNodes : list elem;
  listeners : list (string * handler);
  textContent : option string;
  innerHTML : option string;
  shadowRoot : option elem }.

(** What a property read on [ElementRefStore] can give back. *)
Inductive JsValue :=
  | VUndefined
  | VElement (e : elem)
  | VInherited (name : string).

(** One registration kept in [ActionRefStore]: [{type, handler, nodeId?}]. *)
Record Schema := mkSchema {
  sc_type : string;
  sc_handler : handler;
  sc_nodeId : option string }.

(** [ElementRefStore = {}] is an ordinary object: it has its own properties
    and a prototype.  The prototype is [Object.prototype] ([None]) until an
    assignment to the key [__proto__] replaces it by the assigned element. *)
Record RefStore := mkRefStore {
  own : gmap string elem;
  proto : option elem }.

Record World := mkWorld {
  nodes : list Node;
  ElementRefStore : RefStore;
  ActionRefStore : gmap elem (list Schema);
  callbacks : nat }.

Global Instance NodeKind_eq_dec : EqDecision NodeKind.
Proof. solve_decision. Defined.
Global Instance Setter_eq_dec : EqDecision Setter.
Proof. solve_decision. Defined.

(** ** The node description (input of the compiler) *)

Record EventDesc := mkEventDesc {
  ev_type : option string;
  ev_action : option string;
  ev_node : option string }.

(** [children] is [None] when the field is absent and [Some l] when it holds
    an array, the empty array included (an empty array is truthy). *)
#[local] Unset Elimination Schemes.
Inductive Struct := mkStruct {
  element : option string;
  attr : list (string * string);
  attrNS : list (string * string);
  dataset : list (string * string);
  text : option string;
  html : option string;
  event : option EventDesc;
  children : option (list Struct);
  shadow : option string }.
#[local] Set Elimination Schemes.

(** The object handed to the builders as [data.element] (and, when a
    description is given as parent, as [data.parent]). *)
Record ElementData := mkElementData {
  type : option string;
  d_attr : list (string * string);
  d_attrNS : list (string * string);
  d_dataset : list (string * string) }.

Inductive ParentArg :=
  | PUndefined
  | PNull
  | PNode (p : elem)
  | PDesc (d : ElementData).

(** The first argument of [createFromStruct], by JavaScript type. *)
Inductive JsArg :=
  | AUndefined
  | ANull
  | ABoolean (b : bool)
  | ANumber (z : Z)
  | AString (s : string)
  | AFunction
  | AData (struct : option Struct) (parent : ParentArg).

Inductive Callback := CbUndefined | CbFunction.

Inductive ReturnValue := RUndefined | RCallback.

Definition typeof (data : JsArg) : string :=
  match data with
  | AUndefined => "undefined"
  | ANull => "object"
  | ABoolean _ => "boolean"
  | ANumber _ => "number"
  | AString _ => "string"
  | AFunction => "function"
  | AData _ _ => "object"
  end.

(** ** Strings *)

Definition truthy (s : string) : bool :=
  match s with EmptyString => false | String _ _ => true end.

Definition truthyOpt (s : option string) : bool :=
  match s with Some s => truthy s | None => false end.

Definition isUpper (c : ascii) : bool :=
  let n := nat_of_ascii c in (65 <=? n)%nat && (n <=? 90)%nat.

Definition isLower (c : ascii) : bool :=
  let n := nat_of_ascii c in (97 <=? n)%nat && (n <=? 122)%nat.

Definition lowerAscii (c : ascii) : ascii :=
  if isUpper c then ascii_of_nat (nat_of_ascii c + 32) else c.

Fixpoint toLowerCase (s : string) : string :=
  match s with
  | EmptyString => EmptyString
  | String c r => String (lowerAscii c) (toLowerCase r)
  end.

(** [dataset[name]]: a name holding a hyphen followed by a lower-case letter
    is refused; otherwise every upper-case letter becomes a hyphen and its
    lower-case form, and [data-] is put in front. *)
Fixpoint hyphenLower (s : string) : bool :=
  match s with
  | EmptyString => false
  | String c r =>
      match r with
      | String d _ => (Ascii.eqb c "-" && isLower d) || hyphenLower r
      | EmptyString => false
      end
  end.

Fixpoint dataSuffix (s : string) : string :=
  match s with
  | EmptyString => EmptyString
  | String c r =>
      if isUpper c then String "-" (String (lowerAscii c) (dataSuffix r))
      else String c (dataSuffix r)
  end.

Definition dataAttributeName (name : string) : string :=
  ("data-" ++ dataSuffix name)%string.

(** ** Completions and the state monad of the embedding *)

Inductive Completion (A : Type) :=
  | Normal (a : A)
  | Throw.
Arguments Normal {A} a.
Arguments Throw {A}.

Definition JS (A : Type) : Type := World -> Completion A * World.

Definition ret {A} (a : A) : JS A := fun w => (Normal a, w).

Definition throw {A} : JS A := fun w => (Throw, w).

Definition bind {A B} (m : JS A) (k : A -> JS B) : JS B :=
  fun w => match m w with
           | (Normal a, w') => k a w'
           | (Throw, w') => (Throw, w')
           end.

Definition try_catch {A} (body handler : JS A) : JS A :=
  fun w => match body w with
           | (Normal a, w') => (Normal a, w')
           | (Throw, w') => handler w'
           end.

Notation "'let*' x ':=' m 'in' k" := (bind m (fun x => k))
  (at level 10, x pattern, m at level 100, k at level 200, only parsing).
Notation "m '>>' k" := (bind m (fun _ => k))
  (at level 90, right associativity, only parsing).

Definition when (b : bool) (m : JS unit) : JS unit :=
  if b then m else ret tt.

(** [for (let i = l.length - 1; i >= 0; i--) body(i, l[i])]. *)
Fixpoint fromLastAt {A} (body : nat -> A -> JS unit) (i : nat) (l : list A)
  : JS unit :=
  match l with
  | [] => ret tt
  | x :: r => fromLastAt body (S i) r >> body i x
  end.

Definition fromLast {A} (body : A -> JS unit) (l : list A) : JS unit :=
  fromLastAt (fun _ => body) 0 l.

(** ** World updates *)

Definition withNodes (f : list Node -> list Node) (w : World) : World :=
  mkWorld (f (nodes w)) (ElementRefStore w) (ActionRefStore w) (callbacks w).

Definition withRefStore (f : RefStore -> RefStore) (w : World) : World :=
  mkWorld (nodes w) (f (ElementRefStore w)) (ActionRefStore w) (callbacks w).

Definition withActions
  (f : gmap elem (list Schema) -> gmap elem (list Schema)) (w : World) : World :=
  mkWorld (nodes w) (ElementRefStore w) (f (ActionRefStore w)) (callbacks w).

Definition withCallbacks (f : nat -> nat) (w : World) : World :=
  mkWorld (nodes w) (ElementRefStore w) (ActionRefStore w) (f (callbacks w)).

Definition getNode (e : elem) : JS Node :=
  fun w => match nodes w !! e with
           | Some n => (Normal n, w)
           | None => (Throw, w)
           end.

Definition putNode (e : elem) (n : Node) : JS unit :=
  fun w => (Normal tt, withNodes (fun ns => <[e := n]> ns) w).

Definition allocNode (n : Node) : JS elem :=
  fun w => (Normal (length (nodes w)), withNodes (fun ns => ns ++ [n]) w).

Definition freshNode (k : NodeKind) (name : string) : Node :=
  mkNode k name [] [] [] None None None.

(** [document.body] is the first node of the document. *)
Definition document_body : elem := 0.

Definition bodyNode : Node := freshNode HTMLElement "body".

Definition initial : World :=
  mkWorld [bodyNode] (mkRefStore ∅ None) ∅ 0.

(** ** The host

    What the browser decides and the repository does not: which names the
    DOM accepts, which elements can carry a shadow root, and what an
    element's own prototype chain holds under a given property name (a data
    property such as a method, an accessor, or nothing). *)

Inductive Member := NoMember | DataMember | AccessorMember.

Record Host := mkHost {
  validElementName : string -> bool;
  validQualifiedName : string -> bool;
  validAttributeName : string -> bool;
  validAttributeNameNS : string -> bool;
  shadowHost : string -> bool;
  elementMember : Node -> string -> Member;
  data_state_accepted : validAttributeName "data-state" = true }.

(** The properties every ordinary object inherits from [Object.prototype]. *)
Definition objectPrototypeKeys : list string :=
  [ "constructor"; "__defineGetter__"; "__defineSetter__"; "hasOwnProperty";
    "__lookupGetter__"; "__lookupSetter__"; "isPrototypeOf";
    "propertyIsEnumerable"; "toString"; "valueOf"; "__proto__";
    "toLocaleString" ].

Definition isObjectPrototypeKey (key : string) : bool :=
  existsb (String.eqb key) objectPrototypeKeys.

(** Node updates. *)
Definition setAttributes (l : list Attr) (n : Node) : Node :=
  mkNode (kind n) (nodeName n) l (childNodes n) (listeners n)
         (textContent n) (innerHTML n) (shadowRoot n).

Definition setChildNodes (l : list elem) (n : Node) : Node :=
  mkNode (kind n) (nodeName n) (attributes n) l (listeners n)
         (textContent n) (innerHTML n) (shadowRoot n).

Definition setListeners (l : list (string * handler)) (n : Node) : Node :=
  mkNode (kind n) (nodeName n) (attributes n) (childNodes n) l
         (textContent n) (innerHTML n) (shadowRoot n).

Definition setTextContent (s : string) (n : Node) : Node :=
  mkNode (kind n) (nodeName n) (attributes n) (childNodes n) (listeners n)
         (Some s) None (shadowRoot n).

Definition setInnerHTML (s : string) (n : Node) : Node :=
  mkNode (kind n) (nodeName n) (attributes n) (childNodes n) (listeners n)
         None (Some s) (shadowRoot n).

Definition setShadowRoot (s : elem) (n : Node) : Node :=
  mkNode (kind n) (nodeName n) (attributes n) (childNodes n) (listeners n)
         (textContent n) (innerHTML n) (Some s).

Definition isElement (n : Node) : bool :=
  match kind n with ShadowRoot => false | _ => true end.

Fixpoint upsertAttr (a : Attr) (l : list Attr) : list Attr :=
  match l with
  | [] => [a]
  | b :: r =>
      if String.eqb (attrName b) (attrName a) then a :: r
      else b :: upsertAttr a r
  end.

Definition findAttr (name : string) (l : list Attr) : option string :=
  attrValue <$> List.find (fun a => String.eqb (attrName a) name) l.

(** [element.dataset.state]. *)
Definition dataset_state (n : Node) : option string :=
  findAttr "data-state" (attributes n).

Section Program.

Variable host : Host.

(** [EventApp["EventActions"][name]]: the handler registered under the name,
    [None] when the lookup gives a falsy value.  The action registry belongs
    to a module the compiler only reads. *)
Variable EventActions : string -> option handler.

(** ** DOM entry points used by the repository *)

Definition createElement (name : string) : JS elem :=
  if validElementName host name
  then allocNode (freshNode HTMLElement (toLowerCase name))
  else throw.

(** [document.createElementNS("http://www.w3.org/2000/svg", name)]. *)
Definition createElementNS_svg (name : string) : JS elem :=
  if validQualifiedName host name
  then allocNode (freshNode SVGElement name)
  else throw.

Definition setAttribute (e : elem) (name value : string) : JS unit :=
  let* n := getNode e in
  if isElement n && validAttributeName host name then
    let name' :=
      match kind n with HTMLElement => toLowerCase name | _ => name end in
    putNode e
      (setAttributes
         (upsertAttr (mkAttr name' value ViaSetAttribute) (attributes n)) n)
  else throw.

(** [element.setAttributeNS(null, name, value)]. *)
Definition setAttributeNS_null (e : elem) (name value : string) : JS unit :=
  let* n := getNode e in
  if isElement n && validAttributeNameNS host name then
    putNode e
      (setAttributes
         (upsertAttr (mkAttr name value ViaSetAttributeNS) (attributes n)) n)
  else throw.

(** [element.dataset[name] = value]. *)
Definition dataset_set (e : elem) (name value : string) : JS unit :=
  let* n := getNode e in
  if isElement n && negb (hyphenLower name)
     && validAttributeName host (dataAttributeName name) then
    putNode e
      (setAttributes
         (upsertAttr (mkAttr (dataAttributeName name) value ViaDataset)
                     (attributes n)) n)
  else throw.

(** [parent.appendChild(child)].  Every call site passes a node created in
    the same call, which has no parent yet, so that nothing is to be taken
    out of a former parent. *)
Definition appendChild (p : elem) (child : option elem) : JS unit :=
  match child with
  | None => throw
  | Some c =>
      let* n := getNode p in
      putNode p (setChildNodes (childNodes n ++ [c]) n)
  end.

(** [element.remove()]. *)
Definition detached (e : elem) (m : Node) : Node :=
  setChildNodes (filter (fun c => c ≠ e) (childNodes m)) m.

Definition element_remove (e : elem) : JS unit :=
  let* n := getNode e in
  if isElement n then
    fun w => (Normal tt, withNodes (fmap (detached e)) w)
  else throw.

Definition sameListener (type : string) (h : handler) (l : string * handler)
  : bool :=
  String.eqb (fst l) type && Nat.eqb (snd l) h.

(** [element.addEventListener(type, handler, false)]: a listener already
    present is not added again. *)
Definition addEventListener (e : elem) (type : string) (h : handler)
  : JS unit :=
  let* n := getNode e in
  if existsb (sameListener type h) (listeners n) then ret tt
  else putNode e (setListeners (listeners n ++ [(type, h)]) n).

(** [element.removeEventListener(type, handler, false)]. *)
Definition removeEventListener (e : elem) (type : string) (h : handler)
  : JS unit :=
  let* n := getNode e in
  putNode e
    (setListeners
       (List.filter (fun l => negb (sameListener type h l)) (listeners n)) n).

(** [element.attachShadow({mode})]. *)
Definition attachShadow (e : elem) (mode : string) : JS elem :=
  let* n := getNode e in
  if bool_decide (kind n = HTMLElement) && shadowHost host (nodeName n)
     && (String.eqb mode "open" || String.eqb mode "closed")
     && bool_decide (shadowRoot n = None) then
    let* s := allocNode (freshNode ShadowRoot mode) in
    putNode e (setShadowRoot s n) >> ret s
  else throw.

(** [el.textContent = s] and [el.innerHTML = s]; [el] may be [undefined].
    Both run on a node created in the same call, which has no child yet. *)
Definition assign_textContent (el : option elem) (s : string) : JS unit :=
  match el with
  | None => throw
  | Some e => let* n := getNode e in putNode e (setTextContent s n)
  end.

Definition assign_innerHTML (el : option elem) (s : string) : JS unit :=
  match el with
  | None => throw
  | Some e => let* n := getNode e in putNode e (setInnerHTML s n)
  end.

(** ** Property access on [ElementRefStore] *)

Definition memberOf (w : World) (e : elem) (key : string) : Member :=
  match nodes w !! e with
  | Some n => elementMember host n key
  | None => NoMember
  end.

Definition fromObjectPrototype (key : string) : JsValue :=
  if isObjectPrototypeKey key then VInherited key else VUndefined.

(** [ElementRefStore[key]]. *)
Definition store_get (key : string) : JS JsValue :=
  fun w =>
    let s := ElementRefStore w in
    match own s !! key with
    | Some e => (Normal (VElement e), w)
    | None =>
        match proto s with
        | None => (Normal (fromObjectPrototype key), w)
        | Some e =>
            if String.eqb key "__proto__" then (Normal (VElement e), w)
            else match memberOf w e key with
                 | AccessorMember => (Throw, w)
                 | DataMember => (Normal (VInherited key), w)
                 | NoMember => (Normal (fromObjectPrototype key), w)
                 end
        end
    end.

Definition insertOwn (key : string) (value : elem) (s : RefStore) : RefStore :=
  mkRefStore (<[key := value]> (own s)) (proto s).

(** [ElementRefStore[key] = value]. *)
Definition store_set (key : string) (value : elem) : JS unit :=
  fun w =>
    let s := ElementRefStore w in
    match own s !! key with
    | Some _ => (Normal tt, withRefStore (insertOwn key value) w)
    | None =>
        if String.eqb key "__proto__" then
          (Normal tt, withRefStore (fun s => mkRefStore (own s) (Some value)) w)
        else
          match proto s with
          | None => (Normal tt, withRefStore (insertOwn key value) w)
          | Some e =>
              match memberOf w e key with
              | AccessorMember => (Throw, w)
              | _ => (Normal tt, withRefStore (insertOwn key value) w)
              end
          end
    end.

(** [delete ElementRefStore[key]]. *)
Definition store_delete (key : string) : JS unit :=
  fun w =>
    (Normal tt,
     withRefStore (fun s => mkRefStore (delete key (own s)) (proto s)) w).

(** ** DomStore *)

Definition addElement (key : string) (value : option elem) : JS unit :=
  try_catch
    (match value with
     | Some v => when (truthy key) (store_set key v)
     | None => ret tt
     end)
    (ret tt).

Definition getElement (key : string) : JS JsValue :=
  try_catch
    (if truthy key then store_get key else ret VUndefined)
    (ret VUndefined).

(** The table [modeTypes] of [removeElement].  DomStore and EventStore import
    each other; the cycle is cut by taking [EventStore.removeEventStore] as
    an argument. *)
Definition modeTypes (removeEventStore : JsValue -> JS unit) (mode : Z)
  : option (string -> JS unit) :=
  if (mode =? 1)%Z then
    Some (fun key => let* v := store_get key in removeEventStore v)
  else if (mode =? 2)%Z then
    Some (fun key => store_delete key)
  else None.

Definition removeElementWith (removeEventStore : JsValue -> JS unit)
  (key : string) (mode : Z) : JS unit :=
  try_catch
    (if truthy key && (1 <=? mode)%Z then
       match modeTypes removeEventStore mode with
       | Some action => action key
       | None => ret tt
       end
     else ret tt)
    (ret tt).

(** [l.length >= 1]; also the truth value of [l?.length]. *)
Definition nonEmpty {A} (l : list A) : bool :=
  match l with [] => false | _ :: _ => true end.

(** ** EventStore *)

Definition hasActions (e : elem) : JS bool :=
  fun w => (Normal (bool_decide (is_Some (ActionRefStore w !! e))), w).

Definition pushAction (e : elem) (s : Schema) : JS unit :=
  fun w =>
    match ActionRefStore w !! e with
    | Some l => (Normal tt, withActions (fun m => <[e := l ++ [s]]> m) w)
    | None => (Throw, w)
    end.

Definition registerEventStore (element : option elem) (type : string)
  (h : handler) (nodeId : option string) : JS unit :=
  try_catch
    (match element with
     | Some e =>
         when (truthy type)
           (let* present := hasActions e in
            when (negb present)
                 (fun w => (Normal tt, withActions (fun m => <[e := []]> m) w)) >>
            let schema :=
              mkSchema type h (if truthyOpt nodeId then nodeId else None) in
            pushAction e schema >>
            addEventListener e type h)
     | None => ret tt
     end)
    (ret tt).

(** [removeFromDomStore] calls [DomStore.removeElement(dataset.state, 2)];
    mode 2 never reaches the function taken as argument. *)
Definition removeFromDomStore (element : JsValue) : JS unit :=
  try_catch
    (match element with
     | VElement e =>
         let* n := getNode e in
         if isElement n then
           when (truthyOpt (dataset_state n))
                (removeElementWith (fun _ => ret tt)
                                   (default EmptyString (dataset_state n)) 2) >>
           element_remove e
         else throw
     | _ => throw
     end)
    (ret tt).

Definition removeEventStore (element : JsValue) : JS unit :=
  try_catch
    ((match element with
      | VElement e =>
          fun w =>
            match ActionRefStore w !! e with
            | Some eventList =>
                when (nonEmpty eventList)
                  (fromLastAt
                     (fun i item =>
                        removeEventListener e (sc_type item) (sc_handler item) >>
                        when (Nat.eqb i 0)
                             (fun w => (Normal tt, withActions (delete e) w)))
                     0 eventList) w
            | None => (Normal tt, w)
            end
      | _ => ret tt
      end) >>
     removeFromDomStore element)
    (ret tt).

Definition removeElement (key : string) (mode : Z) : JS unit :=
  removeElementWith removeEventStore key mode.

(** ** BuildElement *)

Definition setAttrNS (element : elem) (attrs : list (string * string))
  : JS unit :=
  fromLast
    (fun item =>
       try_catch
         (when (truthy (fst item))
               (setAttributeNS_null element (fst item) (snd item)))
         (ret tt))
    attrs.

Definition setAttr (element : elem) (attrs : list (string * string))
  : JS unit :=
  fromLast
    (fun item =>
       try_catch
         (when (truthy (fst item))
               (setAttribute element (fst item) (snd item)))
         (ret tt))
    attrs.

Definition setData (element : elem) (datasets : list (string * string))
  : JS unit :=
  fromLast
    (fun item =>
       try_catch
         (when (truthy (fst item))
               (dataset_set element (fst item) (snd item) >>
                when (String.eqb (fst item) "state")
                     (addElement (snd item) (Some element))))
         (ret tt))
    datasets.

(** [String(data.type)]: a missing type reads as [undefined]. *)
Definition typeName (data : ElementData) : string :=
  default "undefined" (type data).

Definition createElementNS (data : ElementData) : JS (option elem) :=
  try_catch
    (let* element := createElementNS_svg (typeName data) in
     when (nonEmpty (d_attr data)) (setAttr element (d_attr data)) >>
     when (nonEmpty (d_attrNS data)) (setAttrNS element (d_attrNS data)) >>
     when (nonEmpty (d_dataset data)) (setData element (d_dataset data)) >>
     ret (Some element))
    (ret None).

Definition buildElement (data : ElementData) : JS (option elem) :=
  try_catch
    (let* element := createElement (typeName data) in
     when (nonEmpty (d_attr data)) (setAttr element (d_attr data)) >>
     when (nonEmpty (d_dataset data)) (setData element (d_dataset data)) >>
     ret (Some element))
    (ret None).

(** The argument [{parent, element, shadow}] of the two builders. *)
Record BuildArgs := mkBuildArgs {
  b_parent : ParentArg;
  b_shadow : option string;
  b_element : ElementData }.

(** A [ShadowRoot] read as an element description: it has none of the
    fields [type], [attr], [attrNS], [dataset]. *)
Definition noData : ElementData := mkElementData None [] [] [].

Definition createHTMLElement (data : BuildArgs) : JS (option elem) :=
  try_catch
    (let* childElement := buildElement (b_element data) in
     match b_parent data with
     | PNode p => appendChild p childElement
     | PDesc d =>
         let* parentElement := buildElement d in
         match parentElement with
         | Some pe => appendChild pe childElement
         | None => throw
         end
     | PUndefined | PNull => appendChild document_body childElement
     end >>
     if truthyOpt (b_shadow data) then
       match childElement with
       | None => throw
       | Some c =>
           let* n := getNode c in
           if truthyOpt (dataset_state n) then
             let* v := getElement (default EmptyString (dataset_state n)) in
             match v with
             | VElement e =>
                 let* s := attachShadow e (default EmptyString (b_shadow data)) in
                 ret (Some s)
             | _ => throw
             end
           else ret childElement
       end
     else ret childElement)
    (ret None).

Definition createSVGElement (data : BuildArgs) : JS (option elem) :=
  try_catch
    (let* childElement := createElementNS (b_element data) in
     match b_parent data with
     | PNode p =>
         let* n := getNode p in
         if isElement n then appendChild p childElement
         else
           let* parentElement := createElementNS noData in
           match parentElement with
           | Some pe => appendChild pe childElement
           | None => throw
           end
     | PDesc d =>
         let* parentElement := createElementNS d in
         match parentElement with
         | Some pe => appendChild pe childElement
         | None => throw
         end
     | PUndefined | PNull => ret tt
     end >>
     ret childElement)
    (ret None).

(** ** CreateElementFromStruct *)

Definition TypeSelect (type : string) : BuildArgs -> JS (option elem) :=
  if truthy type && String.eqb type "svg" then createSVGElement
  else createHTMLElement.

Definition call_cb (cb : Callback) : JS ReturnValue :=
  match cb with
  | CbFunction =>
      fun w => (Normal RCallback, withCallbacks S w)
  | CbUndefined => ret RUndefined
  end.

Definition setChildren (l : option (list Struct)) (s : Struct) : Struct :=
  mkStruct (element s) (attr s) (attrNS s) (dataset s) (text s) (html s)
           (event s) l (shadow s).

Definition parentOf (el : option elem) : ParentArg :=
  match el with Some e => PNode e | None => PUndefined end.

Definition createEventElement (struct : Struct) (el : option elem)
  : JS unit :=
  match event struct with
  | Some ev =>
      if truthyOpt (ev_action ev) && truthyOpt (ev_type ev) then
        match EventActions (default EmptyString (ev_action ev)) with
        | Some h =>
            registerEventStore el (default EmptyString (ev_type ev)) h
              (if truthyOpt (ev_node ev) then ev_node ev else None)
        | None => ret tt
        end
      else ret tt
  | None => ret tt
  end.

Section Children.

(** [createChildren] and [createFromStruct] call each other; the recursive
    call is taken as an argument here. *)
Variable createFromStruct :
  Struct -> ParentArg -> Callback -> JS (Struct * ReturnValue).

(** The loop of [createChildren], as written: [l] is the array after
    [reverse()], read from its last index down to 0.  It gives back the
    array with every entry as its call left it, and the value of the
    [return] inside the loop, if it was reached. *)
Fixpoint reversedLoop (el : option elem) (cb : Callback) (i : nat)
  (l : list Struct) : JS (list Struct * ReturnValue) :=
  match l with
  | [] => ret ([], RUndefined)
  | childItem :: above =>
      let* (above', _) := reversedLoop el cb (S i) above in
      let* (childItem', _) := createFromStruct childItem (parentOf el) cb in
      let* r := (if Nat.eqb i 0 then call_cb cb else ret RUndefined) in
      ret (childItem' :: above', r)
  end.

Definition createChildren_source (struct : Struct) (el : option elem)
  (cb : Callback) : JS (Struct * ReturnValue) :=
  match children struct with
  | Some array =>
      let startFromLast := rev array in
      let* (array', r) := reversedLoop el cb 0 startFromLast in
      ret (setChildren (Some array') struct, r)
  | None =>
      let* r := call_cb cb in
      ret (struct, r)
  end.

(** The same loop in the order of its iterations: reading the reversed array
    from its last index visits the entries in their declared order, and the
    index reaches 0 at the last declared one. *)
Fixpoint declaredLoop (el : option elem) (cb : Callback) (l : list Struct)
  : JS (list Struct * ReturnValue) :=
  match l with
  | [] => ret ([], RUndefined)
  | childItem :: rest =>
      let* (childItem', _) := createFromStruct childItem (parentOf el) cb in
      match rest with
      | [] =>
          let* r := call_cb cb in
          ret ([childItem'], r)
      | _ :: _ =>
          let* (rest', r) := declaredLoop el cb rest in
          ret (childItem' :: rest', r)
      end
  end.

Definition createChildren (struct : Struct) (el : option elem)
  (cb : Callback) : JS (Struct * ReturnValue) :=
  match children struct with
  | Some array =>
      let* (array', r) := declaredLoop el cb array in
      ret (setChildren (Some (rev array')) struct, r)
  | None =>
      let* r := call_cb cb in
      ret (struct, r)
  end.

End Children.

Definition defaultParent (parent : ParentArg) : ParentArg :=
  match parent with PUndefined => PNode document_body | _ => parent end.

Definition elementData (struct : Struct) : ElementData :=
  mkElementData (element struct) (attr struct) (attrNS struct)
                (dataset struct).

(** [createFromStruct({struct, parent}, cb)] for a [struct] that is an
    object.  The second component of the result is the value returned, the
    first is the description as the call leaves it. *)
Fixpoint createFromStruct_object (struct : Struct) (parent : ParentArg)
  (cb : Callback) {struct struct} : JS (Struct * ReturnValue) :=
  try_catch
    (if truthyOpt (element struct) then
       let* el :=
         TypeSelect (toLowerCase (default EmptyString (element struct)))
           (mkBuildArgs (defaultParent parent) (shadow struct)
                        (elementData struct)) in
       when (truthyOpt (text struct))
            (assign_textContent el (default EmptyString (text struct))) >>
       when (truthyOpt (html struct))
            (assign_innerHTML el (default EmptyString (html struct))) >>
       createEventElement struct el >>
       createChildren createFromStruct_object struct el cb
     else ret (struct, RUndefined))
    (ret (struct, RUndefined)).

Definition createFromStruct (data : JsArg) (cb : Callback)
  : JS (JsArg * ReturnValue) :=
  if String.eqb (typeof data) "object" then
    match data with
    | AData (Some struct) parent =>
        let* (struct', r) := createFromStruct_object struct parent cb in
        ret (AData (Some struct') parent, r)
    | AData None _ => ret (data, RUndefined)
    | _ => try_catch throw (ret (data, RUndefined))
    end
  else ret (data, RUndefined).

End Program.

(** ** CreateElementFromStruct on a description that shares its arrays

    [createChildren] reverses the array [struct.children] in place.  When
    the same array is reached more than once from a description (the same
    array under two nodes, or a child object with children that occurs
    twice), it is reversed once per visit.  Here the arrays are kept in a
    store of their own and a description object refers to its [children] by
    the identity of the array; the other fields of a description are only
    read. *)

Abbreviation array := nat (only parsing).

Record Description := mkDescription {
  o_element : option string;
  o_attr : list (string * string);
  o_attrNS : list (string * string);
  o_dataset : list (string * string);
  o_text : option string;
  o_html : option string;
  o_event : option EventDesc;
  o_children : option array;
  o_shadow : option string }.

Abbreviation Arrays := (gmap nat (list Description)) (only parsing).

Global Instance EventDesc_eq_dec : EqDecision EventDesc.
Proof. solve_decision. Defined.
Global Instance Description_eq_dec : EqDecision Description.
Proof. solve_decision. Defined.

(** The description object with its children written out. *)
Definition structOf (o : Description) (l : option (list Struct)) : Struct :=
  mkStruct (o_element o) (o_attr o) (o_attrNS o) (o_dataset o) (o_text o)
           (o_html o) (o_event o) l (o_shadow o).

(** A computation over the store of arrays and the world.  [None] stands for
    a nesting of calls deeper than the bound it was given. *)
Definition Walk (A : Type) : Type :=
  Arrays -> World -> option (Completion A * Arrays * World).

Definition done {A} (a : A) : Walk A := fun h w => Some (Normal a, h, w).

Definition andThen {A B} (m : Walk A) (k : A -> Walk B) : Walk B :=
  fun h w => match m h w with
             | Some (Normal a, h', w') => k a h' w'
             | Some (Throw, h', w') => Some (Throw, h', w')
             | None => None
             end.

Definition caught {A} (body handler : Walk A) : Walk A :=
  fun h w => match body h w with
             | Some (Throw, h', w') => handler h' w'
             | other => other
             end.

(** A computation that leaves the arrays alone. *)
Definition onWorld {A} (m : JS A) : Walk A :=
  fun h w => let (c, w') := m w in Some (c, h, w').

Definition tooDeep {A} : Walk A := fun _ _ => None.

Notation "'let+' x ':=' m 'in' k" := (andThen m (fun x => k))
  (at level 10, x pattern, m at level 100, k at level 200, only parsing).
Notation "m '>>+' k" := (andThen m (fun _ => k))
  (at level 90, right associativity, only parsing).

(** [array.reverse()], [array.length] and [array[i]].  A reference to an
    array that the store does not hold stands for no JavaScript value; the
    access throws. *)
Definition array_reverse (a : array) : Walk unit :=
  fun h w => match h !! a with
             | Some l => Some (Normal tt, <[a := rev l]> h, w)
             | None => Some (Throw, h, w)
             end.

Definition array_length (a : array) : Walk nat :=
  fun h w => match h !! a with
             | Some l => Some (Normal (length l), h, w)
             | None => Some (Throw, h, w)
             end.

Definition array_get (a : array) (i : nat) : Walk (option Description) :=
  fun h w => match h !! a with
             | Some l => Some (Normal (l !! i), h, w)
             | None => Some (Throw, h, w)
             end.

Section SharedProgram.

Variable host : Host.
Variable EventActions : string -> option handler.

Section SharedChildren.

Variable createFromStruct :
  Description -> ParentArg -> Callback -> Walk ReturnValue.

(** The iterations [i = count - 1, ..., 0] of the loop of [createChildren]:
    the entry is read from the array at every iteration, and the value of
    the [return] at [i === 0] is the value of the loop. *)
Fixpoint downFrom (startFromLast : array) (el : option elem) (cb : Callback)
  (count : nat) : Walk ReturnValue :=
  match count with
  | 0 => done RUndefined
  | S i =>
      let+ childItem := array_get startFromLast i in
      match childItem with
      | Some c => createFromStruct c (parentOf el) cb >>+ done tt
      | None => done tt
      end >>+
      if Nat.eqb i 0 then onWorld (call_cb cb)
      else downFrom startFromLast el cb i
  end.

Definition createChildren_shared (struct : Description) (el : option elem)
  (cb : Callback) : Walk ReturnValue :=
  match o_children struct with
  | Some startFromLast =>
      array_reverse startFromLast >>+
      let+ n := array_length startFromLast in
      downFrom startFromLast el cb n
  | None => onWorld (call_cb cb)
  end.

End SharedChildren.

(** [createFromStruct({struct, parent}, cb)] for a [struct] that is an
    object of the store; [depth] bounds the nesting of the calls. *)
Fixpoint createFromStruct_shared (depth : nat) (struct : Description)
  (parent : ParentArg) (cb : Callback) : Walk ReturnValue :=
  match depth with
  | 0 => tooDeep
  | S depth =>
      caught
        (if truthyOpt (o_element struct) then
           let+ el :=
             onWorld
               (TypeSelect host
                  (toLowerCase (default EmptyString (o_element struct)))
                  (mkBuildArgs (defaultParent parent) (o_shadow struct)
                     (mkElementData (o_element struct) (o_attr struct)
                        (o_attrNS struct) (o_dataset struct)))) in
           onWorld
             (when (truthyOpt (o_text struct))
                (assign_textContent el (default EmptyString (o_text struct))))
           >>+
           onWorld
             (when (truthyOpt (o_html struct))
                (assign_innerHTML el (default EmptyString (o_html struct))))
           >>+
           onWorld (createEventElement EventActions (structOf struct None) el)
           >>+
           createChildren_shared (createFromStruct_shared depth) struct el cb
         else done RUndefined)
        (done RUndefined)
  end.

End SharedProgram.

(** ** Reading the store of arrays *)

(** The tree that is read from the store when the description [o] is walked
    down to [depth] levels ([None] when it is deeper), and the arrays met on
    the way, once for every time they are met. *)
Fixpoint treeOf (depth : nat) (h : Arrays) (o : Description) : option Struct :=
  match depth with
  | 0 => None
  | S depth =>
      match o_children o with
      | None => Some (structOf o None)
      | Some a =>
          match h !! a with
          | Some l =>
              (fun ls => structOf o (Some ls)) <$> mapM (treeOf depth h) l
          | None => None
          end
      end
  end.

Fixpoint arraysOf (depth : nat) (h : Arrays) (o : Description) : list array :=
  match depth with
  | 0 => []
  | S depth =>
      match o_children o with
      | None => []
      | Some a => a :: flat_map (arraysOf depth h) (default [] (h !! a))
      end
  end.

(** An array that reads the same from both ends (an array of at most one
    entry, for one) is left as it is by [reverse()]; [turned] lists the other
    arrays met on the way, [turnedAll] those met from a list of
    descriptions. *)
Definition symmetric (h : Arrays) (a : array) : bool :=
  match h !! a with
  | Some l => bool_decide (rev l = l)
  | None => true
  end.

Definition turned (depth : nat) (h : Arrays) (o : Description) : list array :=
  List.filter (fun a => negb (symmetric h a)) (arraysOf depth h o).

Definition turnedAll (k : nat) (h : Arrays) (l : list Description)
  : list array :=
  List.filter (fun a => negb (symmetric h a)) (flat_map (arraysOf k h) l).

(** ** Reading a description *)

(** [TypeSelect] picks the namespaced builder for this element type. *)
Definition selectsSVG (name : string) : bool :=
  truthy (toLowerCase name) && String.eqb (toLowerCase name) "svg".

(** The description has an element type and the host accepts it, for the
    builder that [TypeSelect] picks. *)
Definition buildable (host : Host) (s : Struct) : bool :=
  match element s with
  | Some name =>
      truthy name &&
      (if selectsSVG name then validQualifiedName host name
       else validElementName host name)
  | None => false
  end.

Definition kindOf (s : Struct) : NodeKind :=
  if selectsSVG (default EmptyString (element s)) then SVGElement else HTMLElement.

Definition nameOf (s : Struct) : string :=
  if selectsSVG (default EmptyString (element s)) then default EmptyString (element s)
  else toLowerCase (default EmptyString (element s)).

(** The name under which [setAttribute] stores an attribute: an HTML
    element lower-cases it. *)
Definition attrKey (k : NodeKind) (name : string) : string :=
  match k with HTMLElement => toLowerCase name | _ => name end.

(** The attributes an element ends with, entry by entry: what [setAttr],
    [setAttrNS] and [setData] write, each over its array from the last
    entry to the first. *)
Definition writeAttr (host : Host) (k : NodeKind) (item : string * string)
  (l : list Attr) : list Attr :=
  if truthy (fst item) && validAttributeName host (fst item) then
    upsertAttr
      (mkAttr (match k with HTMLElement => toLowerCase (fst item)
                          | _ => fst item end)
              (snd item) ViaSetAttribute) l
  else l.

Definition writeAttrNS (host : Host) (item : string * string)
  (l : list Attr) : list Attr :=
  if truthy (fst item) && validAttributeNameNS host (fst item) then
    upsertAttr (mkAttr (fst item) (snd item) ViaSetAttributeNS) l
  else l.

Definition writeData (host : Host) (item : string * string)
  (l : list Attr) : list Attr :=
  if truthy (fst item) && negb (hyphenLower (fst item))
     && validAttributeName host (dataAttributeName (fst item)) then
    upsertAttr (mkAttr (dataAttributeName (fst item)) (snd item) ViaDataset) l
  else l.

Definition decorated (host : Host) (withNS : bool) (k : NodeKind)
  (data : ElementData) (l : list Attr) : list Attr :=
  foldr (writeData host)
        (if withNS
         then foldr (writeAttrNS host) (foldr (writeAttr host k) l (d_attr data))
                    (d_attrNS data)
         else foldr (writeAttr host k) l (d_attr data))
        (d_dataset data).

Definition attributesOf (host : Host) (s : Struct) : list Attr :=
  decorated host (selectsSVG (default EmptyString (element s))) (kindOf s)
            (mkElementData (element s) (attr s) (attrNS s) (dataset s)) [].

(** A description the amended C4 speaks of: every node is buildable and no
    node asks for a rendering boundary. *)
Fixpoint plain (host : Host) (s : Struct) : bool :=
  buildable host s && negb (truthyOpt (shadow s)) &&
  match children s with
  | Some l => forallb (plain host) l
  | None => true
  end.

(** Number of nodes of a description. *)
Fixpoint size (s : Struct) : nat :=
  S (match children s with
     | Some l =>
         (fix sum (l : list Struct) : nat :=
            match l with
            | [] => 0
            | c :: r => size c + sum r
            end) l
     | None => 0
     end).

Definition sizes (l : list Struct) : nat :=
  foldr (fun c acc => size c + acc) 0 l.

Definition childList (s : Struct) : list Struct :=
  default [] (children s).

(** The identities the children of a description get when the first of
    them is created as node [i]: each child comes after the whole subtree
    of the one before. *)
Fixpoint childIds (i : nat) (l : list Struct) : list nat :=
  match l with
  | [] => []
  | c :: r => i :: childIds (i + size c) r
  end.

(** The description with another [attrNS] object. *)
Definition withAttrNS (l : list (string * string)) (s : Struct) : Struct :=
  mkStruct (element s) (attr s) l (dataset s) (text s) (html s) (event s)
           (children s) (shadow s).

(** The description as a call leaves it: the [children] array of every node
    reversed in place. *)
Fixpoint mirror (s : Struct) : Struct :=
  setChildren
    (match children s with
     | Some l => Some (rev (map mirror l))
     | None => None
     end) s.

(** How many times a call runs its callback, when it has one: once for
    every node whose [children] is absent or a non-empty array. *)
Fixpoint invocations (s : Struct) : nat :=
  match children s with
  | None => 1
  | Some l =>
      (fix sum (l : list Struct) : nat :=
         match l with
         | [] => 0
         | c :: r => invocations c + sum r
         end) l
      + (if nonEmpty l then 1 else 0)
  end.

Definition invocationsAll (l : list Struct) : nat :=
  foldr (fun c acc => invocations c + acc) 0 l.

Definition callsOf (cb : Callback) (n : nat) : nat :=
  match cb with CbFunction => n | CbUndefined => 0 end.

(** [renders host ns i s]: in the document [ns], node [i] is the element of
    the description [s] (its kind, its name and the attributes the
    description gives it), its children are exactly the elements of the
    children of [s], in the declared order, and each of them renders its own
    description. *)
Inductive renders (host : Host) (ns : list Node) : nat -> Struct -> Prop :=
  | renders_node i s n :
      ns !! i = Some n ->
      kind n = kindOf s ->
      nodeName n = nameOf s ->
      attributes n = attributesOf host s ->
      childNodes n = childIds (S i) (childList s) ->
      rendersAll host ns (S i) (childList s) ->
      renders host ns i s
with rendersAll (host : Host) (ns : list Node) : nat -> list Struct -> Prop :=
  | rendersAll_nil i : rendersAll host ns i []
  | rendersAll_cons i c r :
      renders host ns i c ->
      rendersAll host ns (i + size c) r ->
      rendersAll host ns i (c :: r).

(** ** A concrete host

    The checks of a browser on the ASCII range: names follow the XML [Name]
    production, and a shadow root can be attached to the elements the HTML
    standard lists. *)

Definition isDigit (c : ascii) : bool :=
  let n := nat_of_ascii c in (48 <=? n)%nat && (n <=? 57)%nat.

Definition nameStart (c : ascii) : bool :=
  isUpper c || isLower c || Ascii.eqb c "_" || Ascii.eqb c ":"
  || (128 <=? nat_of_ascii c)%nat.

Definition nameChar (c : ascii) : bool :=
  nameStart c || isDigit c || Ascii.eqb c "-" || Ascii.eqb c ".".

Fixpoint allChars (p : ascii -> bool) (s : string) : bool :=
  match s with
  | EmptyString => true
  | String c r => p c && allChars p r
  end.

Definition xmlName (s : string) : bool :=
  match s with
  | EmptyString => false
  | String c r => nameStart c && allChars nameChar r
  end.

Definition noColon (s : string) : bool :=
  allChars (fun c => negb (Ascii.eqb c ":")) s.

Definition shadowHosts : list string :=
  [ "article"; "aside"; "blockquote"; "body"; "div"; "footer"; "h1"; "h2";
    "h3"; "h4"; "h5"; "h6"; "header"; "main"; "nav"; "p"; "section"; "span" ].

Definition elementAccessors : list string :=
  [ "id"; "className"; "tagName"; "localName"; "parentElement"; "parentNode";
    "children"; "childNodes"; "dataset"; "innerHTML"; "textContent";
    "shadowRoot"; "style"; "title" ].

Definition elementMethods : list string :=
  [ "remove"; "appendChild"; "setAttribute"; "setAttributeNS";
    "addEventListener"; "removeEventListener"; "attachShadow"; "constructor" ].

Definition browserMember (n : Node) (key : string) : Member :=
  if existsb (String.eqb key) elementAccessors then AccessorMember
  else if existsb (String.eqb key) elementMethods then DataMember
  else NoMember.

Definition browser : Host :=
  mkHost xmlName xmlName xmlName (fun s => xmlName s && noColon s)
         (fun s => existsb (String.eqb s) shadowHosts)
         browserMember eq_refl.

(** The only action the demonstration page registers. *)
Definition demoActions (name : string) : option handler :=
  if String.eqb name "clickHelloWord" then Some 0 else None.

Definition leaf (name : string) : Struct :=
  mkStruct (Some name) [] [] [] None None None None None.

(** ** Scenarios *)

Definition compile (struct : Struct) (cb : Callback) : World :=
  snd (createFromStruct browser demoActions (AData (Some struct) PUndefined)
         cb initial).

Definition withChildren (name : string) (l : list Struct) : Struct :=
  mkStruct (Some name) [] [] [] None None None (Some l) None.

(** Description objects of the store: without children, and with the array
    [a] as children. *)
Definition leafObject (name : string) : Description :=
  mkDescription (Some name) [] [] [] None None None None None.

Definition parentObject (name : string) (a : array) : Description :=
  mkDescription (Some name) [] [] [] None None None (Some a) None.

Definition svgScenario : Struct :=
  mkStruct (Some "svg") [("viewBox", "0 0 10 10")] [] [] None None None
           (Some [leaf "circle"]) None.

Definition boundaryScenario : Struct :=
  mkStruct (Some "div") [] [] [("state", "box")] None None None
           (Some [leaf "span"]) (Some "open").

Definition unresolvedScenario : Struct :=
  mkStruct (Some "button") [] [] [] None None
           (Some (mkEventDesc (Some "mousedown") (Some "doesNotExist") None))
           None None.

Definition resolvedScenario : Struct :=
  mkStruct (Some "button") [] [] [] None None
           (Some (mkEventDesc (Some "mousedown") (Some "clickHelloWord") None))
           None None.

Definition taggedData : ElementData :=
  mkElementData (Some "div") [] [] [("state", "box")].

(** ** Notions used in the statements and their proofs *)

(** The listeners left on an element once every registration of [l] has
    been taken off, last registration first. *)
Definition strip (l : list Schema) (ls : list (string * handler))
  : list (string * handler) :=
  foldr (fun item acc =>
           List.filter
             (fun x => negb (sameListener (sc_type item) (sc_handler item) x))
             acc)
        ls l.

(** The loop of [removeEventStore] over the registrations of [e]. *)
Definition detachLoop (e : elem) (i : nat) (l : list Schema) : JS unit :=
  fromLastAt
    (fun i item =>
       removeEventListener e (sc_type item) (sc_handler item) >>
       when (Nat.eqb i 0) (fun w => (Normal tt, withActions (delete e) w)))
    i l.

(** Nothing is left for [removeEventStore] to do on [e]. *)
Definition settled (e : elem) (w : World) : Prop :=
  (ActionRefStore w !! e = None \/ ActionRefStore w !! e = Some []) /\
  match nodes w !! e with
  | None => True
  | Some n =>
      isElement n = true ->
      (truthyOpt (dataset_state n) = true ->
       own (ElementRefStore w) !! default EmptyString (dataset_state n) = None) /\
      Forall (fun m => e ∉ childNodes m) (nodes w)
  end.

(** From [w] to [w'], nothing changed but the attributes of [e] (and
    possibly [ElementRefStore]). *)
Definition attrsOnly (e : elem) (w w' : World) : Prop :=
  length (nodes w') = length (nodes w) /\
  (forall i, i <> e -> nodes w' !! i = nodes w !! i) /\
  (forall n, nodes w !! e = Some n ->
             exists l, nodes w' !! e = Some (setAttributes l n)) /\
  ActionRefStore w' = ActionRefStore w /\
  callbacks w' = callbacks w.

(** The same, with [ElementRefStore] unchanged as well. *)
Definition keepsStore (e : elem) (w w' : World) : Prop :=
  attrsOnly e w w' /\ ElementRefStore w' = ElementRefStore w.

(** [ElementRefStore[key]] reads as the element [e]. *)
Definition registered (key : string) (e : elem) (s : RefStore) : Prop :=
  own s !! key = Some e \/
  (own s !! key = None /\ String.eqb key "__proto__" = true /\
   proto s = Some e).

(** The world once a node has been allocated. *)
Definition allocated (n : Node) (w : World) : World :=
  withNodes (fun ns => ns ++ [n]) w.

(** From [w] to [w'] the document only grew, every node below [b] kept its
    kind, name and listeners and its children were at most added to, and
    [ActionRefStore] has the same entries for the nodes below [b]. *)
Definition preserved (b : nat) (w w' : World) : Prop :=
  length (nodes w) <= length (nodes w') /\
  (forall i n, i < b -> nodes w !! i = Some n ->
     exists n', nodes w' !! i = Some n' /\ kind n' = kind n /\
                nodeName n' = nodeName n /\ listeners n' = listeners n /\
                childNodes n `prefix_of` childNodes n') /\
  (forall i, i < b -> ActionRefStore w' !! i = ActionRefStore w !! i).

(** [frames b m Q]: run from a document of at least [b] nodes, [m] preserves
    the nodes below [b], and its value, if it completes, satisfies [Q]. *)
Definition frames {A} (b : nat) (m : JS A) (Q : A -> Prop) : Prop :=
  forall w, b <= length (nodes w) ->
    preserved b w (snd (m w)) /\
    match fst (m w) with Normal a => Q a | Throw => True end.

(** The element returned, if any, was created after the first [b] nodes. *)
Definition freshResult (b : nat) (r : option elem) : Prop :=
  forall e, r = Some e -> b <= e.

(** From [w] to [w'], one node of kind [k] and name [name] was added at the
    end of the document and appended to the children of [p]; nothing else
    changed in the document, in [ActionRefStore] or in the callback count. *)
Definition built (k : NodeKind) (name : string) (la : list Attr) (p : elem)
  (np : Node) (w w' : World) : Prop :=
  length (nodes w') = S (length (nodes w)) /\
  (forall i, i < length (nodes w) -> i <> p -> nodes w' !! i = nodes w !! i) /\
  nodes w' !! p =
    Some (setChildNodes (childNodes np ++ [length (nodes w)]) np) /\
  nodes w' !! length (nodes w) = Some (setAttributes la (freshNode k name)) /\
  ActionRefStore w' = ActionRefStore w /\
  callbacks w' = callbacks w.

(** From [w] to [w'], only node [n] changed, and it kept its kind, its name
    and its children. *)
Definition touched (n : elem) (w w' : World) : Prop :=
  length (nodes w') = length (nodes w) /\
  (forall i, i <> n -> nodes w' !! i = nodes w !! i) /\
  (forall m, nodes w !! n = Some m ->
     exists m', nodes w' !! n = Some m' /\ kind m' = kind m /\
                nodeName m' = nodeName m /\ attributes m' = attributes m /\
                childNodes m' = childNodes m).

(** Every list kept in [ActionRefStore] is non-empty, belongs to a node of
    the document, and each of its records is a listener of that node. *)
Definition recorded (w : World) : Prop :=
  forall e l, ActionRefStore w !! e = Some l ->
    l <> [] /\
    exists n, nodes w !! e = Some n /\
      Forall (fun item => In (sc_type item, sc_handler item) (listeners n)) l.

(** The element a builder returned, if any, is a node of the document. *)
Definition below (r : option elem) (w : World) : Prop :=
  forall e, r = Some e -> e < length (nodes w).

(** From [w] to [w'], the document only grew, every node kept its
    listeners and [ActionRefStore] is the same. *)
Definition extends (w w' : World) : Prop :=
  length (nodes w) <= length (nodes w') /\
  ActionRefStore w' = ActionRefStore w /\
  forall e n, nodes w !! e = Some n ->
    exists n', nodes w' !! e = Some n' /\ listeners n' = listeners n.

(** From [w] to [w'], the document only grew and [recorded] was kept. *)
Definition grows (w w' : World) : Prop :=
  length (nodes w) <= length (nodes w') /\ (recorded w -> recorded w').

(** [steady P m Q]: run from a world where [P] holds, [m] keeps [recorded],
    does not shrink the document, and its value, if it completes, satisfies
    [Q] in the world it leaves. *)
Definition steady {A} (P : World -> Prop) (m : JS A)
  (Q : A -> World -> Prop) : Prop :=
  forall w, P w ->
    grows w (snd (m w)) /\
    match fst (m w) with Normal a => Q a (snd (m w)) | Throw => True end.

Section Notions.

Variable host : Host.
Variable EventActions : string -> option handler.

(** One iteration of [setData]. *)
Definition setData_item (e : elem) (item : string * string) : JS unit :=
  try_catch
    (when (truthy (fst item))
          (dataset_set host e (fst item) (snd item) >>
           when (String.eqb (fst item) "state")
                (addElement host (snd item) (Some e))))
    (ret tt).

(** What [buildElement] and [createElementNS] do once the node exists. *)
Definition decorate (withNS : bool) (data : ElementData) (e : elem)
  : JS (option elem) :=
  when (nonEmpty (d_attr data)) (setAttr host e (d_attr data)) >>
  (if withNS
   then when (nonEmpty (d_attrNS data)) (setAttrNS host e (d_attrNS data))
   else ret tt) >>
  when (nonEmpty (d_dataset data)) (setData host e (d_dataset data)) >>
  ret (Some e).

(** The last step of [createHTMLElement]: the rendering boundary. *)
Definition boundary (shadow : option string) (childElement : option elem)
  : JS (option elem) :=
  if truthyOpt shadow then
    match childElement with
    | None => throw
    | Some c =>
        let* n := getNode c in
        if truthyOpt (dataset_state n) then
          let* v := getElement host (default EmptyString (dataset_state n)) in
          match v with
          | VElement e =>
              let* s := attachShadow host e (default EmptyString shadow) in
              ret (Some s)
          | _ => throw
          end
        else ret childElement
    end
  else ret childElement.

(** The middle step of [createHTMLElement]: the new element goes under the
    parent given, under a parent built from the description given, or under
    [document.body]. *)
Definition attachTo (parent : ParentArg) (childElement : option elem)
  : JS unit :=
  match parent with
  | PNode p => appendChild p childElement
  | PDesc d =>
      let* parentElement := buildElement host d in
      match parentElement with
      | Some pe => appendChild pe childElement
      | None => throw
      end
  | PUndefined | PNull => appendChild document_body childElement
  end.

(** What [createFromStruct] does once the node is built. *)
Definition afterBuild (struct : Struct) (el : option elem) (cb : Callback)
  : JS (Struct * ReturnValue) :=
  when (truthyOpt (text struct))
       (assign_textContent el (default EmptyString (text struct))) >>
  when (truthyOpt (html struct))
       (assign_innerHTML el (default EmptyString (html struct))) >>
  createEventElement EventActions struct el >>
  createChildren (createFromStruct_object host EventActions) struct el cb.

(** From [w] to [w'], the tree of [s] was added at the end of the document,
    its root appended to the children of [p]; the nodes that were there
    are as before. *)
Definition grown (s : Struct) (p : elem) (np : Node) (w w' : World) : Prop :=
  length (nodes w') = length (nodes w) + size s /\
  (forall i, i < length (nodes w) -> i <> p -> nodes w' !! i = nodes w !! i) /\
  nodes w' !! p =
    Some (setChildNodes (childNodes np ++ [length (nodes w)]) np) /\
  renders host (nodes w') (length (nodes w)) s.

(** Under an element [p], compiling the plain description [s] completes,
    returns [s] with its lists of children reversed, grows the tree of [s]
    and invokes the callback [invocations s] times. *)
Definition compilesPlainly (s : Struct) : Prop :=
  forall p np cb w,
    plain host s = true -> nodes w !! p = Some np -> isElement np = true ->
    exists r w',
      createFromStruct_object host EventActions s (PNode p) cb w =
      (Normal (mirror s, r), w') /\
      grown s p np w w' /\
      callbacks w' = callbacks w + callsOf cb (invocations s).

End Notions.

(** ** Notions for a call under any parent and on shared arrays *)

(** The node to the children of which the builder picked by [TypeSelect]
    appends the element it creates as node [length (nodes w)], when it does:
    the node given as parent; [document.body] when no parent is given, or
    [null] to the standard builder; and a node created right after the
    element (from the parent description or, by the namespaced builder
    under a node that is not an element, from [String(undefined)]) when the
    host accepts its name. *)
Definition attachedTo (host : Host) (w : World) (struct : Struct)
  (parent : ParentArg) : option elem :=
  let svg := selectsSVG (default EmptyString (element struct)) in
  let fresh := S (length (nodes w)) in
  match defaultParent parent with
  | PNode p =>
      match nodes w !! p with
      | Some np =>
          if svg && negb (isElement np) then
            if validQualifiedName host (typeName noData) then Some fresh
            else None
          else Some p
      | None => None
      end
  | PDesc d =>
      if (if svg then validQualifiedName host (typeName d)
          else validElementName host (typeName d))
      then Some fresh else None
  | PNull | PUndefined =>
      if svg then None
      else match nodes w !! document_body with
           | Some _ => Some document_body
           | None => None
           end
  end.

(** From [w] to [w'], a node of kind [k] and name [name] was added at the
    end of the document, then an element for its parent, of which it is the
    only child; nothing else changed in the document, in [ActionRefStore]
    or in the callback count. *)
Definition builtUnder (k : NodeKind) (name : string) (la : list Attr)
  (w w' : World) : Prop :=
  length (nodes w') = S (S (length (nodes w))) /\
  (forall i, i < length (nodes w) -> nodes w' !! i = nodes w !! i) /\
  nodes w' !! length (nodes w) = Some (setAttributes la (freshNode k name)) /\
  (exists nq, nodes w' !! S (length (nodes w)) = Some nq /\
              childNodes nq = [length (nodes w)] /\ listeners nq = [] /\
              isElement nq = true) /\
  ActionRefStore w' = ActionRefStore w /\
  callbacks w' = callbacks w.

(** What the rendering boundary does to the world [w] and the element [n]:
    nothing, with [n] or [undefined] as value, or a shadow root added at the
    end of the document and attached to an element [e], with the shadow
    root as value. *)
Definition shaded (n : elem) (r : option elem) (w w' : World) : Prop :=
  (w' = w /\ (r = Some n \/ r = None)) \/
  (exists e ne mode,
     nodes w !! e = Some ne /\ r = Some (length (nodes w)) /\
     w' = withNodes
            (fun ns => <[e := setShadowRoot (length (nodes w)) ne]>
                         (ns ++ [freshNode ShadowRoot mode])) w).

(** The element built for [s] has a non-empty [dataset.state]; [s] is for
    the standard builder, asks for a rendering boundary and has one. *)
Definition stateTagged (host : Host) (s : Struct) : bool :=
  truthyOpt (findAttr "data-state" (attributesOf host s)).

Definition asksBoundary (host : Host) (s : Struct) : bool :=
  negb (selectsSVG (default EmptyString (element s))) &&
  truthyOpt (shadow s) && stateTagged host s.

(** A description the amended C4 speaks of: every node is buildable, and a
    node that sets up a rendering boundary has no child. *)
Fixpoint ordinary (host : Host) (s : Struct) : bool :=
  buildable host s &&
  match children s with
  | Some l =>
      (negb (asksBoundary host s) || negb (nonEmpty l)) &&
      forallb (ordinary host) l
  | None => true
  end.

(** A node without what [attachShadow] writes into it. *)
Definition forgetShadow (n : Node) : Node :=
  mkNode (kind n) (nodeName n) (attributes n) (childNodes n) (listeners n)
         (textContent n) (innerHTML n) None.

(** The elements (not the shadow roots) among the nodes from index [b] on,
    in the order of their creation. *)
Definition isElementAt (ns : list Node) (i : nat) : bool :=
  match ns !! i with Some n => isElement n | None => false end.

Definition elementsFrom (b : nat) (ns : list Node) : list elem :=
  List.filter (isElementAt ns) (seq b (length ns - b)).

(** [shows host ns E k s]: in the document [ns], entry [k] of the list [E]
    is the element of the description [s] (its kind, its name and the
    attributes the description gives it); the entries that follow it in [E]
    are the elements of the nodes below [s], every node before its children
    and the children in the declared order; and the children of each of
    these elements are exactly the elements of the children described, in
    the declared order. *)
Inductive shows (host : Host) (ns : list Node) (E : list elem)
  : nat -> Struct -> Prop :=
  | shows_node k s i n :
      E !! k = Some i ->
      ns !! i = Some n ->
      kind n = kindOf s ->
      nodeName n = nameOf s ->
      attributes n = attributesOf host s ->
      Forall2 (fun c r => E !! r = Some c)
              (childNodes n) (childIds (S k) (childList s)) ->
      showsAll host ns E (S k) (childList s) ->
      shows host ns E k s
with showsAll (host : Host) (ns : list Node) (E : list elem)
  : nat -> list Struct -> Prop :=
  | showsAll_nil k : showsAll host ns E k []
  | showsAll_cons k c r :
      shows host ns E k c ->
      showsAll host ns E (k + size c) r ->
      showsAll host ns E k (c :: r).

(** Node [i] after [ids] were appended to the children of node [p]. *)
Definition appended (p : elem) (ids : list elem) (i : nat) (n : Node) : Node :=
  if decide (i = p) then setChildNodes (childNodes n ++ ids) n else n.

(** From [w] to [w'], the document only grew, and each of its first [b]
    nodes is as it was, apart from its shadow root and from the children
    [ids] appended to node [p]. *)
Definition keeps (b : nat) (p : elem) (ids : list elem) (w w' : World)
  : Prop :=
  length (nodes w) <= length (nodes w') /\
  forall i n, i < b -> nodes w !! i = Some n ->
    exists n', nodes w' !! i = Some n' /\
               forgetShadow n' = forgetShadow (appended p ids i n).

(** Under a node [p] (an element, for an [svg]), compiling the ordinary
    description [s] appends its element to the children of [p] and leaves
    the other nodes as they were; the elements created are those of the
    nodes of [s]. *)
Definition compilesOrdinarily (host : Host)
  (EventActions : string -> option handler) (s : Struct) : Prop :=
  forall p np cb w,
    ordinary host s = true -> nodes w !! p = Some np ->
    (kindOf s = SVGElement -> isElement np = true) ->
    let w' :=
      snd (createFromStruct_object host EventActions s (PNode p) cb w) in
    let E := elementsFrom (length (nodes w)) (nodes w') in
    keeps (length (nodes w)) p [length (nodes w)] w w' /\
    E !! 0 = Some (length (nodes w)) /\
    length E = size s /\
    shows host (nodes w') E 0 s.

(** What [createFromStruct] does before it turns to the children: the
    builder, then the content and the event on the node returned. *)
Definition beforeChildren (host : Host)
  (EventActions : string -> option handler) (struct : Struct)
  (parent : ParentArg) : JS (option elem) :=
  let* el :=
    TypeSelect host (toLowerCase (default EmptyString (element struct)))
      (mkBuildArgs (defaultParent parent) (shadow struct)
                   (elementData struct)) in
  when (truthyOpt (text struct))
       (assign_textContent el (default EmptyString (text struct))) >>
  when (truthyOpt (html struct))
       (assign_innerHTML el (default EmptyString (html struct))) >>
  createEventElement EventActions struct el >>
  ret el.

(** [agrees host EventActions k]: on a description of the store that reads
    as a tree within [k] levels and in which no array that [reverse()]
    changes is met twice, [createFromStruct_shared] completes, with the
    value and the world of [createFromStruct_object] on that tree, and
    leaves in the store the description that [createFromStruct_object]
    returns; it changes no other array. *)
Definition agrees (host : Host) (EventActions : string -> option handler)
  (k : nat) : Prop :=
  forall h o s parent cb w,
    treeOf k h o = Some s -> NoDup (turned k h o) ->
    exists s' r w' h',
      createFromStruct_object host EventActions s parent cb w =
        (Normal (s', r), w') /\
      createFromStruct_shared host EventActions k o parent cb h w =
        Some (Normal r, h', w') /\
      treeOf k h' o = Some s' /\
      (forall a, a ∉ turned k h o -> h' !! a = h !! a) /\
      (forall a, symmetric h' a = symmetric h a) /\
      arraysOf k h' o ≡ₚ arraysOf k h o.

(** ** UtilsApp: [toRem]

    [toRem(px, base = 16)] for a [px] that is a string or a number.  Numbers
    are the binary64 values of [SpecFloat]; how the engine prints a Number
    ([Number::toString]) is a parameter, of which only the printing of [NaN]
    is fixed.  A string is the sequence of its code units, all below 256.
    Nothing in the body can throw on such arguments, so that the [catch]
    and the final [return px] are never reached. *)

Definition Number := SpecFloat.spec_float.

(** The Number of an integer: the nearest binary64 value, ties to even;
    [negative] gives the sign of a zero. *)
Definition numberOf (negative : bool) (z : Z) : Number :=
  SpecFloat.binary_normalize 53 1024 (if negative then (- z)%Z else z) 0
    negative.

Definition divide (x y : Number) : Number := SpecFloat.SFdiv 53 1024 x y.

Definition multiply (x y : Number) : Number := SpecFloat.SFmul 53 1024 x y.

Record Engine := mkEngine {
  numberToString : Number -> string;
  numberToString_NaN : numberToString SpecFloat.S754_nan = "NaN" }.

Fixpoint startsWith (pattern s : string) : bool :=
  match pattern with
  | EmptyString => true
  | String a pattern' =>
      match s with
      | EmptyString => false
      | String b s' => Ascii.eqb a b && startsWith pattern' s'
      end
  end.

Fixpoint dropChars (n : nat) (s : string) : string :=
  match n, s with
  | S n', String _ s' => dropChars n' s'
  | _, _ => s
  end.

(** [s.replace(pattern, '')]: the first occurrence of [pattern] is taken
    out. *)
Fixpoint replaceFirst (pattern s : string) : string :=
  if startsWith pattern s then dropChars (String.length pattern) s
  else match s with
       | EmptyString => EmptyString
       | String c r => String c (replaceFirst pattern r)
       end.

(** White space and line terminators among the code units below 256. *)
Definition isWhiteSpace (c : ascii) : bool :=
  existsb (Nat.eqb (nat_of_ascii c)) [9; 10; 11; 12; 13; 32; 160].

Fixpoint trimStart (s : string) : string :=
  match s with
  | EmptyString => EmptyString
  | String c r => if isWhiteSpace c then trimStart r else s
  end.

Definition digitValue (c : ascii) : option Z :=
  let n := nat_of_ascii c in
  if (48 <=? n)%nat && (n <=? 57)%nat then Some (Z.of_nat (n - 48))
  else if (97 <=? n)%nat && (n <=? 122)%nat then Some (Z.of_nat (n - 87))
  else if (65 <=? n)%nat && (n <=? 90)%nat then Some (Z.of_nat (n - 55))
  else None.

Definition radixDigit (R : Z) (c : ascii) : option Z :=
  match digitValue c with
  | Some d => if (d <? R)%Z then Some d else None
  | None => None
  end.

(** The digits of [s] before its first code unit that is not a radix-[R]
    digit. *)
Fixpoint leadingDigits (R : Z) (s : string) : list Z :=
  match s with
  | EmptyString => []
  | String c r =>
      match radixDigit R c with
      | Some d => d :: leadingDigits R r
      | None => []
      end
  end.

Definition mathInt (R : Z) (digits : list Z) : Z :=
  fold_left (fun acc d => (acc * R + d)%Z) digits 0%Z.

(** [parseInt(inputString)], no radix given. *)
Definition parseInt (inputString : string) : Number :=
  let S := trimStart inputString in
  let negative :=
    match S with String c _ => Ascii.eqb c "-" | EmptyString => false end in
  let S :=
    match S with
    | String c r => if Ascii.eqb c "+" || Ascii.eqb c "-" then r else S
    | EmptyString => S
    end in
  let RS :=
    match S with
    | String c0 (String c1 r) =>
        if Ascii.eqb c0 "0" && (Ascii.eqb c1 "x" || Ascii.eqb c1 "X")
        then (16%Z, r) else (10%Z, S)
    | _ => (10%Z, S)
    end in
  match leadingDigits (fst RS) (snd RS) with
  | [] => SpecFloat.S754_nan
  | digits => numberOf negative (mathInt (fst RS) digits)
  end.

Inductive PxArg :=
  | PxString (s : string)
  | PxNumber (x : Number).

Definition toRem (engine : Engine) (px : PxArg) (base : option Number)
  : string :=
  let base := default (numberOf false 16) base in
  let tempPx :=
    match px with
    | PxString s => replaceFirst "px" s
    | PxNumber x => numberToString engine x
    end in
  let tempPx := parseInt tempPx in
  (numberToString engine (multiply (divide (numberOf false 1) base) tempPx)
   ++ "rem")%string.

(** Where the text after a number cannot be read as more of it. *)
Definition numberStops (s : string) : bool :=
  match s with
  | EmptyString => true
  | String c _ =>
      negb (isDigit c) && negb (Ascii.eqb c "x") && negb (Ascii.eqb c "X")
  end.

(** Where no number can start. *)
Definition noNumberAhead (s : string) : bool :=
  match s with
  | EmptyString => true
  | String c _ =>
      negb (isWhiteSpace c) && negb (Ascii.eqb c "+") &&
      negb (Ascii.eqb c "-") && negb (isDigit c)
  end.

(** * Properties *)

(** ** The two readings of the loop of [createChildren] agree *)

Section ChildrenLoop.

Variable createFromStruct :
  Struct -> ParentArg -> Callback -> JS (Struct * ReturnValue).

Lemma reversedLoop_snoc el cb i (u : list Struct) a w :
  (u <> [] \/ i <> 0) ->
  reversedLoop createFromStruct el cb i (u ++ [a]) w =
  (let* (a', _) := createFromStruct a (parentOf el) cb in
   let* (u', r) := reversedLoop createFromStruct el cb i u in
   ret (u' ++ [a'], r)) w.
Proof.
  revert i w. induction u as [|x u IH]; intros i w Hne.
  - destruct Hne as [Hne|Hne]; [congruence|].
    destruct i as [|i]; [congruence|].
    cbn. unfold bind, ret.
    destruct (createFromStruct a (parentOf el) cb w) as [[[a' ?]|] w1]; reflexivity.
  - cbn [app reversedLoop]. unfold bind at 1.
    rewrite IH by (right; lia).
    unfold bind, ret.
    destruct (createFromStruct a (parentOf el) cb w) as [[[a' ?]|] w1]; [|reflexivity].
    destruct (reversedLoop createFromStruct el cb (S i) u w1) as [[[u' ?]|] w2];
      [|reflexivity].
    destruct (createFromStruct x (parentOf el) cb w2) as [[[x' ?]|] w3];
      [|reflexivity].
    destruct (Nat.eqb i 0); [destruct (call_cb cb w3) as [[?|] ?]|]; reflexivity.
Qed.

Lemma reversedLoop_declaredLoop el cb (l : list Struct) w :
  reversedLoop createFromStruct el cb 0 (rev l) w =
  (let* (l', r) := declaredLoop createFromStruct el cb l in
   ret (rev l', r)) w.
Proof.
  revert w. induction l as [|a l IH]; intros w; [reflexivity|].
  destruct l as [|b l].
  - cbn. unfold bind, ret.
    destruct (createFromStruct a (parentOf el) cb w) as [[[a' ?]|] w1];
      [|reflexivity].
    destruct (call_cb cb w1) as [[?|] ?]; reflexivity.
  - change (rev (a :: b :: l)) with (rev (b :: l) ++ [a]).
    rewrite reversedLoop_snoc.
    2:{ left. intros H. apply (f_equal (@length _)) in H.
        rewrite length_rev in H. discriminate. }
    change (declaredLoop createFromStruct el cb (a :: b :: l)) with
      (let* (a', _) := createFromStruct a (parentOf el) cb in
       let* (rest', r) := declaredLoop createFromStruct el cb (b :: l) in
       ret (a' :: rest', r)).
    unfold bind.
    destruct (createFromStruct a (parentOf el) cb w) as [[[a' ?]|] w1];
      [|reflexivity].
    rewrite IH. unfold bind, ret.
    destruct (declaredLoop createFromStruct el cb (b :: l) w1) as [[[l' ?]|] w2];
      reflexivity.
Qed.

(** [createChildren], in the order of its iterations, computes what the loop
    over the reversed array computes. *)
Lemma createChildren_source_eq struct el cb w :
  createChildren_source createFromStruct struct el cb w =
  createChildren createFromStruct struct el cb w.
Proof.
  unfold createChildren_source, createChildren.
  destruct (children struct) as [array|]; [|reflexivity].
  unfold bind at 1. rewrite reversedLoop_declaredLoop. unfold bind, ret.
  destruct (declaredLoop createFromStruct el cb array w) as [[[l' ?]|] w1];
    reflexivity.
Qed.

End ChildrenLoop.

(** ** The argument of [createFromStruct] is not an object *)

(** C10: when the argument is not an object ([typeof] differs from
    ["object"]), [createFromStruct] returns [undefined] and changes nothing:
    the document, [ElementRefStore] and [ActionRefStore] are as before, the
    callback was not invoked and the argument is untouched. *)
Theorem createFromStruct_non_object host actions data cb w :
  String.eqb (typeof data) "object" = false ->
  createFromStruct host actions data cb w = (Normal (data, RUndefined), w).
Proof.
  intros H. unfold createFromStruct. rewrite H. reflexivity.
Qed.

Lemma createFromStruct_non_object_witness :
  String.eqb (typeof (AString "div")) "object" = false /\
  createFromStruct browser demoActions (AString "div") CbFunction initial =
  (Normal (AString "div", RUndefined), initial).
Proof.
  split; [reflexivity|].
  apply (createFromStruct_non_object browser demoActions (AString "div")).
  reflexivity.
Defined.

(** ** Reading [ElementRefStore] *)

Lemma getElement_falsy host w : getElement host EmptyString w = (Normal VUndefined, w).
Proof. reflexivity. Qed.

Lemma getElement_absent host key w :
  proto (ElementRefStore w) = None ->
  own (ElementRefStore w) !! key = None ->
  isObjectPrototypeKey key = false ->
  getElement host key w = (Normal VUndefined, w).
Proof.
  intros Hp Ho Hk. unfold getElement, try_catch, store_get, ret.
  destruct (truthy key); [|reflexivity].
  rewrite Ho, Hp. unfold fromObjectPrototype. rewrite Hk. reflexivity.
Qed.

(** C9: for a key under which nothing was added, [getElement] should give
    [undefined].  With the key ["constructor"] and a store to which nothing
    was ever added, it gives the property that the object literal inherits
    from [Object.prototype]. *)
Theorem getElement_inherited_key host :
  own (ElementRefStore initial) !! "constructor" = None /\
  getElement host "constructor" initial =
    (Normal (VInherited "constructor"), initial) /\
  fst (getElement host "constructor" initial) <> Normal VUndefined.
Proof.
  split; [reflexivity|]. split; [reflexivity|]. discriminate.
Qed.

(** ** The completion callback *)

(** C1: the callback should run once for a top-level call.  A description
    with a single child runs it twice (once when the child completes, once
    after the loop over the children), and a description whose [children] is
    an empty array never runs it. *)
Theorem createFromStruct_callback_count :
  callbacks (compile (withChildren "div" [leaf "span"]) CbFunction) = 2 /\
  callbacks (compile (withChildren "div" []) CbFunction) = 0.
Proof. split; vm_compute; reflexivity. Qed.

(** ** The description after the call *)

(** C2: the description should be left as it was.  After the call, the
    [children] array of a description with two children holds them in the
    opposite order. *)
Theorem createFromStruct_reverses_children :
  fst (createFromStruct browser demoActions
         (AData (Some (withChildren "div" [leaf "span"; leaf "p"])) PUndefined)
         CbUndefined initial) =
  Normal (AData (Some (withChildren "div" [leaf "p"; leaf "span"])) PUndefined,
          RUndefined).
Proof. vm_compute. reflexivity. Qed.

(** ** Removal by key *)

(** C6: [removeElement(key, 1)] should delete the mapping of [key].  When
    the element stored under ["x"] carries no [state] tag, the mapping of
    ["x"] is still there after the call (the element itself is detached). *)
Theorem removeElement_full_keeps_mapping :
  let w := snd (addElement browser "x" (Some 1)
                  (compile (leaf "div") CbUndefined)) in
  own (ElementRefStore w) !! "x" = Some 1 /\
  (childNodes <$> nodes w !! 0) = Some [1] /\
  own (ElementRefStore (snd (removeElement browser "x" 1 w))) !! "x" = Some 1 /\
  (childNodes <$> nodes (snd (removeElement browser "x" 1 w)) !! 0) = Some [].
Proof. vm_compute. repeat split; reflexivity. Qed.

(** ** Counterexamples to claims that are corrected below *)

(** C3, as stated, fails: the node built for [circle] is an [HTMLElement],
    and the [viewBox] attribute of the [svg] node was written by
    [setAttribute]. *)
Lemma svg_scenario_counterexample :
  let w := compile svgScenario CbUndefined in
  nodes w !! 2 = Some (freshNode HTMLElement "circle") /\
  (kind <$> nodes w !! 2) <> Some SVGElement /\
  (attributes <$> nodes w !! 1) =
    Some [mkAttr "viewBox" "0 0 10 10" ViaSetAttribute].
Proof.
  vm_compute. split; [reflexivity|]. split; [discriminate|reflexivity].
Qed.



(** C5, as stated, fails: a [state] tag whose value is the empty string
    registers nothing, and [getElement] of the empty string gives
    [undefined]. *)
Lemma empty_state_counterexample :
  let data := mkElementData (Some "div") [] [] [("state", EmptyString)] in
  fst (buildElement browser data initial) = Normal (Some 1) /\
  fst (getElement browser EmptyString (snd (buildElement browser data initial))) =
    Normal VUndefined /\
  fst (getElement browser EmptyString (snd (buildElement browser data initial))) <>
    Normal (VElement 1).
Proof.
  vm_compute. split; [reflexivity|]. split; [reflexivity|discriminate].
Qed.

(** ** Unfolding the monad *)

Ltac js :=
  repeat (progress
    (unfold bind, ret, throw, when, try_catch, getNode, putNode, allocNode,
       withNodes, withRefStore, withActions, withCallbacks;
     cbn [nodes ElementRefStore ActionRefStore callbacks fst snd])).

(** ** Records written back field by field *)

Lemma setListeners_same n : setListeners (listeners n) n = n.
Proof. destruct n; reflexivity. Qed.

Lemma setChildNodes_same n : setChildNodes (childNodes n) n = n.
Proof. destruct n; reflexivity. Qed.

Lemma withNodes_same w : withNodes (fun ns => ns) w = w.
Proof. destruct w; reflexivity. Qed.

Lemma world_eq w w' :
  nodes w = nodes w' ->
  ElementRefStore w = ElementRefStore w' ->
  ActionRefStore w = ActionRefStore w' ->
  callbacks w = callbacks w' ->
  w = w'.
Proof. destruct w, w'; simpl; intros; subst; reflexivity. Qed.

Lemma refStore_eq s s' : own s = own s' -> proto s = proto s' -> s = s'.
Proof. destruct s, s'; simpl; intros; subst; reflexivity. Qed.

(** ** [removeEventStore] twice *)

Section RemoveTwice.

Variable host : Host.

Lemma detachLoop_missing e i l w :
  nodes w !! e = None -> l <> [] ->
  detachLoop e i l w = (Throw, w).
Proof.
  intros He. revert i. induction l as [|x r IH]; intros i Hl; [congruence|].
  unfold detachLoop in *. cbn [fromLastAt]. unfold bind at 1.
  destruct r as [|y r].
  - cbn. unfold bind, removeEventListener, bind, getNode, ret. rewrite He.
    reflexivity.
  - rewrite IH by discriminate. reflexivity.
Qed.

Lemma detachLoop_present e i l w n :
  nodes w !! e = Some n ->
  detachLoop e i l w =
  (Normal tt,
   mkWorld (<[e := setListeners (strip l (listeners n)) n]> (nodes w))
           (ElementRefStore w)
           (if Nat.eqb i 0 && nonEmpty l
            then delete e (ActionRefStore w) else ActionRefStore w)
           (callbacks w)).
Proof.
  revert i w n. induction l as [|x r IH]; intros i w n He.
  - cbn. unfold ret. f_equal. rewrite andb_false_r.
    rewrite setListeners_same, list_insert_id by exact He.
    destruct w; reflexivity.
  - unfold detachLoop in *. cbn [fromLastAt]. unfold bind at 1.
    rewrite (IH (S i) w n He). cbn [Nat.eqb andb].
    unfold removeEventListener. js.
    rewrite list_lookup_insert_eq by (eapply lookup_lt_Some; exact He).
    js. rewrite list_insert_insert_eq.
    destruct n; cbn.
    destruct (Nat.eqb i 0); reflexivity.
Qed.

Lemma filter_absent (e : elem) (l : list elem) :
  e ∉ l -> filter (fun c => c ≠ e) l = l.
Proof.
  induction l as [|c l IH]; intros He; [reflexivity|].
  rewrite filter_cons_True by (intros ->; apply He; left).
  f_equal. apply IH. intros H. apply He. right. exact H.
Qed.

Lemma filter_gone (e : elem) (l : list elem) :
  e ∉ filter (fun c => c ≠ e) l.
Proof. intros H. apply list_elem_of_filter in H. destruct H as [H _]. congruence. Qed.

Lemma detach_none e (ns : list Node) :
  Forall (fun m => e ∉ childNodes m) ns -> detached e <$> ns = ns.
Proof.
  induction 1 as [|m ns Hm _ IH]; [reflexivity|].
  rewrite fmap_cons, IH. f_equal. unfold detached.
  rewrite filter_absent by exact Hm. apply setChildNodes_same.
Qed.

Lemma detach_all e (ns : list Node) :
  Forall (fun m => e ∉ childNodes m) (detached e <$> ns).
Proof.
  apply Forall_forall. intros m Hm. apply list_elem_of_fmap in Hm.
  destruct Hm as [m0 [-> _]]. apply filter_gone.
Qed.

Lemma removeFromDomStore_element e w :
  removeFromDomStore host (VElement e) w =
  match nodes w !! e with
  | Some n =>
      if isElement n then
        (Normal tt,
         mkWorld (detached e <$> nodes w)
                 (if truthyOpt (dataset_state n)
                  then mkRefStore
                         (delete (default EmptyString (dataset_state n))
                                 (own (ElementRefStore w)))
                         (proto (ElementRefStore w))
                  else ElementRefStore w)
                 (ActionRefStore w) (callbacks w))
      else (Normal tt, w)
  | None => (Normal tt, w)
  end.
Proof.
  unfold removeFromDomStore. js.
  destruct (nodes w !! e) as [n|] eqn:He; [|reflexivity].
  destruct (isElement n) eqn:Hn; [|reflexivity].
  unfold removeElementWith, element_remove, store_delete. js.
  destruct (dataset_state n) as [s|]; cbn [truthyOpt default]; unfold id.
  - destruct (truthy s) eqn:Hs.
    + unfold modeTypes. cbn [Z.leb Z.eqb Z.compare Pos.compare Pos.compare_cont
                              Pos.eqb andb].
      js. unfold store_delete. js. rewrite He, Hn. reflexivity.
    + js. rewrite He, Hn. reflexivity.
  - js. rewrite He, Hn. reflexivity.
Qed.

Lemma removeEventStore_element e w :
  removeEventStore host (VElement e) w =
  match nodes w !! e with
  | None => (Normal tt, w)
  | Some n =>
      removeFromDomStore host (VElement e)
        (match ActionRefStore w !! e with
         | Some l => snd (detachLoop e 0 l w)
         | None => w
         end)
  end.
Proof.
  unfold removeEventStore.
  change (fromLastAt _ 0) with (detachLoop e 0).
  assert (Hwhen : forall l w0,
             when (nonEmpty l) (detachLoop e 0 l) w0 = detachLoop e 0 l w0)
    by (intros [|x l] w0; reflexivity).
  unfold try_catch, bind.
  destruct (nodes w !! e) as [n|] eqn:He.
  - destruct (ActionRefStore w !! e) as [l|].
    + rewrite Hwhen, (detachLoop_present e 0 l w n He). cbn [snd].
      match goal with |- context [removeFromDomStore host ?v ?w0] =>
        destruct (removeFromDomStore host v w0) as [[[]|] w1] eqn:Hr end;
        [reflexivity|].
      rewrite removeFromDomStore_element in Hr.
      repeat match type of Hr with
             | context [match ?x with _ => _ end] => destruct x
             end; discriminate.
    + destruct (removeFromDomStore host (VElement e) w) as [[[]|] w1] eqn:Hr;
        [reflexivity|].
      rewrite removeFromDomStore_element in Hr.
      repeat match type of Hr with
             | context [match ?x with _ => _ end] => destruct x
             end; discriminate.
  - destruct (ActionRefStore w !! e) as [[|x l]|].
    + cbn. rewrite removeFromDomStore_element, He. reflexivity.
    + rewrite Hwhen, detachLoop_missing by (exact He || discriminate).
      reflexivity.
    + rewrite removeFromDomStore_element, He. reflexivity.
Qed.

Lemma removeEventStore_settled e w :
  settled e w -> removeEventStore host (VElement e) w = (Normal tt, w).
Proof.
  intros [Ha Hn]. rewrite removeEventStore_element.
  destruct (nodes w !! e) as [n|] eqn:He; [|reflexivity].
  assert (HA : match ActionRefStore w !! e with
               | Some l => snd (detachLoop e 0 l w)
               | None => w
               end = w).
  { destruct Ha as [-> | ->]; reflexivity. }
  rewrite HA, removeFromDomStore_element, He.
  destruct (isElement n); [|reflexivity].
  destruct (Hn eq_refl) as [Hs Hc]. f_equal.
  apply world_eq; cbn [nodes ElementRefStore ActionRefStore callbacks];
    try reflexivity.
  - apply detach_none, Hc.
  - destruct (truthyOpt (dataset_state n)); [|reflexivity].
    apply refStore_eq; cbn [own proto]; [|reflexivity].
    apply delete_id, Hs. reflexivity.
Qed.

Lemma dataset_state_detached e n :
  dataset_state (detached e n) = dataset_state n.
Proof. reflexivity. Qed.

Lemma removeEventStore_settles e w n :
  nodes w !! e = Some n ->
  settled e (snd (removeEventStore host (VElement e) w)).
Proof.
  intros He. rewrite removeEventStore_element, He.
  set (wA := match ActionRefStore w !! e with
             | Some l => snd (detachLoop e 0 l w)
             | None => w
             end).
  assert (HA : (ActionRefStore wA !! e = None \/ ActionRefStore wA !! e = Some [])
               /\ exists nA, nodes wA !! e = Some nA).
  { subst wA. destruct (ActionRefStore w !! e) as [l|] eqn:Hl.
    - rewrite (detachLoop_present e 0 l w n He).
      cbn [snd nodes ActionRefStore Nat.eqb andb]. split.
      + destruct l; cbn [nonEmpty].
        * right. exact Hl.
        * left. apply lookup_delete_eq.
      + eexists. apply list_lookup_insert_eq. eapply lookup_lt_Some, He.
    - split; [left; exact Hl | eauto]. }
  destruct HA as [Ha [nA HnA]].
  rewrite removeFromDomStore_element, HnA.
  destruct (isElement nA) eqn:Hel; cbn [snd].
  - split; [exact Ha|]. cbn [nodes ElementRefStore].
    rewrite list_lookup_fmap, HnA. cbn [fmap option_fmap option_map].
    intros _. rewrite dataset_state_detached. split.
    + intros ->. cbn [own]. apply lookup_delete_eq.
    + apply detach_all.
  - split; [exact Ha|]. rewrite HnA, Hel. discriminate.
Qed.

(** C7: calling [removeEventStore] a second time on the same value is a
    no-op: it completes normally (nothing is thrown) and the document,
    [ElementRefStore] and [ActionRefStore] are exactly as the first call
    left them. *)
Theorem removeEventStore_idempotent element w :
  removeEventStore host element (snd (removeEventStore host element w)) =
  (Normal tt, snd (removeEventStore host element w)).
Proof.
  destruct element as [|e|name]; [reflexivity| |reflexivity].
  destruct (nodes w !! e) as [n|] eqn:He.
  - apply removeEventStore_settled, (removeEventStore_settles e w n He).
  - assert (H : removeEventStore host (VElement e) w = (Normal tt, w))
      by (rewrite removeEventStore_element, He; reflexivity).
    rewrite H. exact H.
Qed.

(** *** Removal by key, where it does what is expected *)

(** Mode 2 deletes the mapping of the key and touches nothing else: the
    element stays where it is, with its listeners. *)
Lemma removeElement_reference_only key w :
  truthy key = true ->
  removeElement host key 2 w =
  (Normal tt,
   withRefStore (fun s => mkRefStore (delete key (own s)) (proto s)) w).
Proof.
  intros Hk. unfold removeElement, removeElementWith, try_catch.
  rewrite Hk. reflexivity.
Qed.

Lemma strip_elem x l ls :
  In x (strip l ls) ->
  In x ls /\
  Forall (fun item => sameListener (sc_type item) (sc_handler item) x = false) l.
Proof.
  induction l as [|item r IH]; cbn [strip foldr]; intros Hx.
  - split; [exact Hx|constructor].
  - apply filter_In in Hx as [Hx Hs]. destruct (IH Hx) as [Hin Hr].
    split; [exact Hin|]. constructor; [|exact Hr].
    apply negb_true_iff. exact Hs.
Qed.

Lemma strip_tracked l ls :
  (forall x, In x ls ->
     Exists (fun item =>
               sameListener (sc_type item) (sc_handler item) x = true) l) ->
  strip l ls = [].
Proof.
  intros H. destruct (strip l ls) as [|x r] eqn:E; [reflexivity|].
  assert (Hx : In x (strip l ls)) by (rewrite E; left; reflexivity).
  destruct (strip_elem x l ls Hx) as [Hin Hall].
  specialize (H x Hin). apply Exists_exists in H as (item & Hi & Hs).
  rewrite Forall_forall in Hall. rewrite (Hall item Hi) in Hs. discriminate.
Qed.

(** Mode 1, when the element stored under the key carries that key as its
    [state] tag and its listeners are those [ActionRefStore] knows: the
    listeners are taken off, the element leaves its parent and the mapping
    of the key is deleted. *)
Lemma removeElement_full_tagged key w e n :
  truthy key = true ->
  own (ElementRefStore w) !! key = Some e ->
  nodes w !! e = Some n ->
  isElement n = true ->
  dataset_state n = Some key ->
  (forall x, In x (listeners n) ->
     Exists (fun item =>
               sameListener (sc_type item) (sc_handler item) x = true)
            (default [] (ActionRefStore w !! e))) ->
  let w' := snd (removeElement host key 1 w) in
  own (ElementRefStore w') !! key = None /\
  (exists n', nodes w' !! e = Some n' /\ listeners n' = []) /\
  Forall (fun m => e ∉ childNodes m) (nodes w').
Proof.
  intros Hk Ho He Hel Hs Htr w'. subst w'.
  assert (Heq : removeElement host key 1 w =
                try_catch (removeEventStore host (VElement e)) (ret tt) w).
  { unfold removeElement, removeElementWith, try_catch. rewrite Hk.
    change (1 <=? 1)%Z with true. cbn [andb]. unfold modeTypes.
    change (1 =? 1)%Z with true. cbn beta iota. unfold bind, store_get.
    rewrite Ho. reflexivity. }
  rewrite Heq. unfold try_catch. rewrite removeEventStore_element, He.
  set (wA := match ActionRefStore w !! e with
             | Some l => snd (detachLoop e 0 l w)
             | None => w
             end).
  assert (HA : exists nA, nodes wA !! e = Some nA /\ listeners nA = [] /\
                 isElement nA = true /\ dataset_state nA = Some key /\
                 ElementRefStore wA = ElementRefStore w).
  { subst wA. destruct (ActionRefStore w !! e) as [l|] eqn:Hl.
    - rewrite (detachLoop_present e 0 l w n He). cbn [snd nodes ElementRefStore].
      eexists. split; [apply list_lookup_insert_eq; eapply lookup_lt_Some, He|].
      cbn. split; [|auto]. apply strip_tracked. exact Htr.
    - exists n. split; [exact He|]. split; [|auto].
      cbn in Htr. destruct (listeners n) as [|x r]; [reflexivity|].
      specialize (Htr x (or_introl eq_refl)). inversion Htr. }
  destruct HA as (nA & HnA & HlA & HelA & HsA & HrA).
  rewrite removeFromDomStore_element, HnA, HelA, HsA.
  cbn [truthyOpt default]. unfold id. rewrite Hk. cbn [snd nodes ElementRefStore own].
  split; [apply lookup_delete_eq|]. split; [|apply detach_all].
  rewrite list_lookup_fmap, HnA. eexists. split; [reflexivity|]. exact HlA.
Qed.

End RemoveTwice.

(** ** Loops and attribute writes *)

Lemma fromLastAt_inv_on {A} (P : A -> Prop) (R : World -> World -> Prop)
  (body : nat -> A -> JS unit) :
  (forall w, R w w) ->
  (forall w1 w2 w3, R w1 w2 -> R w2 w3 -> R w1 w3) ->
  (forall i x w, P x -> exists w', body i x w = (Normal tt, w') /\ R w w') ->
  forall l i w, Forall P l ->
    exists w', fromLastAt body i l w = (Normal tt, w') /\ R w w'.
Proof.
  intros Hrefl Htrans Hbody. induction l as [|x r IH]; intros i w Hl.
  - exists w. split; [reflexivity|apply Hrefl].
  - apply Forall_cons in Hl as [Hx Hr].
    destruct (IH (S i) w Hr) as [w1 [E1 R1]].
    destruct (Hbody i x w1 Hx) as [w2 [E2 R2]].
    exists w2. split; [|eapply Htrans; eassumption].
    cbn [fromLastAt]. unfold bind. rewrite E1. exact E2.
Qed.

Lemma fromLastAt_inv {A} (R : World -> World -> Prop)
  (body : nat -> A -> JS unit) :
  (forall w, R w w) ->
  (forall w1 w2 w3, R w1 w2 -> R w2 w3 -> R w1 w3) ->
  (forall i x w, exists w', body i x w = (Normal tt, w') /\ R w w') ->
  forall l i w, exists w', fromLastAt body i l w = (Normal tt, w') /\ R w w'.
Proof.
  intros Hrefl Htrans Hbody l i w.
  apply (fromLastAt_inv_on (fun _ => True) R body Hrefl Htrans); [auto|].
  apply Forall_forall. auto.
Qed.

Lemma setAttributes_same n : setAttributes (attributes n) n = n.
Proof. destruct n; reflexivity. Qed.

Lemma setAttributes_twice l l' n :
  setAttributes l' (setAttributes l n) = setAttributes l' n.
Proof. reflexivity. Qed.

Lemma attrsOnly_refl e w : attrsOnly e w w.
Proof.
  repeat split; try reflexivity.
  intros n Hn. exists (attributes n). rewrite setAttributes_same. exact Hn.
Qed.

Lemma attrsOnly_trans e w1 w2 w3 :
  attrsOnly e w1 w2 -> attrsOnly e w2 w3 -> attrsOnly e w1 w3.
Proof.
  intros (L1 & O1 & E1 & A1 & C1) (L2 & O2 & E2 & A2 & C2).
  repeat split; try congruence.
  - intros i Hi. rewrite O2, O1 by exact Hi. reflexivity.
  - intros n Hn. destruct (E1 n Hn) as [l Hl].
    destruct (E2 _ Hl) as [l' Hl']. exists l'. exact Hl'.
Qed.

Lemma attrsOnly_put e w n l :
  nodes w !! e = Some n ->
  attrsOnly e w (withNodes (fun ns => <[e := setAttributes l n]> ns) w).
Proof.
  intros He. repeat split; cbn [withNodes nodes ActionRefStore callbacks].
  - apply length_insert.
  - intros i Hi. apply list_lookup_insert_ne. congruence.
  - intros n' Hn'. exists l. rewrite He in Hn'. injection Hn' as <-.
    apply list_lookup_insert_eq. eapply lookup_lt_Some, He.
Qed.

Lemma attrsOnly_refStore e w f : attrsOnly e w (withRefStore f w).
Proof.
  repeat split; try reflexivity.
  intros n Hn. exists (attributes n). rewrite setAttributes_same. exact Hn.
Qed.

Section Builders.

Variable host : Host.

Lemma keepsStore_refl e w : keepsStore e w w.
Proof. split; [apply attrsOnly_refl|reflexivity]. Qed.

Lemma keepsStore_trans e w1 w2 w3 :
  keepsStore e w1 w2 -> keepsStore e w2 w3 -> keepsStore e w1 w3.
Proof.
  intros [A1 S1] [A2 S2]. split; [eapply attrsOnly_trans; eassumption|congruence].
Qed.

Lemma setAttr_item e (item : string * string) w :
  exists w',
    try_catch
      (when (truthy (fst item))
            (setAttribute host e (fst item) (snd item)))
      (ret tt) w = (Normal tt, w') /\ keepsStore e w w'.
Proof.
  unfold setAttribute. js.
  destruct (truthy (fst item)); [|eexists; split; [reflexivity|apply keepsStore_refl]].
  destruct (nodes w !! e) as [n|] eqn:He;
    [|eexists; split; [reflexivity|apply keepsStore_refl]].
  destruct (isElement n && validAttributeName host (fst item));
    [|eexists; split; [reflexivity|apply keepsStore_refl]].
  eexists; split; [reflexivity|].
  split; [|reflexivity]. apply (attrsOnly_put e w n _ He).
Qed.

Lemma setAttrNS_item e (item : string * string) w :
  exists w',
    try_catch
      (when (truthy (fst item))
            (setAttributeNS_null host e (fst item) (snd item)))
      (ret tt) w = (Normal tt, w') /\ keepsStore e w w'.
Proof.
  unfold setAttributeNS_null. js.
  destruct (truthy (fst item)); [|eexists; split; [reflexivity|apply keepsStore_refl]].
  destruct (nodes w !! e) as [n|] eqn:He;
    [|eexists; split; [reflexivity|apply keepsStore_refl]].
  destruct (isElement n && validAttributeNameNS host (fst item));
    [|eexists; split; [reflexivity|apply keepsStore_refl]].
  eexists; split; [reflexivity|].
  split; [|reflexivity]. apply (attrsOnly_put e w n _ He).
Qed.

Lemma setAttr_spec e l w :
  exists w', setAttr host e l w = (Normal tt, w') /\ keepsStore e w w'.
Proof.
  unfold setAttr, fromLast.
  apply (fromLastAt_inv (keepsStore e)).
  - apply keepsStore_refl.
  - apply keepsStore_trans.
  - intros _ x w0. apply setAttr_item.
Qed.

Lemma setAttrNS_spec e l w :
  exists w', setAttrNS host e l w = (Normal tt, w') /\ keepsStore e w w'.
Proof.
  unfold setAttrNS, fromLast.
  apply (fromLastAt_inv (keepsStore e)).
  - apply keepsStore_refl.
  - apply keepsStore_trans.
  - intros _ x w0. apply setAttrNS_item.
Qed.

Lemma addElement_spec key e w :
  exists w',
    addElement host key (Some e) w = (Normal tt, w') /\
    (w' = w \/ exists f, w' = withRefStore f w).
Proof.
  unfold addElement, store_set, try_catch, when, ret.
  destruct (truthy key); [|eauto].
  destruct (own (ElementRefStore w) !! key); [eauto 6|].
  destruct (String.eqb key "__proto__"); [eauto 6|].
  destruct (proto (ElementRefStore w)); [|eauto 6].
  destruct (memberOf host w n key); eauto 6.
Qed.

Lemma setData_item_attrs e item w :
  exists w', setData_item host e item w = (Normal tt, w') /\ attrsOnly e w w'.
Proof.
  unfold setData_item, dataset_set. js.
  destruct (truthy (fst item)); [|eexists; split; [reflexivity|apply attrsOnly_refl]].
  destruct (nodes w !! e) as [n|] eqn:He;
    [|eexists; split; [reflexivity|apply attrsOnly_refl]].
  destruct (isElement n && negb (hyphenLower (fst item))
            && validAttributeName host (dataAttributeName (fst item)));
    [|eexists; split; [reflexivity|apply attrsOnly_refl]].
  destruct (String.eqb (fst item) "state").
  - match goal with |- context [addElement host ?k ?v ?w0] =>
      destruct (addElement_spec k e w0) as [w' [E Hw']] end.
    rewrite E. eexists; split; [reflexivity|].
    destruct Hw' as [-> | [f ->]].
    + apply (attrsOnly_put e w n _ He).
    + eapply attrsOnly_trans; [|apply attrsOnly_refStore].
      apply (attrsOnly_put e w n _ He).
  - eexists; split; [reflexivity|]. apply (attrsOnly_put e w n _ He).
Qed.

Lemma setData_item_other e item w :
  String.eqb (fst item) "state" = false ->
  exists w', setData_item host e item w = (Normal tt, w') /\ keepsStore e w w'.
Proof.
  intros Hs. unfold setData_item, dataset_set. rewrite Hs. js.
  destruct (truthy (fst item)); [|eexists; split; [reflexivity|apply keepsStore_refl]].
  destruct (nodes w !! e) as [n|] eqn:He;
    [|eexists; split; [reflexivity|apply keepsStore_refl]].
  destruct (isElement n && negb (hyphenLower (fst item))
            && validAttributeName host (dataAttributeName (fst item)));
    [|eexists; split; [reflexivity|apply keepsStore_refl]].
  eexists; split; [reflexivity|].
  split; [|reflexivity]. apply (attrsOnly_put e w n _ He).
Qed.

Lemma getElement_registered key e w :
  registered key e (ElementRefStore w) -> truthy key = true ->
  getElement host key w = (Normal (VElement e), w).
Proof.
  intros Hr Hk. unfold getElement, store_get. js. rewrite Hk.
  destruct Hr as [-> | (-> & -> & ->)]; reflexivity.
Qed.

Lemma setData_item_state e K w n :
  nodes w !! e = Some n -> isElement n = true ->
  proto (ElementRefStore w) = None -> truthy K = true ->
  exists w',
    setData_item host e ("state", K) w = (Normal tt, w') /\
    registered K e (ElementRefStore w') /\ attrsOnly e w w'.
Proof.
  intros He Hn Hp HK.
  destruct (setData_item_attrs e ("state", K) w) as [w' [E Ha]].
  exists w'. split; [exact E|]. split; [|exact Ha].
  revert E. unfold setData_item, dataset_set, addElement, store_set.
  cbn [fst snd]. js. cbn [truthy String.eqb Ascii.eqb Bool.eqb].
  rewrite He, Hn.
  change (dataAttributeName "state") with "data-state".
  rewrite (data_state_accepted host).
  change (hyphenLower "state") with false. cbn [negb andb]. js.
  rewrite HK. cbn beta iota. js. rewrite Hp.
  unfold registered.
  destruct (own (ElementRefStore w) !! K) eqn:Ho.
  - intros [= <-]. left. cbn. apply lookup_insert_eq.
  - destruct (String.eqb K "__proto__") eqn:HKp.
    + intros [= <-]. right. cbn. auto.
    + intros [= <-]. left. cbn. apply lookup_insert_eq.
Qed.

Lemma setData_registers e l : forall i w n K,
  nodes w !! e = Some n -> isElement n = true ->
  proto (ElementRefStore w) = None ->
  NoDup (map fst l) -> In ("state", K) l -> truthy K = true ->
  exists w',
    fromLastAt (fun _ => setData_item host e) i l w = (Normal tt, w') /\
    registered K e (ElementRefStore w') /\ attrsOnly e w w'.
Proof.
  induction l as [|x r IH]; intros i w n K He Hn Hp Hnd Hin HK;
    [destruct Hin|].
  cbn [map] in Hnd. apply NoDup_cons in Hnd as [Hx Hnd].
  cbn [fromLastAt]. unfold bind.
  destruct Hin as [-> | Hin].
  - cbn [fst] in Hx.
    assert (Hr : Forall (fun y => String.eqb (fst y) "state" = false) r).
    { apply Forall_forall. intros y Hy.
      destruct (String.eqb (fst y) "state") eqn:Hys; [|reflexivity].
      apply String.eqb_eq in Hys. exfalso. apply Hx. rewrite <- Hys.
      apply list_elem_of_fmap. exists y. split; [reflexivity|exact Hy]. }
    destruct (fromLastAt_inv_on _ (keepsStore e) (fun _ => setData_item host e)
                (keepsStore_refl e) (keepsStore_trans e)
                (fun _ y w0 Hy => setData_item_other e y w0 Hy) r (S i) w Hr)
      as [w1 [E1 [A1 S1]]].
    rewrite E1.
    destruct (proj1 (proj2 (proj2 A1)) n He) as [l0 Hl0].
    destruct (setData_item_state e K w1 (setAttributes l0 n) Hl0 Hn
                ltac:(congruence) HK) as [w2 [E2 [R2 A2]]].
    exists w2. split; [exact E2|]. split; [exact R2|].
    eapply attrsOnly_trans; eassumption.
  - destruct (IH (S i) w n K He Hn Hp Hnd Hin HK) as [w1 [E1 [R1 A1]]].
    rewrite E1.
    assert (Hxs : String.eqb (fst x) "state" = false).
    { destruct (String.eqb (fst x) "state") eqn:Hxs; [|reflexivity].
      apply String.eqb_eq in Hxs. exfalso. apply Hx. rewrite Hxs.
      apply list_elem_of_fmap. exists ("state", K).
      split; [reflexivity|]. apply list_elem_of_In. exact Hin. }
    destruct (setData_item_other e x w1 Hxs) as [w2 [E2 [A2 S2]]].
    exists w2. split; [exact E2|]. split.
    + rewrite S2. exact R1.
    + eapply attrsOnly_trans; eassumption.
Qed.

Lemma setData_spec e l w :
  exists w', setData host e l w = (Normal tt, w') /\ attrsOnly e w w'.
Proof.
  unfold setData, fromLast.
  apply (fromLastAt_inv (attrsOnly e) (fun _ => setData_item host e)).
  - apply attrsOnly_refl.
  - apply attrsOnly_trans.
  - intros _ x w0. apply setData_item_attrs.
Qed.

Lemma allocated_lookup n w :
  nodes (allocated n w) !! length (nodes w) = Some n.
Proof.
  cbn. rewrite lookup_app_r by lia. rewrite Nat.sub_diag. reflexivity.
Qed.

Lemma createElement_valid name w :
  validElementName host name = true ->
  createElement host name w =
  (Normal (length (nodes w)),
   allocated (freshNode HTMLElement (toLowerCase name)) w).
Proof. intros H. unfold createElement. rewrite H. reflexivity. Qed.

Lemma createElementNS_svg_valid name w :
  validQualifiedName host name = true ->
  createElementNS_svg host name w =
  (Normal (length (nodes w)), allocated (freshNode SVGElement name) w).
Proof. intros H. unfold createElementNS_svg. rewrite H. reflexivity. Qed.

Lemma decorate_spec withNS data e w :
  exists w', decorate host withNS data e w = (Normal (Some e), w') /\
             attrsOnly e w w'.
Proof.
  unfold decorate, bind, when.
  assert (H1 : exists w1,
             (if nonEmpty (d_attr data)
              then setAttr host e (d_attr data) else ret tt) w = (Normal tt, w1)
             /\ attrsOnly e w w1).
  { destruct (nonEmpty (d_attr data)).
    - destruct (setAttr_spec e (d_attr data) w) as [w1 [E [A _]]]. eauto.
    - exists w. split; [reflexivity|apply attrsOnly_refl]. }
  destruct H1 as [w1 [E1 A1]]. rewrite E1.
  assert (H2 : exists w2,
             (if withNS
              then if nonEmpty (d_attrNS data)
                   then setAttrNS host e (d_attrNS data) else ret tt
              else ret tt) w1 = (Normal tt, w2) /\ attrsOnly e w1 w2).
  { destruct withNS, (nonEmpty (d_attrNS data));
      try (exists w1; split; [reflexivity|apply attrsOnly_refl]).
    destruct (setAttrNS_spec e (d_attrNS data) w1) as [w2 [E [A _]]]. eauto. }
  destruct H2 as [w2 [E2 A2]]. rewrite E2.
  assert (H3 : exists w3,
             (if nonEmpty (d_dataset data)
              then setData host e (d_dataset data) else ret tt) w2
             = (Normal tt, w3) /\ attrsOnly e w2 w3).
  { destruct (nonEmpty (d_dataset data)).
    - apply setData_spec.
    - exists w2. split; [reflexivity|apply attrsOnly_refl]. }
  destruct H3 as [w3 [E3 A3]]. rewrite E3.
  exists w3. split; [reflexivity|].
  eapply attrsOnly_trans; [|exact A3].
  eapply attrsOnly_trans; eassumption.
Qed.

Lemma decorate_registers withNS data e w n K :
  nodes w !! e = Some n -> isElement n = true ->
  proto (ElementRefStore w) = None ->
  NoDup (map fst (d_dataset data)) -> In ("state", K) (d_dataset data) ->
  truthy K = true ->
  exists w', decorate host withNS data e w = (Normal (Some e), w') /\
             registered K e (ElementRefStore w').
Proof.
  intros He Hn Hp Hnd Hin HK. unfold decorate, bind, when.
  assert (H1 : exists w1,
             (if nonEmpty (d_attr data)
              then setAttr host e (d_attr data) else ret tt) w = (Normal tt, w1)
             /\ keepsStore e w w1).
  { destruct (nonEmpty (d_attr data)).
    - apply setAttr_spec.
    - exists w. split; [reflexivity|apply keepsStore_refl]. }
  destruct H1 as [w1 [E1 K1]]. rewrite E1.
  assert (H2 : exists w2,
             (if withNS
              then if nonEmpty (d_attrNS data)
                   then setAttrNS host e (d_attrNS data) else ret tt
              else ret tt) w1 = (Normal tt, w2) /\ keepsStore e w1 w2).
  { destruct withNS, (nonEmpty (d_attrNS data));
      try (exists w1; split; [reflexivity|apply keepsStore_refl]).
    apply setAttrNS_spec. }
  destruct H2 as [w2 [E2 K2]]. rewrite E2.
  destruct (keepsStore_trans e w w1 w2 K1 K2) as [A S].
  destruct (proj1 (proj2 (proj2 A)) n He) as [l0 Hl0].
  destruct (d_dataset data) as [|x r] eqn:Hd; [destruct Hin|].
  cbn [nonEmpty]. unfold setData, fromLast.
  destruct (setData_registers e (x :: r) 0 w2 (setAttributes l0 n) K Hl0 Hn
              ltac:(congruence) Hnd Hin HK) as [w3 [E3 [R3 _]]].
  unfold setData_item in E3. rewrite E3.
  exists w3. split; [reflexivity|exact R3].
Qed.

(** The attributes written are those of the entry-by-entry reading. *)
Lemma fromLastAt_exact {A} (e : elem) (body : nat -> A -> JS unit)
  (f : NodeKind -> A -> list Attr -> list Attr) :
  (forall i x w n, nodes w !! e = Some n -> isElement n = true ->
     exists w', body i x w = (Normal tt, w') /\
       nodes w' !! e = Some (setAttributes (f (kind n) x (attributes n)) n)) ->
  forall l i w n, nodes w !! e = Some n -> isElement n = true ->
    exists w', fromLastAt body i l w = (Normal tt, w') /\
      nodes w' !! e =
        Some (setAttributes (foldr (f (kind n)) (attributes n) l) n).
Proof.
  intros Hbody. induction l as [|x r IH]; intros i w n He Hn.
  - exists w. split; [reflexivity|]. cbn. rewrite setAttributes_same. exact He.
  - destruct (IH (S i) w n He Hn) as [w1 [E1 N1]].
    destruct (Hbody i x w1 _ N1 Hn) as [w2 [E2 N2]].
    exists w2. split; [cbn [fromLastAt]; unfold bind; rewrite E1; exact E2|].
    exact N2.
Qed.

Lemma setAttr_exact e l w n :
  nodes w !! e = Some n -> isElement n = true ->
  exists w', setAttr host e l w = (Normal tt, w') /\
    nodes w' !! e =
      Some (setAttributes (foldr (writeAttr host (kind n)) (attributes n) l) n).
Proof.
  unfold setAttr, fromLast.
  apply (fromLastAt_exact e _ (writeAttr host)). clear.
  intros _ item w n He Hn. unfold writeAttr, setAttribute. js.
  destruct (truthy (fst item)); cbn [andb];
    [|exists w; split; [reflexivity|rewrite setAttributes_same; exact He]].
  rewrite He, Hn. cbn [andb].
  destruct (validAttributeName host (fst item));
    [|exists w; split; [reflexivity|rewrite setAttributes_same; exact He]].
  eexists. split; [reflexivity|]. cbn.
  apply list_lookup_insert_eq. eapply lookup_lt_Some, He.
Qed.

Lemma setAttrNS_exact e l w n :
  nodes w !! e = Some n -> isElement n = true ->
  exists w', setAttrNS host e l w = (Normal tt, w') /\
    nodes w' !! e =
      Some (setAttributes (foldr (writeAttrNS host) (attributes n) l) n).
Proof.
  unfold setAttrNS, fromLast.
  apply (fromLastAt_exact e _ (fun _ => writeAttrNS host)). clear.
  intros _ item w n He Hn. unfold writeAttrNS, setAttributeNS_null. js.
  destruct (truthy (fst item)); cbn [andb];
    [|exists w; split; [reflexivity|rewrite setAttributes_same; exact He]].
  rewrite He, Hn. cbn [andb].
  destruct (validAttributeNameNS host (fst item));
    [|exists w; split; [reflexivity|rewrite setAttributes_same; exact He]].
  eexists. split; [reflexivity|]. cbn.
  apply list_lookup_insert_eq. eapply lookup_lt_Some, He.
Qed.

Lemma addElement_nodes key e w :
  nodes (snd (addElement host key (Some e) w)) = nodes w.
Proof.
  destruct (addElement_spec key e w) as [w' [E [-> | [f ->]]]];
    rewrite E; reflexivity.
Qed.

Lemma setData_exact e l w n :
  nodes w !! e = Some n -> isElement n = true ->
  exists w', setData host e l w = (Normal tt, w') /\
    nodes w' !! e =
      Some (setAttributes (foldr (writeData host) (attributes n) l) n).
Proof.
  unfold setData, fromLast.
  apply (fromLastAt_exact e _ (fun _ => writeData host)). clear.
  intros _ item w n He Hn.
  destruct (setData_item_attrs e item w) as [w' [E _]].
  unfold setData_item in E. exists w'. split; [exact E|].
  revert E. unfold writeData, dataset_set. js.
  destruct (truthy (fst item)); cbn [andb];
    [|intros [= <-]; rewrite setAttributes_same; exact He].
  rewrite He, Hn. cbn [andb].
  destruct (negb (hyphenLower (fst item))
            && validAttributeName host (dataAttributeName (fst item)));
    [|intros [= <-]; rewrite setAttributes_same; exact He].
  destruct (String.eqb (fst item) "state").
  - match goal with |- context [addElement host ?k ?v ?w0] =>
      pose proof (addElement_nodes k e w0) as Hnodes;
      destruct (addElement host k v w0) as [[[]|] w1] end;
      cbn [snd] in Hnodes; intros [= <-]; rewrite Hnodes; cbn;
      apply list_lookup_insert_eq; eapply lookup_lt_Some, He.
  - intros [= <-]. cbn. apply list_lookup_insert_eq. eapply lookup_lt_Some, He.
Qed.

Lemma decorate_exact withNS data e w n :
  nodes w !! e = Some n -> isElement n = true ->
  exists w', decorate host withNS data e w = (Normal (Some e), w') /\
    nodes w' !! e =
      Some (setAttributes (decorated host withNS (kind n) data (attributes n)) n).
Proof.
  intros He Hn. unfold decorate, decorated, bind, when.
  assert (H1 : exists w1,
             (if nonEmpty (d_attr data)
              then setAttr host e (d_attr data) else ret tt) w = (Normal tt, w1)
             /\ nodes w1 !! e =
                Some (setAttributes
                        (foldr (writeAttr host (kind n)) (attributes n)
                               (d_attr data)) n)).
  { destruct (d_attr data) as [|x r] eqn:Hd; cbn [nonEmpty].
    - exists w. split; [reflexivity|]. cbn. rewrite setAttributes_same. exact He.
    - apply setAttr_exact; assumption. }
  destruct H1 as [w1 [E1 N1]]. rewrite E1.
  set (n1 := setAttributes _ n) in N1.
  assert (H2 : exists w2,
             (if withNS
              then if nonEmpty (d_attrNS data)
                   then setAttrNS host e (d_attrNS data) else ret tt
              else ret tt) w1 = (Normal tt, w2)
             /\ nodes w2 !! e =
                Some (setAttributes
                        (if withNS
                         then foldr (writeAttrNS host) (attributes n1)
                                    (d_attrNS data)
                         else attributes n1) n)).
  { destruct withNS.
    - destruct (d_attrNS data) as [|x r] eqn:Hd; cbn [nonEmpty].
      + exists w1. split; [reflexivity|]. exact N1.
      + destruct (setAttrNS_exact e (x :: r) w1 n1 N1 Hn) as [w2 [E2 N2]].
        exists w2. split; [exact E2|]. exact N2.
    - exists w1. split; [reflexivity|]. exact N1. }
  destruct H2 as [w2 [E2 N2]]. rewrite E2.
  set (n2 := setAttributes _ n) in N2.
  assert (H3 : exists w3,
             (if nonEmpty (d_dataset data)
              then setData host e (d_dataset data) else ret tt) w2
             = (Normal tt, w3)
             /\ nodes w3 !! e =
                Some (setAttributes
                        (foldr (writeData host) (attributes n2)
                               (d_dataset data)) n)).
  { destruct (d_dataset data) as [|x r] eqn:Hd; cbn [nonEmpty].
    - exists w2. split; [reflexivity|]. exact N2.
    - destruct (setData_exact e (x :: r) w2 n2 N2 Hn) as [w3 [E3 N3]].
      exists w3. split; [exact E3|]. exact N3. }
  destruct H3 as [w3 [E3 N3]]. rewrite E3.
  exists w3. split; [reflexivity|]. rewrite N3. subst n2 n1.
  destruct withNS; reflexivity.
Qed.

Lemma buildElement_unfold data w :
  buildElement host data w =
  try_catch (let* element := createElement host (typeName data) in
             decorate host false data element) (ret None) w.
Proof. reflexivity. Qed.

Lemma createElementNS_unfold data w :
  createElementNS host data w =
  try_catch (let* element := createElementNS_svg host (typeName data) in
             decorate host true data element) (ret None) w.
Proof. reflexivity. Qed.

Lemma buildElement_invalid data w :
  validElementName host (typeName data) = false ->
  buildElement host data w = (Normal None, w).
Proof.
  intros H. rewrite buildElement_unfold. unfold createElement. rewrite H.
  reflexivity.
Qed.

Lemma createElementNS_invalid data w :
  validQualifiedName host (typeName data) = false ->
  createElementNS host data w = (Normal None, w).
Proof.
  intros H. rewrite createElementNS_unfold. unfold createElementNS_svg.
  rewrite H. reflexivity.
Qed.

Lemma buildElement_valid data w :
  validElementName host (typeName data) = true ->
  exists w',
    buildElement host data w = (Normal (Some (length (nodes w))), w') /\
    attrsOnly (length (nodes w))
      (allocated (freshNode HTMLElement (toLowerCase (typeName data))) w) w' /\
    nodes w' !! length (nodes w) =
      Some (setAttributes (decorated host false HTMLElement data [])
              (freshNode HTMLElement (toLowerCase (typeName data)))).
Proof.
  intros H. rewrite buildElement_unfold. unfold try_catch, bind.
  rewrite (createElement_valid _ _ H).
  set (w0 := allocated _ w).
  destruct (decorate_spec false data (length (nodes w)) w0) as [w' [E A]].
  destruct (decorate_exact false data (length (nodes w)) w0 _
              (allocated_lookup _ w) eq_refl) as [w'' [E' N]].
  rewrite E in E'. injection E' as <-. rewrite E. eauto.
Qed.

Lemma createElementNS_valid data w :
  validQualifiedName host (typeName data) = true ->
  exists w',
    createElementNS host data w = (Normal (Some (length (nodes w))), w') /\
    attrsOnly (length (nodes w))
      (allocated (freshNode SVGElement (typeName data)) w) w' /\
    nodes w' !! length (nodes w) =
      Some (setAttributes (decorated host true SVGElement data [])
              (freshNode SVGElement (typeName data))).
Proof.
  intros H. rewrite createElementNS_unfold. unfold try_catch, bind.
  rewrite (createElementNS_svg_valid _ _ H).
  set (w0 := allocated _ w).
  destruct (decorate_spec true data (length (nodes w)) w0) as [w' [E A]].
  destruct (decorate_exact true data (length (nodes w)) w0 _
              (allocated_lookup _ w) eq_refl) as [w'' [E' N]].
  rewrite E in E'. injection E' as <-. rewrite E. eauto.
Qed.

(** C5 (amended): when a node carries a [state] tag with a non-empty value
    [K], and [ElementRefStore] still has the prototype it was created with,
    then right after the node is built (by [buildElement] or by
    [createElementNS]) [getElement(K)] returns exactly the element built. *)
Theorem state_tag_registered data w e w' K :
  buildElement host data w = (Normal (Some e), w') \/
  createElementNS host data w = (Normal (Some e), w') ->
  In ("state", K) (d_dataset data) ->
  NoDup (map fst (d_dataset data)) ->
  truthy K = true ->
  proto (ElementRefStore w) = None ->
  getElement host K w' = (Normal (VElement e), w').
Proof.
  intros Hb Hin Hnd HK Hp.
  apply getElement_registered; [|exact HK].
  destruct Hb as [Hb|Hb].
  - rewrite buildElement_unfold in Hb. unfold try_catch, bind in Hb.
    destruct (validElementName host (typeName data)) eqn:Hv.
    + rewrite (createElement_valid _ _ Hv) in Hb.
      destruct (decorate_registers false data (length (nodes w))
                  (allocated (freshNode HTMLElement
                                (toLowerCase (typeName data))) w)
                  _ K (allocated_lookup _ w) eq_refl Hp Hnd Hin HK)
        as [w1 [E R]].
      rewrite E in Hb. injection Hb as <- <-. exact R.
    + unfold createElement in Hb. rewrite Hv in Hb. discriminate.
  - rewrite createElementNS_unfold in Hb. unfold try_catch, bind in Hb.
    destruct (validQualifiedName host (typeName data)) eqn:Hv.
    + rewrite (createElementNS_svg_valid _ _ Hv) in Hb.
      destruct (decorate_registers true data (length (nodes w))
                  (allocated (freshNode SVGElement (typeName data)) w)
                  _ K (allocated_lookup _ w) eq_refl Hp Hnd Hin HK)
        as [w1 [E R]].
      rewrite E in Hb. injection Hb as <- <-. exact R.
    + unfold createElementNS_svg in Hb. rewrite Hv in Hb. discriminate.
Qed.

End Builders.

(** ** What a call leaves untouched *)

Lemma preserved_refl b w : preserved b w w.
Proof.
  split; [lia|]. split; [|reflexivity].
  intros i n _ Hn. exists n. repeat split; try assumption. reflexivity.
Qed.

Lemma preserved_trans b w1 w2 w3 :
  preserved b w1 w2 -> preserved b w2 w3 -> preserved b w1 w3.
Proof.
  intros (L1 & N1 & A1) (L2 & N2 & A2). split; [lia|]. split.
  - intros i n Hi Hn.
    destruct (N1 i n Hi Hn) as (n' & Hn' & K1 & M1 & S1 & P1).
    destruct (N2 i n' Hi Hn') as (n'' & Hn'' & K2 & M2 & S2 & P2).
    exists n''. repeat split; try congruence. etrans; eassumption.
  - intros i Hi. rewrite A2, A1 by exact Hi. reflexivity.
Qed.

Lemma preserved_le b b' w w' : b' <= b -> preserved b w w' -> preserved b' w w'.
Proof.
  intros Hb (L & N & A). split; [exact L|]. split.
  - intros i n Hi. apply N. lia.
  - intros i Hi. apply A. lia.
Qed.

Lemma attrsOnly_preserved e b w w' : attrsOnly e w w' -> preserved b w w'.
Proof.
  intros (L & O & E & A & _). split; [lia|]. split; [|intros; congruence].
  intros i n _ Hn. destruct (decide (i = e)) as [->|Hne].
  - destruct (E n Hn) as [l Hl]. eexists. split; [exact Hl|].
    repeat split; reflexivity.
  - exists n. rewrite O by exact Hne. repeat split; try assumption. reflexivity.
Qed.

Lemma allocated_preserved n b w : preserved b w (allocated n w).
Proof.
  split; [cbn; rewrite length_app; lia|]. split; [|reflexivity].
  intros i m _ Hm. exists m. cbn.
  rewrite lookup_app_l by (eapply lookup_lt_Some, Hm).
  repeat split; try assumption. reflexivity.
Qed.

(** A node is replaced by one that differs by fields [preserved] does not
    watch, or by more children. *)
Lemma put_preserved e n n' b w :
  nodes w !! e = Some n ->
  kind n' = kind n -> nodeName n' = nodeName n ->
  listeners n' = listeners n -> childNodes n `prefix_of` childNodes n' ->
  preserved b w (withNodes (fun ns => <[e := n']> ns) w).
Proof.
  intros He Hk Hm Hl Hc. split; [cbn; rewrite length_insert; lia|].
  split; [|reflexivity].
  intros i m _ Hi. cbn. destruct (decide (i = e)) as [->|Hne].
  - exists n'. rewrite list_lookup_insert_eq by (eapply lookup_lt_Some, He).
    rewrite He in Hi. injection Hi as <-. repeat split; assumption.
  - exists m. rewrite list_lookup_insert_ne by congruence.
    repeat split; try assumption. reflexivity.
Qed.

Lemma refStore_preserved f b w : preserved b w (withRefStore f w).
Proof.
  split; [reflexivity|]. split; [|reflexivity].
  intros i n _ Hn. exists n. repeat split; try assumption. reflexivity.
Qed.

Lemma callbacks_preserved f b w : preserved b w (withCallbacks f w).
Proof.
  split; [reflexivity|]. split; [|reflexivity].
  intros i n _ Hn. exists n. repeat split; try assumption. reflexivity.
Qed.

Lemma frames_ret {A} b (a : A) (Q : A -> Prop) : Q a -> frames b (ret a) Q.
Proof. intros H w _. split; [apply preserved_refl|exact H]. Qed.

Lemma frames_throw {A} b (Q : A -> Prop) : frames b throw Q.
Proof. intros w _. split; [apply preserved_refl|exact I]. Qed.

Lemma frames_bind {A B} b (m : JS A) (k : A -> JS B) Q R :
  frames b m Q -> (forall a, Q a -> frames b (k a) R) ->
  frames b (bind m k) R.
Proof.
  intros Hm Hk w Hw. unfold bind. destruct (Hm w Hw) as [P1 Q1].
  destruct (m w) as [[a|] w1]; cbn [fst snd] in *.
  - destruct (Hk a Q1 w1) as [P2 Q2]; [destruct P1; lia|].
    split; [eapply preserved_trans; eassumption|exact Q2].
  - split; [exact P1|exact I].
Qed.

Lemma frames_try {A} b (m h : JS A) Q :
  frames b m Q -> frames b h Q -> frames b (try_catch m h) Q.
Proof.
  intros Hm Hh w Hw. unfold try_catch. destruct (Hm w Hw) as [P1 Q1].
  destruct (m w) as [[a|] w1]; cbn [fst snd] in *.
  - split; assumption.
  - destruct (Hh w1) as [P2 Q2]; [destruct P1; lia|].
    split; [eapply preserved_trans; eassumption|exact Q2].
Qed.

Lemma frames_weaken {A} b (m : JS A) (Q R : A -> Prop) :
  frames b m Q -> (forall a, Q a -> R a) -> frames b m R.
Proof.
  intros Hm HQ w Hw. destruct (Hm w Hw) as [P1 Q1]. split; [exact P1|].
  destruct (fst (m w)); [apply HQ, Q1|exact I].
Qed.

Lemma frames_when b (c : bool) (m : JS unit) Q :
  frames b m Q -> Q tt -> frames b (when c m) Q.
Proof. intros Hm HQ. destruct c; [exact Hm|apply frames_ret, HQ]. Qed.

Lemma frames_fromLastAt {A} b (body : nat -> A -> JS unit) :
  (forall i x, frames b (body i x) (fun _ => True)) ->
  forall l i, frames b (fromLastAt body i l) (fun _ => True).
Proof.
  intros Hb. induction l as [|x r IH]; intros i; cbn [fromLastAt].
  - apply frames_ret. exact I.
  - eapply frames_bind; [apply IH|]. intros _ _. apply Hb.
Qed.

Lemma frames_total {A} b (m : JS A) (Q : A -> Prop) :
  (forall w, exists a w', m w = (Normal a, w') /\ preserved b w w' /\ Q a) ->
  frames b m Q.
Proof.
  intros H w _. destruct (H w) as (a & w' & E & P & HQ). rewrite E.
  split; assumption.
Qed.

(** Induction on a description, with the property in hand for every child. *)
Lemma Struct_ind (P : Struct -> Prop) :
  (forall s, (forall l, children s = Some l -> Forall P l) -> P s) ->
  forall s, P s.
Proof.
  intros H.
  assert (H' : forall s,
             match children s with
             | Some l => Forall P l
             | None => True
             end -> P s).
  { intros s Hs. apply H. intros l Hl. rewrite Hl in Hs. exact Hs. }
  clear H. fix IH 1. intros s. apply H'.
  destruct s as [? ? ? ? ? ? ? ch ?]. cbn [children].
  destruct ch as [l|]; [|exact I].
  revert l. fix go 1. intros [|c r]; constructor; [apply IH|apply go].
Qed.

Section Frames.

Variable host : Host.
Variable EventActions : string -> option handler.

Lemma frames_getNode b e : frames b (getNode e) (fun _ => True).
Proof.
  intros w _. unfold getNode. destruct (nodes w !! e);
    (split; [apply preserved_refl|exact I]).
Qed.

Lemma frames_decorate b withNS data e :
  frames b (decorate host withNS data e) (fun r => r = Some e).
Proof.
  apply frames_total. intros w.
  destruct (decorate_spec host withNS data e w) as [w' [E A]].
  exists (Some e), w'. split; [exact E|].
  split; [eapply attrsOnly_preserved, A|reflexivity].
Qed.

Lemma frames_alloc b n : frames b (allocNode n) (fun e => b <= e).
Proof.
  intros w Hw. split; [apply (allocated_preserved n b w)|exact Hw].
Qed.

Lemma frames_createElement b name :
  frames b (createElement host name) (fun e => b <= e).
Proof.
  unfold createElement. destruct (validElementName host name);
    [apply frames_alloc|apply frames_throw].
Qed.

Lemma frames_createElementNS_svg b name :
  frames b (createElementNS_svg host name) (fun e => b <= e).
Proof.
  unfold createElementNS_svg. destruct (validQualifiedName host name);
    [apply frames_alloc|apply frames_throw].
Qed.

Lemma frames_buildElement b data :
  frames b (buildElement host data) (freshResult b).
Proof.
  unfold buildElement. apply frames_try.
  - eapply frames_bind; [apply frames_createElement|].
    intros e He. eapply frames_weaken; [apply (frames_decorate b false data e)|].
    intros r -> e' [= <-]. exact He.
  - apply frames_ret. intros e. discriminate.
Qed.

Lemma frames_createElementNS b data :
  frames b (createElementNS host data) (freshResult b).
Proof.
  unfold createElementNS. apply frames_try.
  - eapply frames_bind; [apply frames_createElementNS_svg|].
    intros e He. eapply frames_weaken; [apply (frames_decorate b true data e)|].
    intros r -> e' [= <-]. exact He.
  - apply frames_ret. intros e. discriminate.
Qed.

Lemma frames_appendChild b p c :
  frames b (appendChild p c) (fun _ => True).
Proof.
  destruct c as [c|]; [|apply frames_throw].
  intros w _. unfold appendChild, bind, getNode, putNode.
  destruct (nodes w !! p) as [n|] eqn:Hp; cbn [fst snd];
    [|split; [apply preserved_refl|exact I]].
  split; [|exact I].
  apply (put_preserved p n); try reflexivity; [exact Hp|].
  cbn. apply prefix_app_r. reflexivity.
Qed.

Lemma getElement_world key w : snd (getElement host key w) = w.
Proof.
  unfold getElement, try_catch, store_get, ret.
  destruct (truthy key); [|reflexivity].
  destruct (own (ElementRefStore w) !! key); [reflexivity|].
  destruct (proto (ElementRefStore w)); [|reflexivity].
  destruct (String.eqb key "__proto__"); [reflexivity|].
  destruct (memberOf host w n key); reflexivity.
Qed.

Lemma frames_getElement b key :
  frames b (getElement host key) (fun _ => True).
Proof.
  intros w _. rewrite getElement_world.
  split; [apply preserved_refl|]. destruct (fst _); exact I.
Qed.

Lemma frames_attachShadow b e mode :
  frames b (attachShadow host e mode) (fun s => b <= s).
Proof.
  intros w Hw. unfold attachShadow, bind, getNode, putNode, allocNode, ret.
  destruct (nodes w !! e) as [n|] eqn:He; cbn [fst snd];
    [|split; [apply preserved_refl|exact I]].
  destruct (_ && _); cbn [fst snd];
    [|split; [apply preserved_refl|exact I]].
  split; [|exact Hw].
  eapply preserved_trans;
    [apply (allocated_preserved (freshNode ShadowRoot mode) b w)|].
  apply (put_preserved e n); try reflexivity.
  cbn. apply lookup_app_l_Some. exact He.
Qed.

Lemma frames_assign_textContent b el s :
  frames b (assign_textContent el s) (fun _ => True).
Proof.
  destruct el as [e|]; [|apply frames_throw].
  intros w _. unfold assign_textContent, bind, getNode, putNode.
  destruct (nodes w !! e) as [n|] eqn:He; cbn [fst snd];
    [|split; [apply preserved_refl|exact I]].
  split; [|exact I]. apply (put_preserved e n); reflexivity || exact He.
Qed.

Lemma frames_assign_innerHTML b el s :
  frames b (assign_innerHTML el s) (fun _ => True).
Proof.
  destruct el as [e|]; [|apply frames_throw].
  intros w _. unfold assign_innerHTML, bind, getNode, putNode.
  destruct (nodes w !! e) as [n|] eqn:He; cbn [fst snd];
    [|split; [apply preserved_refl|exact I]].
  split; [|exact I]. apply (put_preserved e n); reflexivity || exact He.
Qed.

Lemma frames_call_cb b cb : frames b (call_cb cb) (fun _ => True).
Proof.
  destruct cb; [apply frames_ret; exact I|].
  intros w _. split; [apply callbacks_preserved|exact I].
Qed.

Lemma frames_createHTMLElement b data :
  frames b (createHTMLElement host data) (freshResult b).
Proof.
  unfold createHTMLElement. apply frames_try;
    [|apply frames_ret; intros e; discriminate].
  eapply frames_bind; [apply frames_buildElement|].
  intros childElement Hc.
  eapply frames_bind with (Q := fun _ => True).
  - destruct (b_parent data) as [| |p|d]; try apply frames_appendChild.
    eapply frames_bind; [apply frames_buildElement|].
    intros [pe|] _; [apply frames_appendChild|apply frames_throw].
  - intros _ _. destruct (truthyOpt (b_shadow data));
      [|apply frames_ret; exact Hc].
    destruct childElement as [c|]; [|apply frames_throw].
    eapply frames_bind; [apply frames_getNode|]. intros n _.
    destruct (truthyOpt (dataset_state n)); [|apply frames_ret; exact Hc].
    eapply frames_bind; [apply frames_getElement|]. intros v _.
    destruct v as [|e|name]; try apply frames_throw.
    eapply frames_bind; [apply frames_attachShadow|].
    intros sr Hs. apply frames_ret. intros e' [= <-]. exact Hs.
Qed.

Lemma frames_createSVGElement b data :
  frames b (createSVGElement host data) (freshResult b).
Proof.
  unfold createSVGElement. apply frames_try;
    [|apply frames_ret; intros e; discriminate].
  eapply frames_bind; [apply frames_createElementNS|].
  intros childElement Hc.
  eapply frames_bind with (Q := fun _ => True);
    [|intros _ _; apply frames_ret; exact Hc].
  destruct (b_parent data) as [| |p|d]; try (apply frames_ret; exact I).
  - eapply frames_bind; [apply frames_getNode|]. intros n _.
    destruct (isElement n); [apply frames_appendChild|].
    eapply frames_bind; [apply frames_createElementNS|].
    intros [pe|] _; [apply frames_appendChild|apply frames_throw].
  - eapply frames_bind; [apply frames_createElementNS|].
    intros [pe|] _; [apply frames_appendChild|apply frames_throw].
Qed.

Lemma frames_TypeSelect b type data :
  frames b (TypeSelect host type data) (freshResult b).
Proof.
  unfold TypeSelect. destruct (truthy type && String.eqb type "svg");
    [apply frames_createSVGElement|apply frames_createHTMLElement].
Qed.

Lemma put_preserved_above e n' b w :
  b <= e -> preserved b w (withNodes (fun ns => <[e := n']> ns) w).
Proof.
  intros He. split; [cbn; rewrite length_insert; lia|].
  split; [|reflexivity].
  intros i m Hi Hm. exists m. cbn.
  rewrite list_lookup_insert_ne by lia.
  repeat split; try assumption. reflexivity.
Qed.

Lemma actions_preserved_above e f b w :
  b <= e ->
  (forall m i, i <> e -> f m !! i = m !! i) ->
  preserved b w (withActions f w).
Proof.
  intros He Hf. split; [reflexivity|]. split.
  - intros i n _ Hn. exists n. repeat split; try assumption. reflexivity.
  - intros i Hi. cbn. apply Hf. lia.
Qed.

Lemma frames_registerEventStore b el type h nodeId :
  freshResult b el ->
  frames b (registerEventStore el type h nodeId) (fun _ => True).
Proof.
  intros Hel. unfold registerEventStore.
  apply frames_try; [|apply frames_ret; exact I].
  destruct el as [e|]; [|apply frames_ret; exact I].
  specialize (Hel e eq_refl).
  apply frames_when; [|exact I].
  eapply frames_bind with (Q := fun _ => True).
  { intros w _. split; [apply preserved_refl|exact I]. }
  intros present _.
  eapply frames_bind with (Q := fun _ => True).
  { apply frames_when; [|exact I]. intros w _. split; [|exact I].
    apply (actions_preserved_above e); [exact Hel|].
    intros m i Hi. apply lookup_insert_ne. congruence. }
  intros _ _.
  eapply frames_bind with (Q := fun _ => True).
  { intros w _. unfold pushAction.
    destruct (ActionRefStore w !! e); cbn [fst snd];
      [|split; [apply preserved_refl|exact I]].
    split; [|exact I].
    apply (actions_preserved_above e); [exact Hel|].
    intros m i Hi. apply lookup_insert_ne. congruence. }
  intros _ _. intros w _. unfold addEventListener, bind, getNode, putNode, ret.
  destruct (nodes w !! e) as [n|]; cbn [fst snd];
    [|split; [apply preserved_refl|exact I]].
  destruct (existsb _ _); cbn [fst snd];
    [split; [apply preserved_refl|exact I]|].
  split; [|exact I]. apply put_preserved_above, Hel.
Qed.

Lemma frames_createEventElement b struct el :
  freshResult b el ->
  frames b (createEventElement EventActions struct el) (fun _ => True).
Proof.
  intros Hel. unfold createEventElement.
  destruct (event struct) as [ev|]; [|apply frames_ret; exact I].
  destruct (_ && _); [|apply frames_ret; exact I].
  destruct (EventActions _); [|apply frames_ret; exact I].
  apply frames_registerEventStore, Hel.
Qed.

Section Recursion.

Variable rec : Struct -> ParentArg -> Callback -> JS (Struct * ReturnValue).

Lemma frames_declaredLoop b el cb l :
  Forall (fun c => forall parent cb,
              frames b (rec c parent cb) (fun _ => True)) l ->
  frames b (declaredLoop rec el cb l) (fun _ => True).
Proof.
  induction 1 as [|c r Hc Hr IH]; cbn [declaredLoop].
  - apply frames_ret. exact I.
  - eapply frames_bind; [apply Hc|]. intros [c' ?] _.
    destruct r as [|d r].
    + eapply frames_bind; [apply frames_call_cb|].
      intros ? _. apply frames_ret. exact I.
    + eapply frames_bind; [apply IH|].
      intros [r' ?] _. apply frames_ret. exact I.
Qed.

Lemma frames_createChildren b struct el cb :
  (forall l, children struct = Some l ->
     Forall (fun c => forall parent cb,
                 frames b (rec c parent cb) (fun _ => True)) l) ->
  frames b (createChildren rec struct el cb) (fun _ => True).
Proof.
  intros H. unfold createChildren.
  destruct (children struct) as [l|].
  - eapply frames_bind; [apply frames_declaredLoop, H; reflexivity|].
    intros [l' ?] _. apply frames_ret. exact I.
  - eapply frames_bind; [apply frames_call_cb|].
    intros ? _. apply frames_ret. exact I.
Qed.

End Recursion.

Lemma createFromStruct_object_unfold struct parent cb :
  createFromStruct_object host EventActions struct parent cb =
  try_catch
    (if truthyOpt (element struct) then
       let* el :=
         TypeSelect host (toLowerCase (default EmptyString (element struct)))
           (mkBuildArgs (defaultParent parent) (shadow struct)
                        (elementData struct)) in
       when (truthyOpt (text struct))
            (assign_textContent el (default EmptyString (text struct))) >>
       when (truthyOpt (html struct))
            (assign_innerHTML el (default EmptyString (html struct))) >>
       createEventElement EventActions struct el >>
       createChildren (createFromStruct_object host EventActions) struct el cb
     else ret (struct, RUndefined))
    (ret (struct, RUndefined)).
Proof. destruct struct; reflexivity. Qed.

(** The same, with the loop over the children as the source writes it. *)
Lemma createFromStruct_object_source struct parent cb w :
  createFromStruct_object host EventActions struct parent cb w =
  try_catch
    (if truthyOpt (element struct) then
       let* el :=
         TypeSelect host (toLowerCase (default EmptyString (element struct)))
           (mkBuildArgs (defaultParent parent) (shadow struct)
                        (elementData struct)) in
       when (truthyOpt (text struct))
            (assign_textContent el (default EmptyString (text struct))) >>
       when (truthyOpt (html struct))
            (assign_innerHTML el (default EmptyString (html struct))) >>
       createEventElement EventActions struct el >>
       createChildren_source (createFromStruct_object host EventActions)
                             struct el cb
     else ret (struct, RUndefined))
    (ret (struct, RUndefined)) w.
Proof.
  rewrite createFromStruct_object_unfold. unfold try_catch.
  destruct (truthyOpt (element struct)); [|reflexivity].
  unfold bind.
  destruct (TypeSelect host _ _ w) as [[el|] w1]; [|reflexivity].
  destruct (when (truthyOpt (text struct)) _ w1) as [[[]|] w2]; [|reflexivity].
  destruct (when (truthyOpt (html struct)) _ w2) as [[[]|] w3]; [|reflexivity].
  destruct (createEventElement EventActions struct el w3) as [[[]|] w4];
    [|reflexivity].
  rewrite createChildren_source_eq. reflexivity.
Qed.

(** Whatever the description, a call does not disturb the nodes that were
    in the document before it. *)
Lemma frames_createFromStruct_object b struct :
  forall parent cb,
    frames b (createFromStruct_object host EventActions struct parent cb)
           (fun _ => True).
Proof.
  induction struct as [struct IH] using Struct_ind. intros parent cb.
  rewrite createFromStruct_object_unfold.
  apply frames_try; [|apply frames_ret; exact I].
  destruct (truthyOpt (element struct)); [|apply frames_ret; exact I].
  eapply frames_bind; [apply frames_TypeSelect|]. intros el Hel.
  eapply frames_bind with (Q := fun _ => True).
  { apply frames_when; [apply frames_assign_textContent|exact I]. }
  intros _ _.
  eapply frames_bind with (Q := fun _ => True).
  { apply frames_when; [apply frames_assign_innerHTML|exact I]. }
  intros _ _.
  eapply frames_bind; [apply frames_createEventElement, Hel|].
  intros _ _. apply frames_createChildren. exact IH.
Qed.

(** No error escapes [createFromStruct_object]. *)
Lemma createFromStruct_object_normal struct parent cb w :
  exists s' r,
    fst (createFromStruct_object host EventActions struct parent cb w) =
    Normal (s', r).
Proof.
  rewrite createFromStruct_object_unfold. unfold try_catch.
  match goal with |- context [let (_, _) := ?m w in _] =>
    destruct (m w) as [[[s' r]|] w1] end; eauto.
Qed.

(** ** Building and attaching one node *)

Lemma appendChild_built k name la p np w w1 :
  nodes w !! p = Some np ->
  attrsOnly (length (nodes w)) (allocated (freshNode k name) w) w1 ->
  nodes w1 !! length (nodes w) = Some (setAttributes la (freshNode k name)) ->
  exists w2,
    appendChild p (Some (length (nodes w))) w1 = (Normal tt, w2) /\
    built k name la p np w w2.
Proof.
  intros Hp (L & O & E & A & C) Hl.
  assert (Hlt : p < length (nodes w)) by (eapply lookup_lt_Some, Hp).
  assert (Hp1 : nodes w1 !! p = Some np).
  { rewrite O by lia. cbn. apply lookup_app_l_Some, Hp. }
  unfold appendChild, bind, getNode, putNode. rewrite Hp1.
  eexists. split; [reflexivity|].
  assert (Hlen : length (nodes w1) = S (length (nodes w))).
  { rewrite L. cbn. rewrite length_app. cbn. lia. }
  repeat split; cbn [withNodes nodes ActionRefStore callbacks].
  - rewrite length_insert. exact Hlen.
  - intros i Hi Hne. rewrite list_lookup_insert_ne by congruence.
    rewrite O by lia. cbn. apply lookup_app_l. exact Hi.
  - apply list_lookup_insert_eq. lia.
  - rewrite list_lookup_insert_ne by lia. exact Hl.
  - exact A.
  - exact C.
Qed.

Lemma frames_boundary b b' shadow childElement :
  b <= b' -> freshResult b childElement ->
  frames b' (boundary host shadow childElement) (freshResult b).
Proof.
  intros Hb Hc. unfold boundary.
  destruct (truthyOpt shadow); [|apply frames_ret; exact Hc].
  destruct childElement as [c|]; [|apply frames_throw].
  eapply frames_bind; [apply frames_getNode|]. intros n _.
  destruct (truthyOpt (dataset_state n)); [|apply frames_ret; exact Hc].
  eapply frames_bind; [apply frames_getElement|]. intros v _.
  destruct v as [|e|name]; try apply frames_throw.
  eapply frames_bind; [apply frames_attachShadow|].
  intros sr Hs. cbn beta in Hs. apply frames_ret. intros e' [= <-]. lia.
Qed.

Lemma createHTMLElement_node p shadow data w :
  createHTMLElement host (mkBuildArgs (PNode p) shadow data) w =
  try_catch
    (let* childElement := buildElement host data in
     appendChild p childElement >> boundary host shadow childElement)
    (ret None) w.
Proof. reflexivity. Qed.

Lemma createSVGElement_node p shadow data w :
  createSVGElement host (mkBuildArgs (PNode p) shadow data) w =
  try_catch
    (let* childElement := createElementNS host data in
     (let* n := getNode p in
      if isElement n then appendChild p childElement
      else
        let* parentElement := createElementNS host noData in
        match parentElement with
        | Some pe => appendChild pe childElement
        | None => throw
        end) >>
     ret childElement)
    (ret None) w.
Proof. reflexivity. Qed.

(** The builder that [TypeSelect] picks builds the node and appends it to
    its parent; a rendering boundary, if any, comes after that. *)
Lemma TypeSelect_attaches struct p np w :
  buildable host struct = true ->
  nodes w !! p = Some np ->
  (kindOf struct = SVGElement -> isElement np = true) ->
  exists r w2 w3,
    TypeSelect host (toLowerCase (default EmptyString (element struct)))
      (mkBuildArgs (PNode p) (shadow struct) (elementData struct)) w =
    (Normal r, w3) /\
    built (kindOf struct) (nameOf struct) (attributesOf host struct) p np
          w w2 /\
    preserved (length (nodes w2)) w2 w3 /\
    freshResult (length (nodes w)) r /\
    (truthyOpt (shadow struct) = false \/ kindOf struct = SVGElement ->
     r = Some (length (nodes w)) /\ w3 = w2).
Proof.
  unfold buildable, attributesOf, kindOf, nameOf, TypeSelect.
  fold (elementData struct).
  destruct (element struct) as [name|] eqn:Hel; [|discriminate].
  cbn [default]. unfold id.
  change (truthy (toLowerCase name) && String.eqb (toLowerCase name) "svg")
    with (selectsSVG name).
  intros Hb Hp Hsvg. apply andb_prop in Hb as [Hname Hvalid].
  destruct (selectsSVG name) eqn:Hsel.
  - rewrite createSVGElement_node. unfold try_catch, bind.
    destruct (createElementNS_valid host (elementData struct) w)
      as (w1 & E1 & A1 & X1).
    { unfold typeName, elementData. cbn. rewrite Hel. exact Hvalid. }
    rewrite E1.
    assert (Hp1 : nodes w1 !! p = Some np).
    { destruct A1 as (_ & O & _). rewrite O.
      - cbn. apply lookup_app_l_Some, Hp.
      - apply lookup_lt_Some in Hp. lia. }
    unfold getNode at 1. rewrite Hp1, (Hsvg eq_refl).
    assert (Htn : typeName (elementData struct) = name)
      by (unfold typeName, elementData; cbn; rewrite Hel; reflexivity).
    rewrite Htn in A1, X1.
    destruct (appendChild_built SVGElement name _ p np w w1 Hp A1 X1)
      as [w2 [E2 B2]].
    rewrite E2. exists (Some (length (nodes w))), w2, w2.
    split; [reflexivity|]. split; [exact B2|].
    split; [apply preserved_refl|]. split; [intros e [= <-]; lia|].
    intros _. split; reflexivity.
  - rewrite createHTMLElement_node. unfold try_catch, bind.
    destruct (buildElement_valid host (elementData struct) w)
      as (w1 & E1 & A1 & X1).
    { unfold typeName, elementData. cbn. rewrite Hel. exact Hvalid. }
    rewrite E1.
    assert (Htn : typeName (elementData struct) = name)
      by (unfold typeName, elementData; cbn; rewrite Hel; reflexivity).
    rewrite Htn in A1, X1.
    destruct (appendChild_built HTMLElement (toLowerCase name) _ p np w w1
                Hp A1 X1) as [w2 [E2 B2]].
    rewrite E2.
    assert (Hlen : length (nodes w) <= length (nodes w2))
      by (destruct B2 as [-> _]; lia).
    destruct (frames_boundary (length (nodes w)) (length (nodes w2))
                (shadow struct) (Some (length (nodes w))) Hlen
                ltac:(intros e [= <-]; lia) w2 (le_n _)) as [P3 Q3].
    destruct (boundary host (shadow struct) (Some (length (nodes w))) w2)
      as [[r|] w3] eqn:E3; cbn [fst snd] in *.
    + exists r, w2, w3. split; [reflexivity|]. split; [exact B2|].
      split; [exact P3|]. split; [exact Q3|].
      intros [Hsh|Hk]; [|discriminate].
      unfold boundary in E3. rewrite Hsh in E3. injection E3 as <- <-.
      split; reflexivity.
    + exists None, w2, w3. split; [reflexivity|]. split; [exact B2|].
      split; [exact P3|]. split; [intros e; discriminate|].
      intros [Hsh|Hk]; [|discriminate].
      unfold boundary in E3. rewrite Hsh in E3. discriminate.
Qed.

Lemma createFromStruct_object_built struct parent cb w r w3 :
  truthyOpt (element struct) = true ->
  TypeSelect host (toLowerCase (default EmptyString (element struct)))
    (mkBuildArgs (defaultParent parent) (shadow struct) (elementData struct))
    w = (Normal r, w3) ->
  createFromStruct_object host EventActions struct parent cb w =
  try_catch (afterBuild host EventActions struct r cb) (ret (struct, RUndefined)) w3.
Proof.
  intros Hel HT. rewrite createFromStruct_object_unfold.
  unfold try_catch at 1. rewrite Hel. unfold bind at 1. rewrite HT.
  reflexivity.
Qed.

Lemma buildable_truthy struct :
  buildable host struct = true -> truthyOpt (element struct) = true.
Proof.
  unfold buildable, truthyOpt. destruct (element struct); [|discriminate].
  intros H. apply andb_prop in H as [H _]. exact H.
Qed.

Lemma createEventElement_unresolved struct ev el w :
  event struct = Some ev ->
  EventActions (default EmptyString (ev_action ev)) = None ->
  createEventElement EventActions struct el w = (Normal tt, w).
Proof.
  intros Hev Hact. unfold createEventElement. rewrite Hev, Hact.
  destruct (_ && _); reflexivity.
Qed.

Lemma frames_afterBuild_unresolved b struct ev el cb :
  event struct = Some ev ->
  EventActions (default EmptyString (ev_action ev)) = None ->
  frames b (afterBuild host EventActions struct el cb) (fun _ => True).
Proof.
  intros Hev Hact. unfold afterBuild.
  eapply frames_bind with (Q := fun _ => True).
  { apply frames_when; [apply frames_assign_textContent|exact I]. }
  intros _ _.
  eapply frames_bind with (Q := fun _ => True).
  { apply frames_when; [apply frames_assign_innerHTML|exact I]. }
  intros _ _.
  eapply frames_bind with (Q := fun _ => True).
  { intros w _. rewrite (createEventElement_unresolved _ ev) by assumption.
    split; [apply preserved_refl|exact I]. }
  intros _ _. apply frames_createChildren.
  intros l _. apply Forall_forall. intros c _ parent cb'.
  apply frames_createFromStruct_object.
Qed.

End Frames.

(** ** The tree built for a plain description *)

Lemma size_eq s : size s = S (sizes (childList s)).
Proof.
  destruct s as [? ? ? ? ? ? ? ch ?]. unfold childList. cbn.
  destruct ch as [l|]; reflexivity.
Qed.

Lemma plain_eq host s :
  plain host s =
  buildable host s && negb (truthyOpt (shadow s)) &&
  forallb (plain host) (childList s).
Proof.
  destruct s as [? ? ? ? ? ? ? ch ?]. unfold childList. cbn.
  destruct ch as [l|]; reflexivity.
Qed.

Lemma rendersAll_frame host ns ns' l :
  Forall (fun c => forall i, renders host ns i c ->
                (forall j, i <= j < i + size c -> ns' !! j = ns !! j) ->
                renders host ns' i c) l ->
  forall i, rendersAll host ns i l ->
    (forall j, i <= j < i + sizes l -> ns' !! j = ns !! j) ->
    rendersAll host ns' i l.
Proof.
  induction 1 as [|c r Hc _ IH]; intros i HR Hf.
  - constructor.
  - inversion HR as [|? ? ? Hrc Hrr]; subst. cbn [sizes foldr] in Hf.
    fold (sizes r) in Hf. constructor.
    + apply Hc; [exact Hrc|]. intros j Hj. apply Hf. lia.
    + apply IH; [exact Hrr|]. intros j Hj. apply Hf. lia.
Qed.

(** [renders] only looks at the nodes of the subtree. *)
Lemma renders_frame host ns ns' s : forall i,
  renders host ns i s ->
  (forall j, i <= j < i + size s -> ns' !! j = ns !! j) ->
  renders host ns' i s.
Proof.
  induction s as [s IH] using Struct_ind. intros i HR Hf.
  inversion HR as [? ? n Hn Hk Hm Ha Hc Hall]; subst.
  rewrite size_eq in Hf.
  apply (renders_node host ns' i s n); try assumption.
  - rewrite Hf by lia. exact Hn.
  - eapply rendersAll_frame; [|exact Hall|intros j Hj; apply Hf; lia].
    unfold childList. destruct (children s) as [l|] eqn:Hl; [|constructor].
    cbn. apply (IH l eq_refl).
Qed.

Lemma touched_refl n w : touched n w w.
Proof. repeat split. intros m Hm. exists m. auto. Qed.

Lemma touched_trans n w1 w2 w3 :
  touched n w1 w2 -> touched n w2 w3 -> touched n w1 w3.
Proof.
  intros (L1 & O1 & N1) (L2 & O2 & N2). repeat split; [congruence| |].
  - intros i Hi. rewrite O2, O1 by exact Hi. reflexivity.
  - intros m Hm. destruct (N1 m Hm) as (m1 & Hm1 & K1 & M1 & A1 & C1).
    destruct (N2 m1 Hm1) as (m2 & Hm2 & K2 & M2 & A2 & C2).
    exists m2. repeat split; congruence.
Qed.

Lemma touched_put n m m' w :
  nodes w !! n = Some m ->
  kind m' = kind m -> nodeName m' = nodeName m ->
  attributes m' = attributes m -> childNodes m' = childNodes m ->
  touched n w (withNodes (fun ns => <[n := m']> ns) w).
Proof.
  intros Hn Hk Hm Ha Hc. repeat split; cbn.
  - apply length_insert.
  - intros i Hi. apply list_lookup_insert_ne. congruence.
  - intros m0 Hm0. rewrite Hn in Hm0. injection Hm0 as <-. exists m'.
    split; [|auto]. apply list_lookup_insert_eq. eapply lookup_lt_Some, Hn.
Qed.

Lemma assign_textContent_touched n m s w :
  nodes w !! n = Some m ->
  exists w', assign_textContent (Some n) s w = (Normal tt, w') /\
             touched n w w'.
Proof.
  intros Hn. unfold assign_textContent, bind, getNode, putNode. rewrite Hn.
  eexists. split; [reflexivity|]. apply (touched_put n m); auto.
Qed.

Lemma assign_innerHTML_touched n m s w :
  nodes w !! n = Some m ->
  exists w', assign_innerHTML (Some n) s w = (Normal tt, w') /\
             touched n w w'.
Proof.
  intros Hn. unfold assign_innerHTML, bind, getNode, putNode. rewrite Hn.
  eexists. split; [reflexivity|]. apply (touched_put n m); auto.
Qed.

Lemma touched_same_nodes n w w' : nodes w' = nodes w -> touched n w w'.
Proof.
  intros H. unfold touched. rewrite H. repeat split.
  intros m Hm. exists m. auto.
Qed.

Lemma registerEventStore_touched n type h nodeId w :
  exists w', registerEventStore (Some n) type h nodeId w = (Normal tt, w') /\
             touched n w w'.
Proof.
  unfold registerEventStore, try_catch, when, bind, hasActions, pushAction,
    addEventListener, bind, getNode, putNode, ret.
  destruct (truthy type);
    [|eexists; split; [reflexivity|apply touched_same_nodes; reflexivity]].
  destruct (bool_decide _); cbn [negb].
  - destruct (ActionRefStore w !! n);
      [|eexists; split; [reflexivity|apply touched_same_nodes; reflexivity]].
    cbn [withActions nodes].
    destruct (nodes w !! n) as [m|] eqn:Hn;
      [|eexists; split; [reflexivity|apply touched_same_nodes; reflexivity]].
    destruct (existsb _ _);
      [eexists; split; [reflexivity|apply touched_same_nodes; reflexivity]|].
    eexists; split; [reflexivity|].
    eapply touched_trans;
      [|apply (touched_put n m _ (withActions _ w)); auto].
    apply touched_same_nodes. reflexivity.
  - cbn [withActions ActionRefStore nodes]. rewrite lookup_insert_eq.
    cbn [withActions nodes].
    destruct (nodes w !! n) as [m|] eqn:Hn;
      [|eexists; split; [reflexivity|apply touched_same_nodes; reflexivity]].
    destruct (existsb _ _);
      [eexists; split; [reflexivity|apply touched_same_nodes; reflexivity]|].
    eexists; split; [reflexivity|].
    eapply touched_trans;
      [|apply (touched_put n m _ (withActions _ (withActions _ w))); auto].
    apply touched_same_nodes. reflexivity.
Qed.

Lemma createEventElement_touched acts struct n w :
  exists w', createEventElement acts struct (Some n) w = (Normal tt, w') /\
             touched n w w'.
Proof.
  unfold createEventElement.
  destruct (event struct) as [ev|];
    [|eexists; split; [reflexivity|apply touched_refl]].
  destruct (_ && _); [|eexists; split; [reflexivity|apply touched_refl]].
  destruct (acts _); [|eexists; split; [reflexivity|apply touched_refl]].
  apply registerEventStore_touched.
Qed.

Lemma callbacks_assign_textContent el s w :
  callbacks (snd (assign_textContent el s w)) = callbacks w.
Proof.
  unfold assign_textContent, bind, getNode, putNode.
  destruct el; [|reflexivity]. destruct (nodes w !! _); reflexivity.
Qed.

Lemma callbacks_assign_innerHTML el s w :
  callbacks (snd (assign_innerHTML el s w)) = callbacks w.
Proof.
  unfold assign_innerHTML, bind, getNode, putNode.
  destruct el; [|reflexivity]. destruct (nodes w !! _); reflexivity.
Qed.

Lemma callbacks_registerEventStore el type h nodeId w :
  callbacks (snd (registerEventStore el type h nodeId w)) = callbacks w.
Proof.
  unfold registerEventStore, try_catch, when, bind, hasActions, pushAction,
    addEventListener, bind, getNode, putNode, ret.
  destruct el as [n|]; [|reflexivity].
  destruct (truthy type); [|reflexivity].
  destruct (bool_decide _); cbn [negb].
  - destruct (ActionRefStore w !! n); [|reflexivity].
    cbn [withActions nodes].
    destruct (nodes w !! n) as [m|]; [|reflexivity].
    destruct (existsb _ _); reflexivity.
  - cbn [withActions ActionRefStore nodes]. rewrite lookup_insert_eq.
    cbn [withActions nodes].
    destruct (nodes w !! n) as [m|]; [|reflexivity].
    destruct (existsb _ _); reflexivity.
Qed.

Lemma callbacks_createEventElement acts struct el w :
  callbacks (snd (createEventElement acts struct el w)) = callbacks w.
Proof.
  unfold createEventElement.
  destruct (event struct) as [ev|]; [|reflexivity].
  destruct (_ && _); [|reflexivity].
  destruct (acts _); [|reflexivity].
  apply callbacks_registerEventStore.
Qed.

Lemma mirror_eq s :
  mirror s =
  setChildren
    (match children s with
     | Some l => Some (rev (map mirror l))
     | None => None
     end) s.
Proof. destruct s; reflexivity. Qed.

Lemma invocations_eq s :
  invocations s =
  match children s with
  | None => 1
  | Some l => invocationsAll l + (if nonEmpty l then 1 else 0)
  end.
Proof.
  destruct s as [? ? ? ? ? ? ? ch ?]. cbn. destruct ch as [l|]; reflexivity.
Qed.

Section Tree.

Variable host : Host.
Variable EventActions : string -> option handler.

Lemma call_cb_nodes cb w :
  exists r w', call_cb cb w = (Normal r, w') /\ nodes w' = nodes w /\
               callbacks w' = callbacks w + callsOf cb 1.
Proof.
  destruct cb; cbn.
  - exists RUndefined, w. repeat split. lia.
  - eexists _, _. repeat split. cbn. lia.
Qed.

Lemma isElement_setChildNodes l n :
  isElement (setChildNodes l n) = isElement n.
Proof. reflexivity. Qed.

Lemma declaredLoop_plain n cb l :
  Forall (compilesPlainly host EventActions) l -> forallb (plain host) l = true ->
  forall w nn, nodes w !! n = Some nn -> isElement nn = true ->
  exists r w',
    declaredLoop (createFromStruct_object host EventActions) (Some n) cb l w =
    (Normal (map mirror l, r), w') /\
    length (nodes w') = length (nodes w) + sizes l /\
    (forall i, i < length (nodes w) -> i <> n ->
               nodes w' !! i = nodes w !! i) /\
    nodes w' !! n =
      Some (setChildNodes (childNodes nn ++ childIds (length (nodes w)) l) nn) /\
    rendersAll host (nodes w') (length (nodes w)) l /\
    callbacks w' =
      callbacks w
      + callsOf cb (invocationsAll l + (if nonEmpty l then 1 else 0)).
Proof.
  induction 1 as [|c r Hc Hr IH]; intros Hpl w nn Hn Hel.
  - exists RUndefined, w. split; [reflexivity|]. cbn.
    split; [lia|]. split; [auto|]. split; [|split; [constructor|]].
    + rewrite app_nil_r, setChildNodes_same. exact Hn.
    + destruct cb; cbn; lia.
  - cbn [forallb] in Hpl. apply andb_prop in Hpl as [Hpc Hpr].
    cbn [declaredLoop parentOf]. unfold bind at 1.
    destruct (Hc n nn cb w Hpc Hn Hel)
      as (rc & w1 & E1 & (L1 & F1 & N1 & R1) & C1).
    rewrite E1. destruct r as [|d r'].
    + unfold bind.
      destruct (call_cb_nodes cb w1) as (rv & w1' & Ecb & Hnodes & Hcb).
      rewrite Ecb. exists rv, w1'. split; [reflexivity|].
      rewrite Hnodes. cbn [sizes foldr childIds].
      split; [lia|]. split; [exact F1|]. split; [exact N1|].
      split; [constructor; [exact R1|constructor]|].
      rewrite Hcb, C1. destruct cb; cbn; lia.
    + assert (Hlt : n < length (nodes w)) by (eapply lookup_lt_Some, Hn).
      destruct (IH Hpr w1 _ N1 Hel)
        as (rv & w2 & E2 & L2 & F2 & N2 & R2 & C2).
      unfold bind. rewrite E2. exists rv, w2.
      split; [reflexivity|].
      change (sizes (c :: d :: r')) with (size c + sizes (d :: r')).
      split; [lia|]. split; [|split; [|split]].
      * intros i Hi Hne. rewrite F2 by lia. apply F1; assumption.
      * rewrite N2. cbn [setChildNodes childNodes kind nodeName attributes
                         listeners textContent innerHTML shadowRoot].
        cbn [childIds]. rewrite L1, <- app_assoc. reflexivity.
      * constructor.
        -- eapply renders_frame; [exact R1|]. intros j Hj.
           apply F2; lia.
        -- rewrite <- L1. exact R2.
      * rewrite C2, C1.
        change (invocationsAll (c :: d :: r'))
          with (invocations c + invocationsAll (d :: r')).
        cbn [nonEmpty]. destruct cb; cbn; lia.
Qed.

(** A plain description compiles into its tree. *)
Lemma compiles_plain s : compilesPlainly host EventActions s.
Proof.
  induction s as [s IH] using Struct_ind.
  intros p np cb w Hplain Hp Hnp.
  rewrite plain_eq in Hplain.
  apply andb_prop in Hplain as [Hplain Hch].
  apply andb_prop in Hplain as [Hb Hsh].
  apply negb_true_iff in Hsh.
  destruct (TypeSelect_attaches host s p np w Hb Hp (fun _ => Hnp))
    as (r & w2 & w3 & HT & HB & _ & _ & Hres).
  destruct (Hres (or_introl Hsh)) as [-> ->]. clear Hres.
  rewrite (createFromStruct_object_built host EventActions s (PNode p) cb w
             _ _ (buildable_truthy host s Hb) HT).
  destruct HB as (L2 & F2 & P2 & N2 & _ & CB2).
  set (n := length (nodes w)) in *.
  assert (Hlt : p < n) by (eapply lookup_lt_Some, Hp).
  (* text, html and event only touch the new node *)
  assert (H3 : exists w3, when (truthyOpt (text s))
                 (assign_textContent (Some n) (default EmptyString (text s))) w2
               = (Normal tt, w3) /\ touched n w2 w3).
  { unfold when. destruct (truthyOpt (text s)).
    - eapply assign_textContent_touched, N2.
    - exists w2. split; [reflexivity|apply touched_refl]. }
  destruct H3 as (w3 & E3 & T3).
  destruct (proj2 (proj2 T3) _ N2) as (m3 & Hm3 & _).
  assert (H4 : exists w4, when (truthyOpt (html s))
                 (assign_innerHTML (Some n) (default EmptyString (html s))) w3
               = (Normal tt, w4) /\ touched n w3 w4).
  { unfold when. destruct (truthyOpt (html s)).
    - eapply assign_innerHTML_touched, Hm3.
    - exists w3. split; [reflexivity|apply touched_refl]. }
  destruct H4 as (w4 & E4 & T4).
  destruct (createEventElement_touched EventActions s n w4) as (w5 & E5 & T5).
  destruct (touched_trans _ _ _ _ (touched_trans _ _ _ _ T3 T4) T5)
    as (L5 & F5 & N5).
  destruct (N5 _ N2) as (m5 & Hm5 & K5 & M5 & A5 & C5).
  cbn in K5, M5, A5, C5.
  assert (Hel5 : isElement m5 = true).
  { unfold isElement. rewrite K5. unfold kindOf.
    destruct (selectsSVG _); reflexivity. }
  assert (C5' : callbacks w5 = callbacks w).
  { pose proof (callbacks_assign_textContent (Some n) (default EmptyString (text s)) w2)
      as X3.
    pose proof (callbacks_assign_innerHTML (Some n) (default EmptyString (html s)) w3)
      as X4.
    pose proof (callbacks_createEventElement EventActions s (Some n) w4) as X5.
    rewrite E5 in X5. cbn [snd] in X5. rewrite X5.
    unfold when in E3, E4.
    destruct (truthyOpt (html s));
      [rewrite E4 in X4; cbn [snd] in X4; rewrite X4
      |injection E4 as <-];
      (destruct (truthyOpt (text s));
       [rewrite E3 in X3; cbn [snd] in X3; rewrite X3; exact CB2
       |injection E3 as <-; exact CB2]). }
  unfold try_catch, afterBuild.
  unfold bind at 1. rewrite E3. unfold bind at 1. rewrite E4.
  unfold bind at 1. rewrite E5. unfold createChildren.
  rewrite mirror_eq, invocations_eq.
  destruct (children s) as [l|] eqn:Hl.
  - destruct (declaredLoop_plain n cb l (IH l eq_refl)
                ltac:(unfold childList in Hch; rewrite Hl in Hch; exact Hch)
                w5 m5 Hm5 Hel5)
      as (rv & w6 & E6 & L6 & F6 & N6 & R6 & C6).
    unfold bind. rewrite E6. eexists _, w6. split; [reflexivity|].
    assert (Hcl : childList s = l) by (unfold childList; rewrite Hl; reflexivity).
    split; [|rewrite C6, C5'; reflexivity].
    unfold grown. rewrite size_eq, Hcl. fold n.
    split; [lia|]. split; [|split].
    + intros i Hi Hne. rewrite F6 by lia. rewrite F5 by lia. apply F2; assumption.
    + rewrite F6 by lia. rewrite F5 by lia. exact P2.
    + apply (renders_node host _ n s _ N6); rewrite ?Hcl; cbn.
      * exact K5.
      * exact M5.
      * exact A5.
      * rewrite C5, L5, L2. reflexivity.
      * rewrite L5, L2 in R6. exact R6.
  - destruct (call_cb_nodes cb w5) as (rv & w6 & E6 & Hnodes & Hcb).
    unfold bind. rewrite E6.
    replace (setChildren None s) with s by (destruct s; cbn in Hl; subst; reflexivity).
    eexists _, w6. split; [reflexivity|].
    assert (Hcl : childList s = []) by (unfold childList; rewrite Hl; reflexivity).
    split; [|rewrite Hcb, C5'; reflexivity].
    unfold grown. rewrite size_eq, Hcl, Hnodes. fold n. cbn [sizes foldr].
    split; [lia|]. split; [|split].
    + intros i Hi Hne. rewrite F5 by lia. apply F2; assumption.
    + rewrite F5 by lia. exact P2.
    + apply (renders_node host _ n s _ Hm5); rewrite ?Hcl; cbn;
        try assumption.
      constructor.
Qed.

(** On a plain description, what [createFromStruct] returns, builds and
    invokes. *)
Lemma createFromStruct_plain struct parent cb w p np :
  plain host struct = true ->
  defaultParent parent = PNode p ->
  nodes w !! p = Some np ->
  isElement np = true ->
  exists r w',
    createFromStruct host EventActions (AData (Some struct) parent) cb w =
    (Normal (AData (Some (mirror struct)) parent, r), w') /\
    grown host struct p np w w' /\
    callbacks w' = callbacks w + callsOf cb (invocations struct).
Proof.
  intros Hplain Hpar Hp Hnp.
  assert (Heq : createFromStruct_object host EventActions struct parent cb w =
                createFromStruct_object host EventActions struct (PNode p) cb w).
  { rewrite !createFromStruct_object_unfold. rewrite Hpar. reflexivity. }
  destruct (compiles_plain struct p np cb w Hplain Hp Hnp)
    as (r & w1 & E & G & C).
  unfold createFromStruct. cbn [typeof String.eqb Ascii.eqb Bool.eqb].
  unfold bind. rewrite Heq, E. cbn [ret]. eauto.
Qed.

Lemma createFromStruct_grows struct parent cb w p np :
  plain host struct = true ->
  defaultParent parent = PNode p ->
  nodes w !! p = Some np ->
  isElement np = true ->
  grown host struct p np w
    (snd (createFromStruct host EventActions (AData (Some struct) parent) cb w)).
Proof.
  intros Hplain Hpar Hp Hnp.
  destruct (createFromStruct_plain struct parent cb w p np Hplain Hpar Hp Hnp)
    as (r & w' & E & G & _).
  rewrite E. exact G.
Qed.

(** C3 (amended): for the description with element type [svg], attributes
    [{viewBox: "0 0 10 10"}] and one child of element type [circle], on a
    host that accepts these names: the [svg] element is created in the SVG
    namespace and its [viewBox] attribute is written by [setAttribute]; the
    [circle] element is created by the standard builder, as an
    [HTMLElement], with no attribute, and is the only child of the [svg]
    element, which is appended to the parent. *)
Theorem svg_scenario_compiled parent cb w p np :
  validQualifiedName host "svg" = true ->
  validElementName host "circle" = true ->
  validAttributeName host "viewBox" = true ->
  defaultParent parent = PNode p ->
  nodes w !! p = Some np ->
  isElement np = true ->
  let w' :=
    snd (createFromStruct host EventActions (AData (Some svgScenario) parent)
           cb w) in
  let n := length (nodes w) in
  exists svg circle,
    nodes w' !! n = Some svg /\
    kind svg = SVGElement /\ nodeName svg = "svg" /\
    attributes svg = [mkAttr "viewBox" "0 0 10 10" ViaSetAttribute] /\
    childNodes svg = [S n] /\
    nodes w' !! S n = Some circle /\
    kind circle = HTMLElement /\ nodeName circle = "circle" /\
    attributes circle = [] /\ childNodes circle = [] /\
    (childNodes <$> nodes w' !! p) = Some (childNodes np ++ [n]).
Proof.
  intros Hsvg Hcircle Hvb Hpar Hp Hnp w' n.
  assert (Hplain : plain host svgScenario = true).
  { rewrite plain_eq. unfold buildable. cbn [svgScenario element shadow].
    change (selectsSVG "svg") with true. cbn [truthy truthyOpt negb andb].
    rewrite Hsvg. cbn [andb childList svgScenario children default forallb].
    unfold id. cbn [forallb]. rewrite plain_eq. unfold buildable.
    cbn [leaf element shadow]. change (selectsSVG "circle") with false.
    cbn [truthy truthyOpt negb andb]. rewrite Hcircle. reflexivity. }
  destruct (createFromStruct_grows svgScenario parent cb w p np Hplain Hpar
              Hp Hnp) as (_ & _ & Hparent & HR).
  fold w' in Hparent, HR. fold n in Hparent, HR.
  inversion HR as [? ? svg Hn Hk Hm Ha Hc Hall]; subst.
  cbn [childList svgScenario children default] in Hc, Hall. unfold id in Hc, Hall.
  inversion Hall as [|? ? ? HRc _]; subst.
  inversion HRc as [? ? circle Hn' Hk' Hm' Ha' Hc' _]; subst.
  exists svg, circle.
  split; [exact Hn|]. split; [exact Hk|]. split; [exact Hm|].
  split.
  { rewrite Ha. unfold attributesOf, decorated. cbn [svgScenario element
      attr attrNS dataset d_attr d_attrNS d_dataset default foldr].
    unfold id. change (selectsSVG "svg") with true. cbn [foldr].
    unfold writeAttr. cbn [fst snd truthy andb]. rewrite Hvb. reflexivity. }
  split; [exact Hc|]. split; [exact Hn'|]. split; [exact Hk'|].
  split; [exact Hm'|]. split; [exact Ha'|]. split; [exact Hc'|].
  rewrite Hparent. reflexivity.
Qed.

End Tree.

(** ** The theorems at concrete inputs *)

Lemma svg_scenario_compiled_witness :
  validQualifiedName browser "svg" = true /\
  validElementName browser "circle" = true /\
  validAttributeName browser "viewBox" = true /\
  defaultParent PUndefined = PNode 0 /\
  nodes initial !! 0 = Some bodyNode /\
  isElement bodyNode = true /\
  exists svg circle,
    nodes (compile svgScenario CbUndefined) !! 1 = Some svg /\
    kind svg = SVGElement /\ nodeName svg = "svg" /\
    attributes svg = [mkAttr "viewBox" "0 0 10 10" ViaSetAttribute] /\
    childNodes svg = [2] /\
    nodes (compile svgScenario CbUndefined) !! 2 = Some circle /\
    kind circle = HTMLElement /\ nodeName circle = "circle" /\
    attributes circle = [] /\ childNodes circle = [] /\
    (childNodes <$> nodes (compile svgScenario CbUndefined) !! 0) = Some [1].
Proof.
  repeat (split; [reflexivity|]).
  apply (svg_scenario_compiled browser demoActions PUndefined CbUndefined
           initial 0 bodyNode); reflexivity.
Defined.

Lemma state_tag_registered_witness :
  let w' := snd (buildElement browser taggedData initial) in
  (buildElement browser taggedData initial = (Normal (Some 1), w') \/
   createElementNS browser taggedData initial = (Normal (Some 1), w')) /\
  In ("state", "box") (d_dataset taggedData) /\
  NoDup (map fst (d_dataset taggedData)) /\
  truthy "box" = true /\
  proto (ElementRefStore initial) = None /\
  getElement browser "box" w' = (Normal (VElement 1), w').
Proof.
  intros w'.
  assert (Hb : buildElement browser taggedData initial = (Normal (Some 1), w'))
    by (vm_compute; reflexivity).
  assert (Hin : In ("state", "box") (d_dataset taggedData))
    by (left; reflexivity).
  assert (Hnd : NoDup (map fst (d_dataset taggedData)))
    by (cbn; apply NoDup_cons_2; [apply not_elem_of_nil|apply NoDup_nil_2]).
  split; [left; exact Hb|]. split; [exact Hin|]. split; [exact Hnd|].
  split; [reflexivity|]. split; [reflexivity|].
  apply (state_tag_registered browser taggedData initial 1 w' "box"
           (or_introl Hb) Hin Hnd eq_refl eq_refl).
Defined.

(** * Further properties of the stores, the builders and the compiler *)

(** ** DomStore *)

(** X1: an element added under a non-empty key is the element read back
    under that key, as long as [ElementRefStore] has the prototype it was
    created with. *)
Theorem addElement_then_getElement host key e w :
  truthy key = true ->
  proto (ElementRefStore w) = None ->
  getElement host key (snd (addElement host key (Some e) w)) =
  (Normal (VElement e), snd (addElement host key (Some e) w)).
Proof.
  intros Hk Hp. apply getElement_registered; [|exact Hk].
  unfold addElement, try_catch, when, store_set, registered.
  rewrite Hk, Hp.
  destruct (own (ElementRefStore w) !! key) eqn:Ho.
  - left. cbn. apply lookup_insert_eq.
  - destruct (String.eqb key "__proto__") eqn:Hpk.
    + right. cbn. auto.
    + left. cbn. apply lookup_insert_eq.
Qed.

Lemma addElement_then_getElement_witness :
  truthy "menu" = true /\
  proto (ElementRefStore initial) = None /\
  getElement browser "menu"
    (snd (addElement browser "menu" (Some 0) initial)) =
  (Normal (VElement 0), snd (addElement browser "menu" (Some 0) initial)).
Proof.
  split; [reflexivity|]. split; [reflexivity|].
  apply (addElement_then_getElement browser "menu" 0 initial); reflexivity.
Defined.

(** X2: [addElement] changes nothing but the entry of its key: the
    document, [ActionRefStore] and the callback count are as before, and
    every other key reads as before.  The key [__proto__] is left out: an
    assignment to it replaces the prototype of [ElementRefStore]. *)
Theorem addElement_only_its_key host key value key' w :
  key' <> key -> key <> "__proto__" ->
  let w' := snd (addElement host key value w) in
  nodes w' = nodes w /\ ActionRefStore w' = ActionRefStore w /\
  callbacks w' = callbacks w /\
  fst (getElement host key' w') = fst (getElement host key' w).
Proof.
  intros Hne Hpk. cbv zeta.
  apply String.eqb_neq in Hpk.
  assert (H : snd (addElement host key value w) = w \/
              snd (addElement host key value w) =
              withRefStore (insertOwn key (default 0 value)) w).
  { unfold addElement, try_catch, when, store_set, ret.
    destruct value as [v|]; [|left; reflexivity].
    destruct (truthy key); [|left; reflexivity]. rewrite Hpk.
    destruct (own (ElementRefStore w) !! key); [right; reflexivity|].
    destruct (proto (ElementRefStore w)); [|right; reflexivity].
    destruct (memberOf host w n key);
      [right; reflexivity|right; reflexivity|left; reflexivity]. }
  destruct H as [-> | ->]; [repeat split|].
  repeat split.
  unfold getElement, try_catch, store_get, memberOf.
  destruct (truthy key'); [|reflexivity].
  cbn [withRefStore ElementRefStore nodes insertOwn own proto].
  rewrite lookup_insert_ne by congruence.
  destruct (own (ElementRefStore w) !! key'); [reflexivity|].
  destruct (proto (ElementRefStore w)); [|reflexivity].
  destruct (String.eqb key' "__proto__"); [reflexivity|].
  destruct (nodes w !! n) as [m|]; [|reflexivity].
  destruct (elementMember host m key'); reflexivity.
Qed.

Lemma addElement_only_its_key_witness :
  let w' := snd (addElement browser "menu" (Some 0) initial) in
  "footer" <> "menu" /\ "menu" <> "__proto__" /\
  nodes w' = nodes initial /\ ActionRefStore w' = ActionRefStore initial /\
  callbacks w' = callbacks initial /\
  fst (getElement browser "footer" w') =
  fst (getElement browser "footer" initial).
Proof.
  intros w'. split; [discriminate|]. split; [discriminate|].
  apply (addElement_only_its_key browser "menu" (Some 0) "footer" initial);
    discriminate.
Defined.

(** X3: after [removeElement(key, 2)] the key reads as [undefined] (for a
    key that [Object.prototype] does not define, while [ElementRefStore]
    has its original prototype); the other keys, the document and
    [ActionRefStore] are as before, so the element stays where it is with
    its listeners. *)
Theorem removeElement_reference_then_getElement host key w :
  truthy key = true ->
  proto (ElementRefStore w) = None ->
  isObjectPrototypeKey key = false ->
  let w' := snd (removeElement host key 2 w) in
  getElement host key w' = (Normal VUndefined, w') /\
  nodes w' = nodes w /\ ActionRefStore w' = ActionRefStore w /\
  (forall key', key' <> key ->
     own (ElementRefStore w') !! key' = own (ElementRefStore w) !! key').
Proof.
  intros Hk Hp Hpk. cbv zeta.
  rewrite (removeElement_reference_only host key w Hk). cbn [snd].
  split; [|split; [reflexivity|split; [reflexivity|]]].
  - unfold getElement, try_catch, store_get. rewrite Hk.
    cbn [withRefStore ElementRefStore own proto].
    rewrite lookup_delete_eq, Hp. unfold fromObjectPrototype. rewrite Hpk.
    reflexivity.
  - intros key' Hne. cbn. apply lookup_delete_ne. congruence.
Qed.

Lemma removeElement_reference_then_getElement_witness :
  let w := snd (addElement browser "menu" (Some 0) initial) in
  let w' := snd (removeElement browser "menu" 2 w) in
  truthy "menu" = true /\
  proto (ElementRefStore w) = None /\
  isObjectPrototypeKey "menu" = false /\
  getElement browser "menu" w' = (Normal VUndefined, w') /\
  nodes w' = nodes w /\ ActionRefStore w' = ActionRefStore w /\
  (forall key', key' <> "menu" ->
     own (ElementRefStore w') !! key' = own (ElementRefStore w) !! key').
Proof.
  intros w w'. repeat (split; [reflexivity|]).
  apply (removeElement_reference_then_getElement browser "menu" w);
    reflexivity.
Defined.

(** X4: [removeElement] does nothing at all when the key is empty or when
    the mode is neither 1 nor 2. *)
Theorem removeElement_other_modes host key mode w :
  truthy key = false \/ (mode <> 1 /\ mode <> 2)%Z ->
  removeElement host key mode w = (Normal tt, w).
Proof.
  intros H. unfold removeElement, removeElementWith, try_catch, modeTypes.
  destruct H as [-> | [H1 H2]]; [reflexivity|].
  destruct (truthy key); [|reflexivity]. cbn [andb].
  destruct (1 <=? mode)%Z; [|reflexivity].
  destruct (Z.eqb_spec mode 1) as [->|_]; [congruence|].
  destruct (Z.eqb_spec mode 2) as [->|_]; [congruence|].
  reflexivity.
Qed.

Lemma removeElement_other_modes_witness :
  (truthy "menu" = false \/ (3 <> 1 /\ 3 <> 2)%Z) /\
  removeElement browser "menu" 3
    (snd (addElement browser "menu" (Some 0) initial)) =
  (Normal tt, snd (addElement browser "menu" (Some 0) initial)).
Proof.
  assert (H : truthy "menu" = false \/ (3 <> 1 /\ 3 <> 2)%Z)
    by (right; split; discriminate).
  split; [exact H|].
  apply (removeElement_other_modes browser "menu" 3 _ H).
Defined.

(** X5: [removeElement(key, 1)] on a key under which nothing is stored
    changes nothing and throws nothing ([ElementRefStore] having its
    original prototype): what the lookup gives, [undefined] or a function
    inherited from [Object.prototype], is no element to remove. *)
Theorem removeElement_full_missing_key host key w :
  own (ElementRefStore w) !! key = None ->
  proto (ElementRefStore w) = None ->
  removeElement host key 1 w = (Normal tt, w).
Proof.
  intros Ho Hp. unfold removeElement, removeElementWith, try_catch, modeTypes.
  destruct (truthy key); [|reflexivity].
  change (1 <=? 1)%Z with true. change (1 =? 1)%Z with true. cbn [andb].
  unfold bind, store_get. rewrite Ho, Hp. unfold fromObjectPrototype.
  destruct (isObjectPrototypeKey key); reflexivity.
Qed.

Lemma removeElement_full_missing_key_witness :
  own (ElementRefStore initial) !! "toString" = None /\
  proto (ElementRefStore initial) = None /\
  removeElement browser "toString" 1 initial = (Normal tt, initial).
Proof.
  split; [reflexivity|]. split; [reflexivity|].
  apply (removeElement_full_missing_key browser "toString" initial);
    reflexivity.
Defined.

(** ** EventStore *)

(** What [registerEventStore] leaves, for an element of the document and a
    non-empty event type. *)
Lemma registerEventStore_exact e type h nodeId w n :
  nodes w !! e = Some n -> truthy type = true ->
  registerEventStore (Some e) type h nodeId w =
  (Normal tt,
   mkWorld
     (<[e := setListeners
               (if existsb (sameListener type h) (listeners n)
                then listeners n else listeners n ++ [(type, h)]) n]>
        (nodes w))
     (ElementRefStore w)
     (<[e := default [] (ActionRefStore w !! e)
             ++ [mkSchema type h (if truthyOpt nodeId then nodeId else None)]]>
        (ActionRefStore w))
     (callbacks w)).
Proof.
  intros He Ht.
  unfold registerEventStore, try_catch, when, bind, hasActions, pushAction,
    addEventListener, bind, getNode, putNode, ret. rewrite Ht.
  destruct (ActionRefStore w !! e) as [l|] eqn:Hl.
  - rewrite bool_decide_eq_true_2 by eauto. cbn [negb]. rewrite Hl.
    cbn [withActions nodes]. rewrite He.
    destruct (existsb _ _).
    + rewrite setListeners_same, list_insert_id by exact He. reflexivity.
    + reflexivity.
  - rewrite bool_decide_eq_false_2 by (intros [x Hx]; discriminate).
    cbn [negb withActions ActionRefStore nodes]. rewrite lookup_insert_eq.
    cbn [withActions ActionRefStore nodes]. rewrite He.
    destruct (existsb _ _); unfold withActions, withNodes;
      cbn [nodes ElementRefStore ActionRefStore callbacks];
      rewrite insert_insert_eq.
    + rewrite setListeners_same, list_insert_id by exact He. reflexivity.
    + reflexivity.
Qed.

(** X6: [registerEventStore], given an element of the document and a
    non-empty event type, appends one record [{type, handler, nodeId?}] to
    the element's list in [ActionRefStore] (starting the list if there is
    none) and puts the listener on the element: when the element already
    has this listener its list of listeners is the same as before (the
    listener is not there a second time), otherwise the listener is added
    at the end of the list.  Nothing else changes: not the element's
    children or attributes, no other node, no other list, not
    [ElementRefStore]. *)
Theorem registerEventStore_records e type h nodeId w n :
  nodes w !! e = Some n -> truthy type = true ->
  let out := registerEventStore (Some e) type h nodeId w in
  fst out = Normal tt /\
  ActionRefStore (snd out) !! e =
    Some (default [] (ActionRefStore w !! e)
          ++ [mkSchema type h (if truthyOpt nodeId then nodeId else None)]) /\
  (exists n',
     nodes (snd out) !! e = Some n' /\
     (In (type, h) (listeners n) -> listeners n' = listeners n) /\
     (~ In (type, h) (listeners n) ->
      listeners n' = listeners n ++ [(type, h)]) /\
     childNodes n' = childNodes n /\ attributes n' = attributes n) /\
  (forall e', e' <> e ->
     nodes (snd out) !! e' = nodes w !! e' /\
     ActionRefStore (snd out) !! e' = ActionRefStore w !! e') /\
  ElementRefStore (snd out) = ElementRefStore w.
Proof.
  intros He Ht. cbv zeta.
  rewrite (registerEventStore_exact e type h nodeId w n He Ht).
  cbn [fst snd nodes ActionRefStore ElementRefStore].
  split; [reflexivity|]. split; [apply lookup_insert_eq|].
  split; [|split; [|reflexivity]].
  - eexists. split; [apply list_lookup_insert_eq; eapply lookup_lt_Some, He|].
    cbn [listeners setListeners childNodes attributes].
    destruct (existsb (sameListener type h) (listeners n)) eqn:Hex.
    + split; [reflexivity|]. split; [|split; reflexivity].
      intros Hno. exfalso. apply Hno.
      apply existsb_exists in Hex as (x & Hx & Hs).
      unfold sameListener in Hs. apply andb_prop in Hs as [H1 H2].
      apply String.eqb_eq in H1. apply Nat.eqb_eq in H2.
      assert (Hxe : x = (type, h)) by (destruct x; cbn in *; congruence).
      subst x. exact Hx.
    + split; [|split; [reflexivity|split; reflexivity]].
      intros Hin. exfalso.
      assert (Hex' : existsb (sameListener type h) (listeners n) = true).
      { apply existsb_exists. exists (type, h). split; [exact Hin|].
        unfold sameListener. cbn [fst snd].
        rewrite String.eqb_refl, Nat.eqb_refl. reflexivity. }
      congruence.
  - intros e' Hne. split.
    + apply list_lookup_insert_ne. congruence.
    + apply lookup_insert_ne. congruence.
Qed.

Lemma registerEventStore_records_witness :
  let w := snd (registerEventStore (Some 0) "click" 7 None initial) in
  let n := setListeners [("click", 7)] bodyNode in
  let out := registerEventStore (Some 0) "click" 7 (Some "again") w in
  nodes w !! 0 = Some n /\ truthy "click" = true /\
  fst out = Normal tt /\
  ActionRefStore (snd out) !! 0 =
    Some [mkSchema "click" 7 None; mkSchema "click" 7 (Some "again")] /\
  (exists n',
     nodes (snd out) !! 0 = Some n' /\
     (In ("click", 7) (listeners n) -> listeners n' = [("click", 7)]) /\
     (~ In ("click", 7) (listeners n) ->
      listeners n' = [("click", 7); ("click", 7)]) /\
     childNodes n' = childNodes n /\ attributes n' = attributes n) /\
  (forall e', e' <> 0 ->
     nodes (snd out) !! e' = nodes w !! e' /\
     ActionRefStore (snd out) !! e' = ActionRefStore w !! e') /\
  ElementRefStore (snd out) = ElementRefStore w.
Proof.
  intros w n out. split; [reflexivity|]. split; [reflexivity|].
  apply (registerEventStore_records 0 "click" 7 (Some "again") w n);
    reflexivity.
Defined.

Lemma strip_keeps x l ls :
  In x ls ->
  Forall (fun item => sameListener (sc_type item) (sc_handler item) x = false) l ->
  In x (strip l ls).
Proof.
  intros Hx. induction 1 as [|item r Hi _ IH]; cbn [strip foldr]; [exact Hx|].
  apply filter_In. split; [exact IH|]. rewrite Hi. reflexivity.
Qed.

(** What [removeEventStore] leaves, for a node of the document. *)
Lemma removeEventStore_exact host e w n :
  nodes w !! e = Some n ->
  removeEventStore host (VElement e) w =
  (Normal tt,
   let l := default [] (ActionRefStore w !! e) in
   let ns := <[e := setListeners (strip l (listeners n)) n]> (nodes w) in
   mkWorld
     (if isElement n then detached e <$> ns else ns)
     (if isElement n && truthyOpt (dataset_state n)
      then mkRefStore
             (delete (default EmptyString (dataset_state n))
                     (own (ElementRefStore w)))
             (proto (ElementRefStore w))
      else ElementRefStore w)
     (if nonEmpty l then delete e (ActionRefStore w) else ActionRefStore w)
     (callbacks w)).
Proof.
  intros He. rewrite removeEventStore_element, He. cbv zeta.
  assert (Hlt : e < length (nodes w)) by (eapply lookup_lt_Some, He).
  destruct (ActionRefStore w !! e) as [l|] eqn:Hl; cbn [default].
  - rewrite (detachLoop_present e 0 l w n He). cbn [snd Nat.eqb andb].
    rewrite removeFromDomStore_element. cbn [nodes ElementRefStore
      ActionRefStore callbacks].
    rewrite list_lookup_insert_eq by exact Hlt.
    change (isElement (setListeners _ n)) with (isElement n).
    change (dataset_state (setListeners _ n)) with (dataset_state n).
    destruct (isElement n); [reflexivity|]. reflexivity.
  - rewrite removeFromDomStore_element, He. cbn [strip foldr nonEmpty].
    rewrite setListeners_same, list_insert_id by exact He.
    destruct (isElement n); [reflexivity|]. destruct w; reflexivity.
Qed.

(** X7: [removeEventStore], given an element of the document: the
    element's list in [ActionRefStore] is deleted; the listeners recorded in
    that list are taken off the element and its other listeners are kept;
    the element is a child of no node any more; and the entry of
    [ElementRefStore] under the element's [state] tag, if it has one, is
    deleted. *)
Theorem removeEventStore_cleans_up host e w n :
  nodes w !! e = Some n -> isElement n = true ->
  ActionRefStore w !! e <> Some [] ->
  let l := default [] (ActionRefStore w !! e) in
  let out := removeEventStore host (VElement e) w in
  fst out = Normal tt /\
  ActionRefStore (snd out) !! e = None /\
  (exists n',
     nodes (snd out) !! e = Some n' /\
     forall x, In x (listeners n') <->
       In x (listeners n) /\
       Forall (fun item =>
                 sameListener (sc_type item) (sc_handler item) x = false) l) /\
  Forall (fun m => e ∉ childNodes m) (nodes (snd out)) /\
  (forall K, dataset_state n = Some K -> truthy K = true ->
     own (ElementRefStore (snd out)) !! K = None).
Proof.
  intros He Hel Hne. cbv zeta.
  rewrite (removeEventStore_exact host e w n He), Hel.
  cbn [fst snd nodes ActionRefStore ElementRefStore andb].
  assert (Hlt : e < length (nodes w)) by (eapply lookup_lt_Some, He).
  split; [reflexivity|]. split; [|split; [|split]].
  - destruct (ActionRefStore w !! e) as [[|x l]|] eqn:Hl; cbn [default nonEmpty].
    + congruence.
    + apply lookup_delete_eq.
    + exact Hl.
  - rewrite list_lookup_fmap, list_lookup_insert_eq by exact Hlt.
    eexists. split; [reflexivity|]. cbn [detached listeners setChildNodes
      setListeners].
    intros x. split; [apply strip_elem|]. intros [Hx Hall].
    apply strip_keeps; assumption.
  - apply detach_all.
  - intros K HK Ht. rewrite HK. cbn [truthyOpt default]. rewrite Ht.
    cbn [own]. apply lookup_delete_eq.
Qed.

Lemma removeEventStore_cleans_up_witness :
  let w := snd (registerEventStore (Some 0) "click" 7 None initial) in
  let n := setListeners [("click", 7)] bodyNode in
  let out := removeEventStore browser (VElement 0) w in
  nodes w !! 0 = Some n /\ isElement n = true /\
  ActionRefStore w !! 0 <> Some [] /\
  fst out = Normal tt /\
  ActionRefStore (snd out) !! 0 = None /\
  (exists n',
     nodes (snd out) !! 0 = Some n' /\
     forall x, In x (listeners n') <->
       In x (listeners n) /\
       Forall (fun item =>
                 sameListener (sc_type item) (sc_handler item) x = false)
              (default [] (ActionRefStore w !! 0))) /\
  Forall (fun m => 0 ∉ childNodes m) (nodes (snd out)) /\
  (forall K, dataset_state n = Some K -> truthy K = true ->
     own (ElementRefStore (snd out)) !! K = None).
Proof.
  intros w n out.
  assert (H1 : nodes w !! 0 = Some n) by reflexivity.
  assert (H2 : isElement n = true) by reflexivity.
  assert (H3 : ActionRefStore w !! 0 <> Some []) by (vm_compute; discriminate).
  split; [exact H1|]. split; [exact H2|]. split; [exact H3|].
  apply (removeEventStore_cleans_up browser 0 w n H1 H2 H3).
Defined.

(** X8: whatever its argument, [removeEventStore] leaves every other node
    with its listeners, attributes, kind and name, takes no child away from
    it but the removed element and gives it no new child, and leaves the
    other lists of [ActionRefStore] and the callback count as they were. *)
Theorem removeEventStore_elsewhere host v e' w m :
  v <> VElement e' -> nodes w !! e' = Some m ->
  let w' := snd (removeEventStore host v w) in
  ActionRefStore w' !! e' = ActionRefStore w !! e' /\
  callbacks w' = callbacks w /\
  exists m',
    nodes w' !! e' = Some m' /\
    listeners m' = listeners m /\ attributes m' = attributes m /\
    kind m' = kind m /\ nodeName m' = nodeName m /\
    (forall c, c ∈ childNodes m' -> c ∈ childNodes m) /\
    (forall c, c ∈ childNodes m -> v <> VElement c -> c ∈ childNodes m').
Proof.
  intros Hv Hm. cbv zeta.
  assert (Hsame : removeEventStore host v w = (Normal tt, w) ->
            ActionRefStore (snd (removeEventStore host v w)) !! e' =
              ActionRefStore w !! e' /\
            callbacks (snd (removeEventStore host v w)) = callbacks w /\
            exists m',
              nodes (snd (removeEventStore host v w)) !! e' = Some m' /\
              listeners m' = listeners m /\ attributes m' = attributes m /\
              kind m' = kind m /\ nodeName m' = nodeName m /\
              (forall c, c ∈ childNodes m' -> c ∈ childNodes m) /\
              (forall c, c ∈ childNodes m -> v <> VElement c ->
                         c ∈ childNodes m')).
  { intros ->. cbn [snd]. split; [reflexivity|]. split; [reflexivity|].
    exists m. repeat split; auto. }
  destruct v as [|e|name]; try (apply Hsame; reflexivity).
  assert (Hne : e <> e') by congruence.
  destruct (nodes w !! e) as [n|] eqn:He.
  2:{ apply Hsame. rewrite removeEventStore_element, He. reflexivity. }
  clear Hsame. rewrite (removeEventStore_exact host e w n He).
  cbn [snd nodes ActionRefStore callbacks].
  split; [|split; [reflexivity|]].
  - destruct (nonEmpty _); [apply lookup_delete_ne; exact Hne|reflexivity].
  - destruct (isElement n).
    + rewrite list_lookup_fmap, list_lookup_insert_ne, Hm by exact Hne.
      eexists. split; [reflexivity|]. repeat split; try reflexivity.
      * intros c Hc. apply list_elem_of_filter in Hc. tauto.
      * intros c Hc Hce. apply list_elem_of_filter.
        split; [congruence|exact Hc].
    + rewrite list_lookup_insert_ne, Hm by exact Hne.
      exists m. repeat split; auto.
Qed.

Lemma removeEventStore_elsewhere_witness :
  let w := compile (leaf "div") CbUndefined in
  let m := setChildNodes [1] bodyNode in
  let w' := snd (removeEventStore browser (VElement 1) w) in
  VElement 1 <> VElement 0 /\ nodes w !! 0 = Some m /\
  ActionRefStore w' !! 0 = ActionRefStore w !! 0 /\
  callbacks w' = callbacks w /\
  exists m',
    nodes w' !! 0 = Some m' /\
    listeners m' = listeners m /\ attributes m' = attributes m /\
    kind m' = kind m /\ nodeName m' = nodeName m /\
    (forall c, c ∈ childNodes m' -> c ∈ childNodes m) /\
    (forall c, c ∈ childNodes m -> VElement 1 <> VElement c ->
               c ∈ childNodes m').
Proof.
  intros w m w'.
  assert (H1 : VElement 1 <> VElement 0) by discriminate.
  assert (H2 : nodes w !! 0 = Some m) by reflexivity.
  split; [exact H1|]. split; [exact H2|].
  apply (removeEventStore_elsewhere browser (VElement 1) 0 w m H1 H2).
Defined.

Lemma sameListener_refl type h : sameListener type h (type, h) = true.
Proof.
  unfold sameListener. cbn [fst snd].
  rewrite String.eqb_refl, Nat.eqb_refl. reflexivity.
Qed.

(** X9: a listener registered through [registerEventStore] is taken off by
    [removeEventStore]: after the two calls the element has no list in
    [ActionRefStore], the listener is not on the element, and the element
    has no listener that it did not have before. *)
Theorem registered_listener_removed host e type h nodeId w n :
  nodes w !! e = Some n -> isElement n = true -> truthy type = true ->
  let w1 := snd (registerEventStore (Some e) type h nodeId w) in
  let w2 := snd (removeEventStore host (VElement e) w1) in
  ActionRefStore w2 !! e = None /\
  exists n2,
    nodes w2 !! e = Some n2 /\
    ~ In (type, h) (listeners n2) /\
    (forall x, In x (listeners n2) -> In x (listeners n)).
Proof.
  intros He Hel Ht. cbv zeta.
  rewrite (registerEventStore_exact e type h nodeId w n He Ht). cbn [snd].
  assert (Hlt : e < length (nodes w)) by (eapply lookup_lt_Some, He).
  match goal with |- context [removeEventStore host _ ?w0] => set (w1 := w0) end.
  set (n1 := setListeners
               (if existsb (sameListener type h) (listeners n)
                then listeners n else listeners n ++ [(type, h)]) n).
  assert (H1 : nodes w1 !! e = Some n1)
    by (apply list_lookup_insert_eq; exact Hlt).
  rewrite (removeEventStore_exact host e w1 n1 H1).
  change (isElement n1) with (isElement n). rewrite Hel.
  cbn [snd nodes ActionRefStore]. subst w1. cbn [nodes ActionRefStore].
  rewrite lookup_insert_eq. cbn [default].
  set (s := mkSchema type h _).
  split.
  - destruct (default [] (ActionRefStore w !! e)); cbn [app nonEmpty];
      apply lookup_delete_eq.
  - rewrite list_lookup_fmap, list_lookup_insert_eq
      by (rewrite length_insert; exact Hlt).
    eexists. split; [reflexivity|].
    cbn [detached listeners setChildNodes setListeners].
    assert (Hs : forall x l0,
               In x (strip (l0 ++ [s]) (listeners n1)) ->
               x <> (type, h) /\ In x (listeners n)).
    { intros x l0 Hx. apply strip_elem in Hx as [Hin Hall].
      apply Forall_app in Hall as [_ Hall]. apply Forall_inv in Hall.
      cbn [s sc_type sc_handler] in Hall.
      assert (Hxne : x <> (type, h)).
      { intros ->. rewrite sameListener_refl in Hall. discriminate. }
      split; [exact Hxne|].
      subst n1. cbn [listeners setListeners] in Hin.
      destruct (existsb _ _); [exact Hin|].
      apply in_app_or in Hin as [Hin | [<- | []]]; [exact Hin|congruence]. }
    split.
    + intros Hx. apply Hs in Hx as [Hx _]. congruence.
    + intros x Hx. apply Hs in Hx as [_ Hx]. exact Hx.
Qed.

Lemma registered_listener_removed_witness :
  let w1 := snd (registerEventStore (Some 0) "click" 7 None initial) in
  let w2 := snd (removeEventStore browser (VElement 0) w1) in
  nodes initial !! 0 = Some bodyNode /\ isElement bodyNode = true /\
  truthy "click" = true /\
  ActionRefStore w2 !! 0 = None /\
  exists n2,
    nodes w2 !! 0 = Some n2 /\
    ~ In ("click", 7) (listeners n2) /\
    (forall x, In x (listeners n2) -> In x (listeners bodyNode)).
Proof.
  intros w1 w2. split; [reflexivity|]. split; [reflexivity|].
  split; [reflexivity|].
  apply (registered_listener_removed browser 0 "click" 7 None initial bodyNode);
    reflexivity.
Defined.

(** ** [ActionRefStore] and the listeners of the document *)

Lemma extends_refl w : extends w w.
Proof. split; [lia|]. split; [reflexivity|]. eauto. Qed.

Lemma extends_trans w1 w2 w3 : extends w1 w2 -> extends w2 w3 -> extends w1 w3.
Proof.
  intros (L1 & A1 & N1) (L2 & A2 & N2). split; [lia|]. split; [congruence|].
  intros e n Hn. destruct (N1 e n Hn) as (n1 & Hn1 & E1).
  destruct (N2 e n1 Hn1) as (n2 & Hn2 & E2). exists n2. split; congruence.
Qed.

Lemma extends_grows w w' : extends w w' -> grows w w'.
Proof.
  intros (L & A & N). split; [exact L|]. intros Hr e l Hl. rewrite A in Hl.
  destruct (Hr e l Hl) as (Hne & n & Hn & Hall). split; [exact Hne|].
  destruct (N e n Hn) as (n' & Hn' & E). exists n'. split; [exact Hn'|].
  rewrite E. exact Hall.
Qed.

Lemma grows_refl w : grows w w.
Proof. split; [lia|auto]. Qed.

Lemma grows_trans w1 w2 w3 : grows w1 w2 -> grows w2 w3 -> grows w1 w3.
Proof. intros [L1 R1] [L2 R2]. split; [lia|auto]. Qed.

Lemma extends_put e n n' w :
  nodes w !! e = Some n -> listeners n' = listeners n ->
  extends w (withNodes (fun ns => <[e := n']> ns) w).
Proof.
  intros He Hl. split; [cbn; rewrite length_insert; lia|].
  split; [reflexivity|]. intros i m Hm. cbn.
  destruct (decide (i = e)) as [->|Hne].
  - exists n'. split; [apply list_lookup_insert_eq; eapply lookup_lt_Some, He|].
    congruence.
  - exists m. split; [|reflexivity]. rewrite list_lookup_insert_ne by congruence.
    exact Hm.
Qed.

Lemma extends_allocated n w : extends w (allocated n w).
Proof.
  split; [cbn; rewrite length_app; lia|]. split; [reflexivity|].
  intros e m Hm. exists m. split; [|reflexivity]. cbn.
  apply lookup_app_l_Some, Hm.
Qed.

Lemma extends_same w w' :
  nodes w' = nodes w -> ActionRefStore w' = ActionRefStore w -> extends w w'.
Proof.
  intros Hn Ha. split; [rewrite Hn; lia|]. split; [exact Ha|].
  intros e n He. exists n. rewrite Hn. auto.
Qed.

Lemma attrsOnly_extends e w w' : attrsOnly e w w' -> extends w w'.
Proof.
  intros (L & O & E & A & _). split; [lia|]. split; [exact A|].
  intros i n Hn. destruct (decide (i = e)) as [->|Hne].
  - destruct (E n Hn) as [l Hl]. eexists. split; [exact Hl|reflexivity].
  - exists n. split; [|reflexivity]. rewrite O by exact Hne. exact Hn.
Qed.

Lemma steady_ret {A} (P : World -> Prop) (a : A) (Q : A -> World -> Prop) :
  (forall w, P w -> Q a w) -> steady P (ret a) Q.
Proof. intros H w Hw. split; [apply grows_refl|apply H, Hw]. Qed.

Lemma steady_throw {A} (P : World -> Prop) (Q : A -> World -> Prop) :
  steady P throw Q.
Proof. intros w _. split; [apply grows_refl|exact I]. Qed.

Lemma steady_bind {A B} (P : World -> Prop) (m : JS A) (k : A -> JS B)
  (Q : A -> World -> Prop) (R : B -> World -> Prop) :
  steady P m Q -> (forall a, steady (Q a) (k a) R) -> steady P (bind m k) R.
Proof.
  intros Hm Hk w Hw. unfold bind. destruct (Hm w Hw) as [G1 Q1].
  destruct (m w) as [[a|] w1]; cbn [fst snd] in *.
  - destruct (Hk a w1 Q1) as [G2 Q2].
    split; [eapply grows_trans; eassumption|exact Q2].
  - split; [exact G1|exact I].
Qed.

Lemma steady_try {A} (P : World -> Prop) (m h : JS A)
  (Q : A -> World -> Prop) :
  steady P m Q -> steady (fun _ => True) h Q -> steady P (try_catch m h) Q.
Proof.
  intros Hm Hh w Hw. unfold try_catch. destruct (Hm w Hw) as [G1 Q1].
  destruct (m w) as [[a|] w1]; cbn [fst snd] in *.
  - split; [exact G1|exact Q1].
  - destruct (Hh w1 I) as [G2 Q2].
    split; [eapply grows_trans; eassumption|exact Q2].
Qed.

Lemma steady_weaken {A} (P P' : World -> Prop) (m : JS A)
  (Q Q' : A -> World -> Prop) :
  steady P m Q -> (forall w, P' w -> P w) -> (forall a w, Q a w -> Q' a w) ->
  steady P' m Q'.
Proof.
  intros Hm HP HQ w Hw. destruct (Hm w (HP w Hw)) as [G1 Q1].
  split; [exact G1|]. destruct (fst (m w)); [apply HQ, Q1|exact I].
Qed.

Lemma steady_when (P : World -> Prop) (c : bool) (m : JS unit)
  (Q : unit -> World -> Prop) :
  steady P m Q -> (forall w, P w -> Q tt w) -> steady P (when c m) Q.
Proof. intros Hm H. destruct c; [exact Hm|apply steady_ret, H]. Qed.

(** A node of the document is still one after a steady step. *)
Lemma steady_below {A} (r : option elem) (P : World -> Prop) (m : JS A)
  (Q : A -> World -> Prop) :
  steady P m Q ->
  steady (fun w => P w /\ below r w) m (fun a w => Q a w /\ below r w).
Proof.
  intros Hm w [Hw Hr]. destruct (Hm w Hw) as [G1 Q1]. split; [exact G1|].
  destruct (fst (m w)); [|exact I]. split; [exact Q1|].
  intros e He. specialize (Hr e He). destruct G1 as [L _]. lia.
Qed.

(** A step that completes and only extends the world. *)
Lemma steady_extends {A} (P : World -> Prop) (m : JS A)
  (Q : A -> World -> Prop) :
  (forall w, P w -> extends w (snd (m w)) /\
     match fst (m w) with Normal a => Q a (snd (m w)) | Throw => True end) ->
  steady P m Q.
Proof.
  intros H w Hw. destruct (H w Hw) as [E Hq].
  split; [apply extends_grows, E|exact Hq].
Qed.

Lemma steady_fromLastAt {A} (P : World -> Prop) (body : nat -> A -> JS unit) :
  (forall i x, steady P (body i x) (fun _ => P)) ->
  forall l i, steady P (fromLastAt body i l) (fun _ => P).
Proof.
  intros Hb. induction l as [|x r IH]; intros i; cbn [fromLastAt].
  - apply steady_ret. auto.
  - eapply steady_bind; [apply IH|]. intros u. apply Hb.
Qed.

Lemma addListener_spec type h (ls : list (string * handler)) :
  let ls' := if existsb (sameListener type h) ls then ls
             else ls ++ [(type, h)] in
  In (type, h) ls' /\ forall x, In x ls -> In x ls'.
Proof.
  cbv zeta. destruct (existsb (sameListener type h) ls) eqn:Hex.
  - split; [|auto]. apply existsb_exists in Hex as (x & Hx & Hs).
    unfold sameListener in Hs. apply andb_prop in Hs as [H1 H2].
    apply String.eqb_eq in H1. apply Nat.eqb_eq in H2.
    destruct x as [t0 h0]. cbn [fst snd] in *. subst. exact Hx.
  - split; [apply in_or_app; right; left; reflexivity|].
    intros x Hx. apply in_or_app. left. exact Hx.
Qed.

Lemma registerEventStore_falsy el type h nodeId w :
  el = None \/ truthy type = false ->
  registerEventStore el type h nodeId w = (Normal tt, w).
Proof.
  unfold registerEventStore, try_catch, when.
  intros [-> | Ht]; [reflexivity|]. rewrite Ht. destruct el; reflexivity.
Qed.

Lemma grows_registerEventStore el type h nodeId w :
  below el w -> grows w (snd (registerEventStore el type h nodeId w)).
Proof.
  intros Hb. destruct el as [e|];
    [|rewrite registerEventStore_falsy by auto; apply grows_refl].
  destruct (truthy type) eqn:Ht;
    [|rewrite registerEventStore_falsy by auto; apply grows_refl].
  destruct (lookup_lt_is_Some_2 (nodes w) e (Hb e eq_refl)) as [n He].
  rewrite (registerEventStore_exact e type h nodeId w n He Ht). cbn [snd].
  split; [cbn; rewrite length_insert; lia|].
  intros Hr e' l' Hl'. cbn [ActionRefStore nodes] in *.
  destruct (addListener_spec type h (listeners n)) as [Hnew Hold].
  destruct (decide (e' = e)) as [->|Hne].
  - rewrite lookup_insert_eq in Hl'. injection Hl' as <-.
    split; [destruct (default [] _); discriminate|].
    eexists. split; [apply list_lookup_insert_eq; eapply lookup_lt_Some, He|].
    cbn [listeners setListeners]. apply Forall_app. split.
    + destruct (ActionRefStore w !! e) as [l0|] eqn:Hl0; [|constructor].
      destruct (Hr e l0 Hl0) as (_ & n0 & Hn0 & Hall).
      rewrite He in Hn0. injection Hn0 as <-. cbn [default].
      eapply Forall_impl; [exact Hall|]. intros item Hi. apply Hold, Hi.
    + constructor; [exact Hnew|constructor].
  - rewrite lookup_insert_ne in Hl' by congruence.
    destruct (Hr e' l' Hl') as (Hnil & n' & Hn' & Hall).
    split; [exact Hnil|]. exists n'. split; [|exact Hall].
    rewrite list_lookup_insert_ne by congruence. exact Hn'.
Qed.

Lemma grows_removeEventStore host v w :
  grows w (snd (removeEventStore host v w)).
Proof.
  destruct v as [|e|name]; try apply grows_refl.
  destruct (nodes w !! e) as [n|] eqn:He.
  2:{ rewrite removeEventStore_element, He. apply grows_refl. }
  rewrite (removeEventStore_exact host e w n He). cbn [snd].
  split.
  { cbn [nodes]. destruct (isElement n);
      rewrite ?length_fmap, length_insert; lia. }
  intros Hr e' l' Hl'. cbn [ActionRefStore nodes] in *.
  assert (Hne : e' <> e).
  { intros ->. revert Hl'.
    destruct (ActionRefStore w !! e) as [l0|] eqn:Hl0.
    - destruct (Hr e l0 Hl0) as (Hnil & _). destruct l0; [congruence|].
      cbn. rewrite lookup_delete_eq. discriminate.
    - cbn. congruence. }
  assert (Hl : ActionRefStore w !! e' = Some l').
  { destruct (nonEmpty _); [|exact Hl'].
    rewrite lookup_delete_ne in Hl' by congruence. exact Hl'. }
  destruct (Hr e' l' Hl) as (Hnil & n' & Hn' & Hall).
  split; [exact Hnil|]. destruct (isElement n).
  - exists (detached e n'). split; [|exact Hall].
    rewrite list_lookup_fmap, list_lookup_insert_ne, Hn' by congruence.
    reflexivity.
  - exists n'. split; [|exact Hall].
    rewrite list_lookup_insert_ne by congruence. exact Hn'.
Qed.

Lemma extends_addElement host key value w :
  extends w (snd (addElement host key value w)).
Proof.
  destruct value as [e|]; [|apply extends_refl].
  destruct (addElement_spec host key e w) as [w' [E [-> | [f ->]]]];
    rewrite E; cbn [snd]; [apply extends_refl|].
  apply extends_same; reflexivity.
Qed.

Lemma grows_removeElement host key mode w :
  grows w (snd (removeElement host key mode w)).
Proof.
  unfold removeElement, removeElementWith, try_catch, modeTypes.
  destruct (truthy key && (1 <=? mode)%Z); [|apply grows_refl].
  destruct (mode =? 1)%Z.
  - unfold bind. destruct (store_get host key w) as [[v|] w1] eqn:Hg.
    + assert (Hw : w1 = w).
      { revert Hg. unfold store_get.
        repeat match goal with
               | |- context [match ?x with _ => _ end] => destruct x
               end; congruence. }
      subst w1.
      pose proof (grows_removeEventStore host v w) as G.
      destruct (removeEventStore host v w) as [[[]|] w2]; exact G.
    + assert (Hw : w1 = w).
      { revert Hg. unfold store_get.
        repeat match goal with
               | |- context [match ?x with _ => _ end] => destruct x
               end; congruence. }
      subst w1. apply grows_refl.
  - destruct (mode =? 2)%Z; [|apply grows_refl].
    apply extends_grows, extends_same; reflexivity.
Qed.

Lemma recorded_initial : recorded initial.
Proof. intros e l Hl. cbn in Hl. rewrite lookup_empty in Hl. discriminate. Qed.

(** X10: the operations of the two stores keep [ActionRefStore] in step
    with the document: if, before the call, every list of [ActionRefStore]
    is non-empty and made of records that are listeners of a node of the
    document, the same holds after [registerEventStore] (called on a node of
    the document), [removeEventStore], [addElement] and [removeElement]. *)
Theorem stores_keep_recorded host w :
  recorded w ->
  (forall e type h nodeId, e < length (nodes w) ->
     recorded (snd (registerEventStore (Some e) type h nodeId w))) /\
  (forall v, recorded (snd (removeEventStore host v w))) /\
  (forall key value, recorded (snd (addElement host key value w))) /\
  (forall key mode, recorded (snd (removeElement host key mode w))).
Proof.
  intros Hr. split; [|split; [|split]].
  - intros e type h nodeId He.
    apply (grows_registerEventStore (Some e) type h nodeId w); [|exact Hr].
    intros e' [= <-]. exact He.
  - intros v. apply (grows_removeEventStore host v w), Hr.
  - intros key value.
    apply (extends_grows _ _ (extends_addElement host key value w)), Hr.
  - intros key mode. apply (grows_removeElement host key mode w), Hr.
Qed.

Lemma stores_keep_recorded_witness :
  recorded initial /\
  (forall e type h nodeId, e < length (nodes initial) ->
     recorded (snd (registerEventStore (Some e) type h nodeId initial))) /\
  (forall v, recorded (snd (removeEventStore browser v initial))) /\
  (forall key value, recorded (snd (addElement browser key value initial))) /\
  (forall key mode, recorded (snd (removeElement browser key mode initial))).
Proof.
  split; [exact recorded_initial|].
  apply (stores_keep_recorded browser initial recorded_initial).
Defined.

Section Steady.

Variable host : Host.
Variable EventActions : string -> option handler.

Lemma steady_buildElement data :
  steady (fun _ => True) (buildElement host data) below.
Proof.
  apply steady_extends. intros w _.
  destruct (validElementName host (typeName data)) eqn:Hv.
  - destruct (buildElement_valid host data w Hv) as (w' & E & A & X).
    rewrite E. cbn [fst snd]. split.
    + eapply extends_trans; [apply extends_allocated|].
      apply attrsOnly_extends in A. exact A.
    + intros e [= <-]. eapply lookup_lt_Some, X.
  - rewrite (buildElement_invalid host data w Hv). cbn [fst snd].
    split; [apply extends_refl|]. intros e. discriminate.
Qed.

Lemma steady_createElementNS data :
  steady (fun _ => True) (createElementNS host data) below.
Proof.
  apply steady_extends. intros w _.
  destruct (validQualifiedName host (typeName data)) eqn:Hv.
  - destruct (createElementNS_valid host data w Hv) as (w' & E & A & X).
    rewrite E. cbn [fst snd]. split.
    + eapply extends_trans; [apply extends_allocated|].
      apply attrsOnly_extends in A. exact A.
    + intros e [= <-]. eapply lookup_lt_Some, X.
  - rewrite (createElementNS_invalid host data w Hv). cbn [fst snd].
    split; [apply extends_refl|]. intros e. discriminate.
Qed.

Lemma steady_getNode (P : World -> Prop) e :
  steady P (getNode e) (fun n w => P w /\ nodes w !! e = Some n).
Proof.
  intros w Hw. unfold getNode. destruct (nodes w !! e) eqn:He; cbn [fst snd];
    (split; [apply grows_refl|auto]).
Qed.

Lemma steady_appendChild (P : World -> Prop) p c :
  steady P (appendChild p c) (fun _ _ => True).
Proof.
  apply steady_extends. intros w _. destruct c as [c|];
    [|split; [apply extends_refl|exact I]].
  unfold appendChild, bind, getNode, putNode.
  destruct (nodes w !! p) as [n|] eqn:Hp; cbn [fst snd];
    [|split; [apply extends_refl|exact I]].
  split; [|exact I]. apply (extends_put p n); [exact Hp|reflexivity].
Qed.

Lemma steady_getElement (P : World -> Prop) key :
  steady P (getElement host key) (fun _ => P).
Proof.
  intros w Hw. pose proof (getElement_world host key w) as H.
  destruct (getElement host key w) as [[v|] w']; cbn [fst snd] in *; subst w';
    (split; [apply grows_refl|auto]).
Qed.

Lemma steady_attachShadow e mode :
  steady (fun _ => True) (attachShadow host e mode)
         (fun s w => s < length (nodes w)).
Proof.
  apply steady_extends. intros w _.
  unfold attachShadow, bind, getNode, allocNode, putNode, ret.
  destruct (nodes w !! e) as [n|] eqn:He; cbn [fst snd];
    [|split; [apply extends_refl|exact I]].
  destruct (_ && _); cbn [fst snd]; [|split; [apply extends_refl|exact I]].
  split.
  - eapply extends_trans;
      [apply (extends_allocated (freshNode ShadowRoot mode))|].
    apply (extends_put e n); [|reflexivity].
    cbn. apply lookup_app_l_Some, He.
  - cbn. rewrite length_insert, length_app. cbn. lia.
Qed.

Lemma steady_boundary shadow c :
  steady (below c) (boundary host shadow c) below.
Proof.
  unfold boundary. destruct (truthyOpt shadow); [|apply steady_ret; auto].
  destruct c as [c|]; [|apply steady_throw].
  eapply steady_bind; [apply steady_getNode|]. intros n. cbn beta.
  destruct (truthyOpt (dataset_state n));
    [|apply steady_ret; intros w [H _]; exact H].
  eapply steady_bind; [apply steady_getElement|]. intros v. cbn beta.
  destruct v as [|e|name]; try apply steady_throw.
  eapply steady_bind.
  { eapply steady_weaken;
      [apply steady_attachShadow|intros w0 H0; exact I|].
    intros s w Hs. exact Hs. }
  intros s. apply steady_ret. intros w Hs e' [= <-]. exact Hs.
Qed.

Lemma steady_createHTMLElement data :
  steady (fun _ => True) (createHTMLElement host data) below.
Proof.
  unfold createHTMLElement.
  apply steady_try; [|apply steady_ret; intros w _ e; discriminate].
  eapply steady_bind; [apply steady_buildElement|]. intros c.
  eapply steady_bind with (Q := fun _ => below c).
  - destruct (b_parent data) as [| |p|d].
    + eapply steady_weaken; [apply (steady_below c), steady_appendChild| |];
        [intros w H; split; [exact I|exact H]|intros a w [_ H]; exact H].
    + eapply steady_weaken; [apply (steady_below c), steady_appendChild| |];
        [intros w H; split; [exact I|exact H]|intros a w [_ H]; exact H].
    + eapply steady_weaken; [apply (steady_below c), steady_appendChild| |];
        [intros w H; split; [exact I|exact H]|intros a w [_ H]; exact H].
    + eapply steady_bind with (Q := fun _ => below c).
      * eapply steady_weaken;
          [apply (steady_below c), steady_buildElement| |];
          [intros w H; split; [exact I|exact H]|intros a w [_ H]; exact H].
      * intros pe. destruct pe as [pe|]; [|apply steady_throw].
        eapply steady_weaken; [apply (steady_below c), steady_appendChild| |];
          [intros w H; split; [exact I|exact H]|intros a w [_ H]; exact H].
  - intros u. apply steady_boundary.
Qed.

Lemma steady_createSVGElement data :
  steady (fun _ => True) (createSVGElement host data) below.
Proof.
  unfold createSVGElement.
  apply steady_try; [|apply steady_ret; intros w _ e; discriminate].
  eapply steady_bind; [apply steady_createElementNS|]. intros c.
  eapply steady_bind with (Q := fun _ => below c);
    [|intros u; apply steady_ret; auto].
  assert (Happ : forall p, steady (below c) (appendChild p c) (fun _ => below c)).
  { intros p.
    eapply steady_weaken; [apply (steady_below c), steady_appendChild| |];
      [intros w H; split; [exact I|exact H]|intros a w [_ H]; exact H]. }
  assert (Hvia : forall d,
             steady (below c)
               (let* parentElement := createElementNS host d in
                match parentElement with
                | Some pe => appendChild pe c
                | None => throw
                end) (fun _ => below c)).
  { intros d. eapply steady_bind with (Q := fun _ => below c).
    - eapply steady_weaken;
        [apply (steady_below c), steady_createElementNS| |];
        [intros w H; split; [exact I|exact H]|intros a w [_ H]; exact H].
    - intros pe. destruct pe as [pe|]; [apply Happ|apply steady_throw]. }
  destruct (b_parent data) as [| |p|d].
  - apply steady_ret. auto.
  - apply steady_ret. auto.
  - eapply steady_bind; [apply steady_getNode|]. intros n.
    destruct (isElement n).
    + eapply steady_weaken; [apply Happ|intros w [H _]; exact H|auto].
    + eapply steady_weaken; [apply Hvia|intros w [H _]; exact H|auto].
  - apply Hvia.
Qed.

Lemma steady_TypeSelect type data :
  steady (fun _ => True) (TypeSelect host type data) below.
Proof.
  unfold TypeSelect. destruct (_ && _);
    [apply steady_createSVGElement|apply steady_createHTMLElement].
Qed.

Lemma steady_assign_textContent (P : World -> Prop) el s :
  steady P (assign_textContent el s) (fun _ _ => True).
Proof.
  apply steady_extends. intros w _. unfold assign_textContent.
  destruct el as [e|]; [|split; [apply extends_refl|exact I]].
  unfold bind, getNode, putNode.
  destruct (nodes w !! e) as [n|] eqn:He; cbn [fst snd];
    [|split; [apply extends_refl|exact I]].
  split; [|exact I]. apply (extends_put e n); [exact He|reflexivity].
Qed.

Lemma steady_assign_innerHTML (P : World -> Prop) el s :
  steady P (assign_innerHTML el s) (fun _ _ => True).
Proof.
  apply steady_extends. intros w _. unfold assign_innerHTML.
  destruct el as [e|]; [|split; [apply extends_refl|exact I]].
  unfold bind, getNode, putNode.
  destruct (nodes w !! e) as [n|] eqn:He; cbn [fst snd];
    [|split; [apply extends_refl|exact I]].
  split; [|exact I]. apply (extends_put e n); [exact He|reflexivity].
Qed.

Lemma steady_call_cb (P : World -> Prop) cb :
  steady P (call_cb cb) (fun _ _ => True).
Proof.
  apply steady_extends. intros w _. destruct cb; cbn [call_cb fst snd ret];
    (split; [|exact I]); [apply extends_refl|].
  apply extends_same; reflexivity.
Qed.

Lemma steady_registerEventStore el type h nodeId :
  steady (below el) (registerEventStore el type h nodeId) (fun _ _ => True).
Proof.
  intros w Hb. split; [apply grows_registerEventStore, Hb|].
  destruct (fst _); exact I.
Qed.

Lemma steady_createEventElement struct el :
  steady (below el) (createEventElement EventActions struct el)
         (fun _ _ => True).
Proof.
  unfold createEventElement.
  destruct (event struct) as [ev|]; [|apply steady_ret; auto].
  destruct (_ && _); [|apply steady_ret; auto].
  destruct (EventActions _); [|apply steady_ret; auto].
  apply steady_registerEventStore.
Qed.

Section Recursion.

Variable rec : Struct -> ParentArg -> Callback -> JS (Struct * ReturnValue).

Lemma steady_declaredLoop el cb l :
  Forall (fun c => forall parent cb',
            steady (fun _ => True) (rec c parent cb') (fun _ _ => True)) l ->
  steady (fun _ => True) (declaredLoop rec el cb l) (fun _ _ => True).
Proof.
  induction 1 as [|c r Hc _ IH]; cbn [declaredLoop];
    [apply steady_ret; auto|].
  eapply steady_bind; [apply Hc|]. intros [c' rc]. cbn beta.
  destruct r as [|d r'].
  - eapply steady_bind; [apply steady_call_cb|]. intros rv.
    apply steady_ret. auto.
  - eapply steady_bind; [apply IH|]. intros [rest' rv].
    apply steady_ret. auto.
Qed.

Lemma steady_createChildren struct el cb :
  (forall l, children struct = Some l ->
     Forall (fun c => forall parent cb',
               steady (fun _ => True) (rec c parent cb') (fun _ _ => True)) l) ->
  steady (fun _ => True) (createChildren rec struct el cb) (fun _ _ => True).
Proof.
  intros H. unfold createChildren. destruct (children struct) as [l|].
  - eapply steady_bind; [apply steady_declaredLoop, H; reflexivity|].
    intros [array' r]. apply steady_ret. auto.
  - eapply steady_bind; [apply steady_call_cb|]. intros r.
    apply steady_ret. auto.
Qed.

End Recursion.

Lemma steady_createFromStruct_object struct :
  forall parent cb,
    steady (fun _ => True)
           (createFromStruct_object host EventActions struct parent cb)
           (fun _ _ => True).
Proof.
  induction struct as [struct IH] using Struct_ind. intros parent cb.
  rewrite createFromStruct_object_unfold.
  apply steady_try; [|apply steady_ret; auto].
  destruct (truthyOpt (element struct)); [|apply steady_ret; auto].
  eapply steady_bind; [apply steady_TypeSelect|]. intros el.
  eapply steady_bind with (Q := fun _ => below el).
  { apply steady_when; [|auto].
    eapply steady_weaken;
      [apply (steady_below el), (steady_assign_textContent (fun _ => True))| |];
      [intros w H; split; [exact I|exact H]|intros a w [_ H]; exact H]. }
  intros u1.
  eapply steady_bind with (Q := fun _ => below el).
  { apply steady_when; [|auto].
    eapply steady_weaken;
      [apply (steady_below el), (steady_assign_innerHTML (fun _ => True))| |];
      [intros w H; split; [exact I|exact H]|intros a w [_ H]; exact H]. }
  intros u2.
  eapply steady_bind; [apply steady_createEventElement|]. intros u3.
  eapply steady_weaken; [apply steady_createChildren|auto|auto].
  intros l Hl. specialize (IH l Hl). exact IH.
Qed.

Lemma steady_createFromStruct data cb :
  steady (fun _ => True) (createFromStruct host EventActions data cb)
         (fun _ _ => True).
Proof.
  unfold createFromStruct.
  destruct (String.eqb (typeof data) "object"); [|apply steady_ret; auto].
  destruct data as [| | | | | |[struct|] parent];
    try (apply steady_try; [apply steady_throw|apply steady_ret; auto]);
    [|apply steady_ret; auto].
  eapply steady_bind; [apply steady_createFromStruct_object|].
  intros [struct' r]. apply steady_ret. auto.
Qed.

(** X11: a compile call keeps [ActionRefStore] in step with the document,
    whatever the description, the parent and the callback: every list of
    [ActionRefStore] is still non-empty and made of records that are
    listeners of a node of the document; and the document never loses a
    node. *)
Theorem createFromStruct_keeps_recorded data cb w :
  recorded w ->
  recorded (snd (createFromStruct host EventActions data cb w)) /\
  length (nodes w) <=
    length (nodes (snd (createFromStruct host EventActions data cb w))).
Proof.
  intros Hr. destruct (steady_createFromStruct data cb w I) as [[L R] _].
  split; [apply R, Hr|exact L].
Qed.

End Steady.

Lemma createFromStruct_keeps_recorded_witness :
  let w := snd (registerEventStore (Some 0) "click" 7 None initial) in
  let w' := snd (createFromStruct browser demoActions
                   (AData (Some resolvedScenario) PUndefined) CbFunction w) in
  recorded w /\
  ActionRefStore w !! 0 = Some [mkSchema "click" 7 None] /\
  ActionRefStore w' !! 0 = Some [mkSchema "click" 7 None] /\
  ActionRefStore w' !! 1 = Some [mkSchema "mousedown" 0 None] /\
  recorded w' /\
  length (nodes w) <= length (nodes w').
Proof.
  intros w w'.
  assert (Hw : recorded w).
  { apply (grows_registerEventStore (Some 0) "click" 7 None initial).
    - intros e [= <-]. cbn. lia.
    - exact recorded_initial. }
  split; [exact Hw|]. split; [reflexivity|]. split; [reflexivity|].
  split; [reflexivity|].
  apply (createFromStruct_keeps_recorded browser demoActions _ _ w Hw).
Defined.

(** ** BuildElement *)

Lemma findAttr_upsert_eq a l :
  findAttr (attrName a) (upsertAttr a l) = Some (attrValue a).
Proof.
  unfold findAttr. induction l as [|b r IH]; cbn [upsertAttr find].
  - rewrite String.eqb_refl. reflexivity.
  - destruct (String.eqb (attrName b) (attrName a)) eqn:Hb; cbn [find].
    + rewrite String.eqb_refl. reflexivity.
    + rewrite Hb. exact IH.
Qed.

Lemma findAttr_upsert_ne name a l :
  attrName a <> name -> findAttr name (upsertAttr a l) = findAttr name l.
Proof.
  intros Hne. apply String.eqb_neq in Hne.
  unfold findAttr. induction l as [|b r IH]; cbn [upsertAttr find].
  - rewrite Hne. reflexivity.
  - destruct (String.eqb (attrName b) (attrName a)) eqn:Hb; cbn [find].
    + apply String.eqb_eq in Hb. rewrite Hb, Hne. reflexivity.
    + destruct (String.eqb (attrName b) name); [reflexivity|exact IH].
Qed.

(** X12: [setAttr] never throws, and of the entries of its array the first
    one with a given name decides the value of the attribute: the array is
    read from its last entry to its first, so that an earlier entry
    overwrites a later one.  Entries with an empty or refused name before or
    after it do not matter. *)
Theorem setAttr_first_entry_wins host e l1 name value l2 w n :
  nodes w !! e = Some n -> isElement n = true ->
  truthy name = true -> validAttributeName host name = true ->
  Forall (fun item => attrKey (kind n) (fst item) <> attrKey (kind n) name) l1 ->
  let out := setAttr host e (l1 ++ (name, value) :: l2) w in
  fst out = Normal tt /\
  exists n',
    nodes (snd out) !! e = Some n' /\
    findAttr (attrKey (kind n) name) (attributes n') = Some value.
Proof.
  intros He Hel Hname Hvalid Hl1. cbv zeta.
  destruct (setAttr_exact host e (l1 ++ (name, value) :: l2) w n He Hel)
    as (w' & E & N).
  rewrite E. cbn [fst snd]. split; [reflexivity|].
  eexists. split; [exact N|]. cbn [attributes setAttributes].
  rewrite foldr_app. cbn [foldr]. clear E N.
  set (acc := foldr (writeAttr host (kind n)) (attributes n) l2).
  induction Hl1 as [|item r Hi _ IH]; cbn [foldr].
  - unfold writeAttr. cbn [fst snd]. rewrite Hname, Hvalid. cbn [andb].
    apply (findAttr_upsert_eq (mkAttr (attrKey (kind n) name) value
                                      ViaSetAttribute)).
  - unfold writeAttr at 1.
    destruct (truthy (fst item) && validAttributeName host (fst item));
      [|exact IH].
    rewrite findAttr_upsert_ne; [exact IH|exact Hi].
Qed.

Lemma setAttr_first_entry_wins_witness :
  let w := compile (leaf "div") CbUndefined in
  let n := freshNode HTMLElement "div" in
  let out :=
    setAttr browser 1 ([("", "x"); ("id", "a")] ++ ("Class", "b") ::
                       [("class", "c")]) w in
  nodes w !! 1 = Some n /\ isElement n = true /\
  truthy "Class" = true /\ validAttributeName browser "Class" = true /\
  Forall (fun item => attrKey (kind n) (fst item) <> attrKey (kind n) "Class")
         [("", "x"); ("id", "a")] /\
  fst out = Normal tt /\
  exists n',
    nodes (snd out) !! 1 = Some n' /\
    findAttr "class" (attributes n') = Some "b".
Proof.
  intros w n out.
  assert (H5 : Forall (fun item => attrKey (kind n) (fst item)
                                   <> attrKey (kind n) "Class")
                      [("", "x"); ("id", "a")])
    by (repeat constructor; discriminate).
  repeat (split; [first [reflexivity | exact H5]|]).
  apply (setAttr_first_entry_wins browser 1 [("", "x"); ("id", "a")]
           "Class" "b" [("class", "c")] w n);
    first [reflexivity | exact H5].
Defined.

Lemma setData_keepsStore host e l w :
  Forall (fun item => fst item <> "state") l ->
  exists w', setData host e l w = (Normal tt, w') /\ keepsStore e w w'.
Proof.
  intros Hl. unfold setData, fromLast.
  apply (fromLastAt_inv_on (fun item => String.eqb (fst item) "state" = false)
           (keepsStore e) (fun _ => setData_item host e)
           (keepsStore_refl e) (keepsStore_trans e)
           (fun _ y w0 Hy => setData_item_other host e y w0 Hy)).
  eapply Forall_impl; [exact Hl|]. intros item Hi. cbn beta.
  apply String.eqb_neq. exact Hi.
Qed.

Lemma decorate_keepsStore host withNS data e w :
  Forall (fun item => fst item <> "state") (d_dataset data) ->
  ElementRefStore (snd (decorate host withNS data e w)) = ElementRefStore w.
Proof.
  intros Hd. unfold decorate, bind, when.
  assert (H1 : exists w1,
             (if nonEmpty (d_attr data)
              then setAttr host e (d_attr data) else ret tt) w = (Normal tt, w1)
             /\ ElementRefStore w1 = ElementRefStore w).
  { destruct (nonEmpty (d_attr data)).
    - destruct (setAttr_spec host e (d_attr data) w) as [w1 [E [_ S]]]. eauto.
    - exists w. split; reflexivity. }
  destruct H1 as [w1 [E1 S1]]. rewrite E1.
  assert (H2 : exists w2,
             (if withNS
              then if nonEmpty (d_attrNS data)
                   then setAttrNS host e (d_attrNS data) else ret tt
              else ret tt) w1 = (Normal tt, w2)
             /\ ElementRefStore w2 = ElementRefStore w1).
  { destruct withNS, (nonEmpty (d_attrNS data));
      try (exists w1; split; reflexivity).
    destruct (setAttrNS_spec host e (d_attrNS data) w1) as [w2 [E [_ S]]].
    eauto. }
  destruct H2 as [w2 [E2 S2]]. rewrite E2.
  destruct (nonEmpty (d_dataset data)).
  - destruct (setData_keepsStore host e (d_dataset data) w2 Hd)
      as [w3 [E3 [_ S3]]].
    rewrite E3. cbn [snd ret]. congruence.
  - cbn [snd ret]. congruence.
Qed.

(** X13: the two element builders write into [ElementRefStore] only for a
    [state] tag: building an element whose dataset has no entry named
    [state] leaves [ElementRefStore] exactly as it was, whether or not the
    element could be built. *)
Theorem build_without_state_tag host data w :
  Forall (fun item => fst item <> "state") (d_dataset data) ->
  ElementRefStore (snd (buildElement host data w)) = ElementRefStore w /\
  ElementRefStore (snd (createElementNS host data w)) = ElementRefStore w.
Proof.
  intros Hd. split.
  - rewrite buildElement_unfold. unfold try_catch, bind, createElement.
    destruct (validElementName host (typeName data)); [|reflexivity].
    unfold allocNode.
    match goal with |- context [decorate host false data ?e ?w0] =>
      pose proof (decorate_keepsStore host false data e w0 Hd) as H;
      destruct (decorate host false data e w0) as [[r|] w1] end;
      cbn [snd] in *; exact H.
  - rewrite createElementNS_unfold. unfold try_catch, bind, createElementNS_svg.
    destruct (validQualifiedName host (typeName data)); [|reflexivity].
    unfold allocNode.
    match goal with |- context [decorate host true data ?e ?w0] =>
      pose proof (decorate_keepsStore host true data e w0 Hd) as H;
      destruct (decorate host true data e w0) as [[r|] w1] end;
      cbn [snd] in *; exact H.
Qed.

Lemma build_without_state_tag_witness :
  let data := mkElementData (Some "div") [("id", "a")] [] [("role", "x")] in
  Forall (fun item => fst item <> "state") (d_dataset data) /\
  ElementRefStore (snd (buildElement browser data initial)) =
    ElementRefStore initial /\
  ElementRefStore (snd (createElementNS browser data initial)) =
    ElementRefStore initial.
Proof.
  intros data.
  assert (H : Forall (fun item => fst item <> "state") (d_dataset data))
    by (repeat constructor; discriminate).
  split; [exact H|].
  apply (build_without_state_tag browser data initial H).
Defined.

(** ** CreateElementFromStruct: a node that cannot be built *)

Lemma typeName_elementData struct name :
  element struct = Some name -> typeName (elementData struct) = name.
Proof. intros H. unfold typeName, elementData. cbn. rewrite H. reflexivity. Qed.

(** When the host refuses the element type, the builder gives back
    [undefined] and leaves the world as it was. *)
Lemma TypeSelect_unbuildable host struct parent w :
  truthyOpt (element struct) = true -> buildable host struct = false ->
  (forall d, parent <> PDesc d) ->
  (forall p np, defaultParent parent = PNode p -> nodes w !! p = Some np ->
                isElement np = true) ->
  TypeSelect host (toLowerCase (default EmptyString (element struct)))
    (mkBuildArgs (defaultParent parent) (shadow struct) (elementData struct)) w
  = (Normal None, w).
Proof.
  unfold buildable, truthyOpt, TypeSelect.
  destruct (element struct) as [name|] eqn:Hel; [|discriminate].
  intros Hname Hb Hdesc Hnode. rewrite Hname in Hb. cbn [andb default] in *.
  unfold id.
  change (truthy (toLowerCase name) && String.eqb (toLowerCase name) "svg")
    with (selectsSVG name).
  destruct (selectsSVG name).
  - unfold createSVGElement, try_catch. cbn [b_element b_parent]. unfold bind.
    rewrite createElementNS_invalid
      by (rewrite (typeName_elementData struct name Hel); exact Hb).
    destruct parent as [| |p|d]; cbn [defaultParent] in *;
      [| reflexivity | | destruct (Hdesc d eq_refl)].
    + unfold getNode. destruct (nodes w !! document_body) as [nb|] eqn:Hnb;
        [|reflexivity].
      rewrite (Hnode _ nb eq_refl Hnb). reflexivity.
    + unfold getNode. destruct (nodes w !! p) as [np|] eqn:Hnp;
        [|reflexivity].
      rewrite (Hnode _ np eq_refl Hnp). reflexivity.
  - unfold createHTMLElement, try_catch. cbn [b_element b_parent]. unfold bind.
    rewrite buildElement_invalid
      by (rewrite (typeName_elementData struct name Hel); exact Hb).
    destruct parent as [| |p|d]; cbn [defaultParent];
      [reflexivity | reflexivity | reflexivity | destruct (Hdesc d eq_refl)].
Qed.

(** X14: a node whose element type the host refuses and which carries
    [text] or [html]: under a parent that is a node of the document or
    absent, nothing is built and nothing changes; its children are not
    compiled, the callback is not invoked, and the call returns
    [undefined] without throwing. *)
Theorem unbuildable_with_content host acts struct parent cb w :
  truthyOpt (element struct) = true -> buildable host struct = false ->
  (forall d, parent <> PDesc d) ->
  (forall p np, defaultParent parent = PNode p -> nodes w !! p = Some np ->
                isElement np = true) ->
  truthyOpt (text struct) = true \/ truthyOpt (html struct) = true ->
  createFromStruct host acts (AData (Some struct) parent) cb w =
  (Normal (AData (Some struct) parent, RUndefined), w).
Proof.
  intros Hel Hb Hdesc Hnode Hcontent.
  unfold createFromStruct. cbn [typeof String.eqb Ascii.eqb Bool.eqb].
  unfold bind at 1. rewrite createFromStruct_object_unfold.
  unfold try_catch. rewrite Hel. unfold bind at 1.
  rewrite (TypeSelect_unbuildable host struct parent w Hel Hb Hdesc Hnode).
  unfold bind at 1. unfold when.
  destruct (truthyOpt (text struct)); [reflexivity|].
  destruct Hcontent as [Ht|Hh]; [discriminate|]. rewrite Hh.
  reflexivity.
Qed.

Lemma unbuildable_with_content_witness :
  let struct :=
    mkStruct (Some "my div") [] [] [] (Some "hello") None None
             (Some [leaf "span"]) None in
  truthyOpt (element struct) = true /\ buildable browser struct = false /\
  (forall d, PUndefined <> PDesc d) /\
  (forall p np, defaultParent PUndefined = PNode p ->
                nodes initial !! p = Some np -> isElement np = true) /\
  (truthyOpt (text struct) = true \/ truthyOpt (html struct) = true) /\
  createFromStruct browser demoActions (AData (Some struct) PUndefined)
    CbFunction initial =
  (Normal (AData (Some struct) PUndefined, RUndefined), initial).
Proof.
  intros struct.
  assert (H3 : forall d, PUndefined <> PDesc d) by discriminate.
  assert (H4 : forall p np, defaultParent PUndefined = PNode p ->
                 nodes initial !! p = Some np -> isElement np = true).
  { intros p np [= <-] [= <-]. reflexivity. }
  assert (H5 : truthyOpt (text struct) = true \/ truthyOpt (html struct) = true)
    by (left; reflexivity).
  split; [reflexivity|]. split; [reflexivity|]. split; [exact H3|].
  split; [exact H4|]. split; [exact H5|].
  apply (unbuildable_with_content browser demoActions struct PUndefined
           CbFunction initial eq_refl eq_refl H3 H4 H5).
Defined.

Lemma createEventElement_undefined acts struct w :
  createEventElement acts struct None w = (Normal tt, w).
Proof.
  unfold createEventElement.
  destruct (event struct) as [ev|]; [|reflexivity].
  destruct (_ && _); [|reflexivity].
  destruct (acts _); reflexivity.
Qed.

(** Children compiled with an [undefined] parent go under [document.body]. *)
Lemma declaredLoop_orphans host acts cb l : forall w,
  declaredLoop (createFromStruct_object host acts) None cb l w =
  declaredLoop (createFromStruct_object host acts) (Some document_body) cb l w.
Proof.
  induction l as [|c r IH]; intros w; [reflexivity|].
  cbn [declaredLoop parentOf]. unfold bind.
  assert (Hc : createFromStruct_object host acts c PUndefined cb w =
               createFromStruct_object host acts c (PNode document_body) cb w)
    by (rewrite !createFromStruct_object_unfold; reflexivity).
  rewrite Hc.
  destruct (createFromStruct_object host acts c (PNode document_body) cb w)
    as [[[c' rc]|] w1]; [|reflexivity].
  destruct r as [|d r']; [reflexivity|]. rewrite IH. reflexivity.
Qed.

(** ** CreateElementFromStruct: the callback and the description *)

(** X16: on a description every node of which can be built and asks for no
    rendering boundary, a compile call with a callback invokes it once for
    every node whose [children] is absent or a non-empty array: once per
    leaf without a [children] field and once per parent after its last
    child, and never for a node whose [children] is an empty array. *)
Theorem compile_callback_count host acts struct parent w p np :
  plain host struct = true ->
  defaultParent parent = PNode p ->
  nodes w !! p = Some np ->
  isElement np = true ->
  callbacks (snd (createFromStruct host acts (AData (Some struct) parent)
                    CbFunction w)) =
  callbacks w + invocations struct.
Proof.
  intros Hplain Hpar Hp Hnp.
  destruct (createFromStruct_plain host acts struct parent CbFunction w p np
              Hplain Hpar Hp Hnp) as (r & w' & E & _ & C).
  rewrite E. exact C.
Qed.

Lemma compile_callback_count_witness :
  let s := withChildren "div"
             [leaf "span"; withChildren "ul" [leaf "li"; leaf "li"];
              withChildren "p" []] in
  plain browser s = true /\
  defaultParent PUndefined = PNode 0 /\
  nodes initial !! 0 = Some bodyNode /\
  isElement bodyNode = true /\
  callbacks (snd (createFromStruct browser demoActions
                    (AData (Some s) PUndefined) CbFunction initial)) = 0 + 5.
Proof.
  intros s. repeat (split; [reflexivity|]).
  apply (compile_callback_count browser demoActions s PUndefined initial 0
           bodyNode); reflexivity.
Defined.

Lemma forallb_rev {A} (f : A -> bool) (l : list A) :
  forallb f (rev l) = forallb f l.
Proof.
  induction l as [|x r IH]; [reflexivity|].
  cbn [rev forallb]. rewrite forallb_app, IH. cbn [forallb].
  rewrite andb_true_r. apply andb_comm.
Qed.

Lemma mirror_fields s :
  element (mirror s) = element s /\ shadow (mirror s) = shadow s /\
  children (mirror s) =
    match children s with
    | Some l => Some (rev (map mirror l))
    | None => None
    end.
Proof. rewrite mirror_eq. destruct s; auto. Qed.

Lemma mirror_involutive s : mirror (mirror s) = s.
Proof.
  induction s as [s IH] using Struct_ind.
  rewrite (mirror_eq (mirror s)).
  destruct (mirror_fields s) as (_ & _ & Hc). rewrite Hc.
  rewrite mirror_eq.
  destruct s as [? ? ? ? ? ? ? ch ?]. cbn [children setChildren element attr
    attrNS dataset text html event shadow] in *.
  destruct ch as [l|]; [|reflexivity].
  assert (Hm : rev (map mirror (rev (map mirror l))) = l).
  { rewrite map_rev, rev_involutive, map_map.
    specialize (IH l eq_refl). clear Hc.
    induction IH as [|c r Hc' _ IHr]; [reflexivity|].
    cbn [map]. rewrite Hc', IHr. reflexivity. }
  unfold setChildren. cbn [element attr attrNS dataset text html event shadow].
  rewrite Hm. reflexivity.
Qed.

Lemma plain_mirror host s : plain host (mirror s) = plain host s.
Proof.
  induction s as [s IH] using Struct_ind.
  rewrite (plain_eq host (mirror s)), (plain_eq host s).
  destruct (mirror_fields s) as (He & Hs & Hc).
  unfold buildable, childList. rewrite He, Hs, Hc. f_equal.
  destruct (children s) as [l|]; [|reflexivity]. cbn [default].
  unfold id. rewrite forallb_rev. specialize (IH l eq_refl).
  clear He Hs Hc.
  induction IH as [|c r Hc' _ IHr]; [reflexivity|].
  cbn [map forallb]. rewrite Hc', IHr. reflexivity.
Qed.


(** ** CreateElementFromStruct: an event whose action resolves *)

Lemma extends_assign_textContent el s w :
  extends w (snd (assign_textContent el s w)).
Proof.
  unfold assign_textContent. destruct el as [e|]; [|apply extends_refl].
  unfold bind, getNode, putNode.
  destruct (nodes w !! e) as [n|] eqn:He; cbn [snd]; [|apply extends_refl].
  apply (extends_put e n); [exact He|reflexivity].
Qed.

Lemma extends_assign_innerHTML el s w :
  extends w (snd (assign_innerHTML el s w)).
Proof.
  unfold assign_innerHTML. destruct el as [e|]; [|apply extends_refl].
  unfold bind, getNode, putNode.
  destruct (nodes w !! e) as [n|] eqn:He; cbn [snd]; [|apply extends_refl].
  apply (extends_put e n); [exact He|reflexivity].
Qed.



(** ** BuildElement: the rendering boundary *)

Lemma dataSuffix_state name : dataSuffix name = "state" -> name = "state".
Proof.
  intros H.
  repeat (destruct name as [|? name]; cbn [dataSuffix] in H;
          [discriminate|];
          destruct (isUpper _); [discriminate|];
          injection H as -> H).
  destruct name as [|c name]; [reflexivity|].
  cbn [dataSuffix] in H. destruct (isUpper c); discriminate.
Qed.

Lemma dataAttributeName_state name :
  dataAttributeName name = "data-state" -> name = "state".
Proof.
  unfold dataAttributeName. cbn [String.append]. intros [= H].
  apply dataSuffix_state, H.
Qed.

Lemma findAttr_writeAttr host k name item l :
  attrKey k (fst item) <> name ->
  findAttr name (writeAttr host k item l) = findAttr name l.
Proof.
  intros H. unfold writeAttr. destruct (_ && _); [|reflexivity].
  apply findAttr_upsert_ne. exact H.
Qed.

Lemma findAttr_writeAttrNS host name item l :
  fst item <> name ->
  findAttr name (writeAttrNS host item l) = findAttr name l.
Proof.
  intros H. unfold writeAttrNS. destruct (_ && _); [|reflexivity].
  apply findAttr_upsert_ne. exact H.
Qed.

Lemma findAttr_writeData host item l :
  fst item <> "state" ->
  findAttr "data-state" (writeData host item l) = findAttr "data-state" l.
Proof.
  intros H. unfold writeData. destruct (_ && _); [|reflexivity].
  apply findAttr_upsert_ne. cbn [attrName]. intros Hd.
  apply H, dataAttributeName_state, Hd.
Qed.

Lemma findAttr_foldr {A} (f : A -> list Attr -> list Attr) name
  (P : A -> Prop) :
  (forall x l, P x -> findAttr name (f x l) = findAttr name l) ->
  forall l acc, Forall P l -> findAttr name (foldr f acc l) = findAttr name acc.
Proof.
  intros Hf l acc. induction 1 as [|x r Hx _ IH]; [reflexivity|].
  cbn [foldr]. rewrite Hf by exact Hx. exact IH.
Qed.

(** An element built without a [state] tag has no [dataset.state]. *)
Lemma decorated_without_state host data :
  Forall (fun item => toLowerCase (fst item) <> "data-state") (d_attr data) ->
  Forall (fun item => fst item <> "state") (d_dataset data) ->
  findAttr "data-state" (decorated host false HTMLElement data []) = None.
Proof.
  intros Ha Hd. unfold decorated.
  rewrite (findAttr_foldr (writeData host) "data-state"
             (fun item => fst item <> "state"))
    by (auto using findAttr_writeData).
  rewrite (findAttr_foldr (writeAttr host HTMLElement) "data-state"
             (fun item => toLowerCase (fst item) <> "data-state"))
    by (auto using findAttr_writeAttr).
  reflexivity.
Qed.

Lemma createHTMLElement_steps host pa shadow data w :
  createHTMLElement host (mkBuildArgs pa shadow data) w =
  match buildElement host data w with
  | (Normal c, w1) =>
      match attachTo host pa c w1 with
      | (Normal _, w2) => try_catch (boundary host shadow c) (ret None) w2
      | (Throw, w2) => (Normal None, w2)
      end
  | (Throw, w1) => (Normal None, w1)
  end.
Proof.
  unfold createHTMLElement, try_catch. cbn [b_element b_parent b_shadow].
  unfold bind at 1.
  destruct (buildElement host data w) as [[c|] w1]; [|reflexivity].
  unfold bind at 1. unfold attachTo.
  destruct pa as [| |p|d];
    match goal with |- context [match ?m w1 with _ => _ end] =>
      destruct (m w1) as [[[]|] w2] end; reflexivity.
Qed.

Lemma appendChild_keeps p c' w w' c n :
  appendChild p c' w = (Normal tt, w') -> nodes w !! c = Some n ->
  exists n', nodes w' !! c = Some n' /\ attributes n' = attributes n.
Proof.
  unfold appendChild. destruct c' as [c'|]; [|discriminate].
  unfold bind, getNode, putNode.
  destruct (nodes w !! p) as [np|] eqn:Hp; [|discriminate].
  intros [= <-] Hc. cbn [withNodes nodes].
  destruct (decide (c = p)) as [->|Hne].
  - rewrite Hp in Hc. injection Hc as <-. eexists.
    split; [apply list_lookup_insert_eq; eapply lookup_lt_Some, Hp|reflexivity].
  - exists n. split; [|reflexivity].
    rewrite list_lookup_insert_ne by congruence. exact Hc.
Qed.

Lemma buildElement_keeps host d w r w' c n :
  buildElement host d w = (Normal r, w') -> nodes w !! c = Some n ->
  nodes w' !! c = Some n.
Proof.
  intros E Hc. destruct (validElementName host (typeName d)) eqn:Hv.
  - destruct (buildElement_valid host d w Hv) as (w1 & E1 & (_ & O & _) & _).
    rewrite E1 in E. injection E as _ <-.
    assert (Hlt : c < length (nodes w)) by (eapply lookup_lt_Some, Hc).
    rewrite O by lia. cbn. apply lookup_app_l_Some, Hc.
  - rewrite (buildElement_invalid host d w Hv) in E. injection E as _ <-.
    exact Hc.
Qed.

Lemma boundary_without_state host shadow c w n :
  nodes w !! c = Some n -> dataset_state n = None ->
  boundary host shadow (Some c) w = (Normal (Some c), w).
Proof.
  intros Hc Hs. unfold boundary. destruct (truthyOpt shadow); [|reflexivity].
  unfold bind, getNode. rewrite Hc, Hs. reflexivity.
Qed.

(** X20: a rendering boundary is only set up on an element that carries a
    [state] tag: when the description has no tag named [state] (and no
    attribute named [data-state]), [createHTMLElement] does exactly what it
    does without [shadow]: same element returned, same world. *)
Theorem shadow_needs_state_tag host pa shadow data w :
  Forall (fun item => toLowerCase (fst item) <> "data-state") (d_attr data) ->
  Forall (fun item => fst item <> "state") (d_dataset data) ->
  createHTMLElement host (mkBuildArgs pa shadow data) w =
  createHTMLElement host (mkBuildArgs pa None data) w.
Proof.
  intros Ha Hd. rewrite !createHTMLElement_steps.
  destruct (buildElement host data w) as [[c|] w1] eqn:Eb; [|reflexivity].
  destruct (attachTo host pa c w1) as [[[]|] w2] eqn:Ea; [|reflexivity].
  unfold attachTo in Ea. unfold try_catch.
  destruct c as [c|].
  2:{ unfold boundary. destruct (truthyOpt shadow); reflexivity. }
  assert (Hc1 : exists n1, nodes w1 !! c = Some n1 /\ dataset_state n1 = None).
  { destruct (validElementName host (typeName data)) eqn:Hv.
    - destruct (buildElement_valid host data w Hv) as (w1' & E1 & _ & X).
      rewrite E1 in Eb. injection Eb as <- <-.
      eexists. split; [exact X|]. unfold dataset_state.
      cbn [attributes setAttributes].
      apply decorated_without_state; assumption.
    - rewrite (buildElement_invalid host data w Hv) in Eb. discriminate. }
  destruct Hc1 as (n1 & Hn1 & Hs1).
  assert (Hc2 : exists n2, nodes w2 !! c = Some n2 /\ dataset_state n2 = None).
  { assert (Happ : forall p wa, appendChild p (Some c) wa = (Normal tt, w2) ->
               forall na, nodes wa !! c = Some na -> dataset_state na = None ->
               exists n2, nodes w2 !! c = Some n2 /\ dataset_state n2 = None).
    { intros p wa E na Hna Hsa.
      destruct (appendChild_keeps p (Some c) wa w2 c na E Hna) as (n2 & H2 & A2).
      exists n2. split; [exact H2|]. unfold dataset_state in *. congruence. }
    destruct pa as [| |p|d].
    - apply (Happ _ _ Ea n1 Hn1 Hs1).
    - apply (Happ _ _ Ea n1 Hn1 Hs1).
    - apply (Happ _ _ Ea n1 Hn1 Hs1).
    - unfold bind in Ea.
      destruct (buildElement host d w1) as [[pe|] w1'] eqn:Ed; [|discriminate].
      destruct pe as [pe|]; [|discriminate].
      apply (Happ _ _ Ea n1); [|exact Hs1].
      apply (buildElement_keeps host d w1 _ w1' c n1 Ed Hn1). }
  destruct Hc2 as (n2 & Hn2 & Hs2).
  rewrite !(boundary_without_state host _ c w2 n2 Hn2 Hs2). reflexivity.
Qed.

Lemma shadow_needs_state_tag_witness :
  let data := mkElementData (Some "div") [("class", "card")] [] [] in
  Forall (fun item => toLowerCase (fst item) <> "data-state") (d_attr data) /\
  Forall (fun item => fst item <> "state") (d_dataset data) /\
  createHTMLElement browser (mkBuildArgs PUndefined (Some "open") data) initial
  = createHTMLElement browser (mkBuildArgs PUndefined None data) initial.
Proof.
  intros data.
  assert (H1 : Forall (fun item => toLowerCase (fst item) <> "data-state")
                      (d_attr data))
    by (repeat constructor; discriminate).
  assert (H2 : Forall (fun item => fst item <> "state") (d_dataset data))
    by constructor.
  split; [exact H1|]. split; [exact H2|].
  apply (shadow_needs_state_tag browser PUndefined (Some "open") data initial
           H1 H2).
Defined.

(** An element built with a [state] tag has it as its [dataset.state]. *)
Lemma decorated_state host withNS k data acc K :
  In ("state", K) (d_dataset data) -> NoDup (map fst (d_dataset data)) ->
  findAttr "data-state" (decorated host withNS k data acc) = Some K.
Proof.
  unfold decorated.
  set (base := if withNS then _ else _). clearbody base.
  induction (d_dataset data) as [|x r IH]; intros Hin Hnd; [destruct Hin|].
  cbn [map] in Hnd. apply NoDup_cons in Hnd as [Hx Hnd]. cbn [foldr].
  destruct Hin as [-> | Hin].
  - unfold writeData. cbn [fst snd truthy].
    change (hyphenLower "state") with false.
    change (dataAttributeName "state") with "data-state".
    rewrite (data_state_accepted host). cbn [negb andb].
    apply (findAttr_upsert_eq (mkAttr "data-state" K ViaDataset)).
  - rewrite findAttr_writeData; [apply IH; assumption|].
    intros Hs. apply Hx. rewrite Hs.
    apply list_elem_of_fmap. exists ("state", K).
    split; [reflexivity|]. apply list_elem_of_In. exact Hin.
Qed.

(** X21: when the description asks for a rendering boundary ([shadow] is
    ["open"] or ["closed"]) and carries a [state] tag with a non-empty value
    [K], on an element type that can host a shadow root:
    [createHTMLElement] appends the element to its parent, attaches a shadow
    root to it and returns the shadow root, not the element, so that what
    the compiler adds next goes inside the boundary; [getElement(K)] still
    gives the element. *)
Theorem shadow_root_returned host p np mode data w K :
  validElementName host (typeName data) = true ->
  shadowHost host (toLowerCase (typeName data)) = true ->
  mode = "open" \/ mode = "closed" ->
  In ("state", K) (d_dataset data) ->
  NoDup (map fst (d_dataset data)) ->
  truthy K = true ->
  proto (ElementRefStore w) = None ->
  nodes w !! p = Some np ->
  let out := createHTMLElement host (mkBuildArgs (PNode p) (Some mode) data) w in
  let e := length (nodes w) in
  fst out = Normal (Some (S e)) /\
  (exists n, nodes (snd out) !! e = Some n /\
             kind n = HTMLElement /\ shadowRoot n = Some (S e)) /\
  nodes (snd out) !! S e = Some (freshNode ShadowRoot mode) /\
  nodes (snd out) !! p = Some (setChildNodes (childNodes np ++ [e]) np) /\
  getElement host K (snd out) = (Normal (VElement e), snd out).
Proof.
  intros Hv Hsh Hmode Hin Hnd HK Hp Hnp. cbv zeta.
  set (e := length (nodes w)).
  set (fresh := freshNode HTMLElement (toLowerCase (typeName data))).
  set (w0 := allocated fresh w).
  assert (H0 : nodes w0 !! e = Some fresh) by apply allocated_lookup.
  destruct (decorate_registers host false data e w0 fresh K H0 eq_refl Hp Hnd
              Hin HK) as (w1 & E1 & R1).
  destruct (decorate_exact host false data e w0 fresh H0 eq_refl)
    as (w1' & E1' & N1).
  rewrite E1 in E1'. injection E1' as <-.
  destruct (decorate_spec host false data e w0) as (w1' & E1' & A1).
  rewrite E1 in E1'. injection E1' as <-.
  destruct A1 as (L1 & O1 & _).
  assert (Hlt : p < e) by (eapply lookup_lt_Some, Hnp).
  assert (Hlen0 : length (nodes w0) = S e)
    by (cbn; rewrite length_app; cbn; lia).
  set (ne := setAttributes (decorated host false (kind fresh) data
                              (attributes fresh)) fresh) in N1.
  assert (Hb : buildElement host data w = (Normal (Some e), w1)).
  { rewrite buildElement_unfold. unfold try_catch, bind.
    rewrite (createElement_valid host _ w Hv). fold fresh w0 e.
    rewrite E1. reflexivity. }
  assert (Hp1 : nodes w1 !! p = Some np).
  { rewrite O1 by lia. cbn. apply lookup_app_l_Some, Hnp. }
  set (w2 := withNodes
               (fun ns => <[p := setChildNodes (childNodes np ++ [e]) np]> ns)
               w1).
  assert (Ha : attachTo host (PNode p) (Some e) w1 = (Normal tt, w2)).
  { unfold attachTo, appendChild, bind, getNode, putNode. rewrite Hp1.
    reflexivity. }
  assert (Hn2 : nodes w2 !! e = Some ne).
  { cbn. rewrite list_lookup_insert_ne by lia. exact N1. }
  assert (Hs : dataset_state ne = Some K).
  { unfold dataset_state. cbn [ne attributes setAttributes].
    apply decorated_state; assumption. }
  assert (Hg : forall w', ElementRefStore w' = ElementRefStore w1 ->
                 getElement host K w' = (Normal (VElement e), w')).
  { intros w' Hw'. apply getElement_registered; [|exact HK].
    rewrite Hw'. exact R1. }
  assert (Hm : truthy mode = true) by (destruct Hmode as [-> | ->]; reflexivity).
  assert (Hmo : String.eqb mode "open" || String.eqb mode "closed" = true)
    by (destruct Hmode as [-> | ->]; reflexivity).
  set (w3 := withNodes (fun ns => <[e := setShadowRoot (S e) ne]> ns)
               (withNodes (fun ns => ns ++ [freshNode ShadowRoot mode]) w2)).
  assert (Hlen2 : length (nodes w2) = S e).
  { cbn. rewrite length_insert. congruence. }
  assert (Hbd : boundary host (Some mode) (Some e) w2
                = (Normal (Some (S e)), w3)).
  { unfold boundary. cbn [truthyOpt]. rewrite Hm.
    unfold bind at 1. unfold getNode at 1. rewrite Hn2, Hs.
    cbn [truthyOpt default]. unfold id. rewrite HK.
    unfold bind at 1. rewrite (Hg w2 eq_refl).
    unfold attachShadow, bind, getNode, allocNode, putNode, ret.
    rewrite Hn2. cbn [default]. unfold id.
    rewrite bool_decide_eq_true_2 by reflexivity.
    change (nodeName ne) with (toLowerCase (typeName data)).
    rewrite Hsh, Hmo.
    rewrite bool_decide_eq_true_2 by reflexivity.
    cbn [andb]. rewrite Hlen2. reflexivity. }
  rewrite createHTMLElement_steps, Hb, Ha. unfold try_catch. rewrite Hbd.
  cbn [fst snd]. split; [reflexivity|].
  split; [|split; [|split]].
  - exists (setShadowRoot (S e) ne). split; [|split; reflexivity].
    cbn [w3 withNodes nodes]. apply list_lookup_insert_eq.
    rewrite length_app. fold (nodes w2). lia.
  - cbn [w3 withNodes nodes]. rewrite list_lookup_insert_ne by lia.
    fold (nodes w2). rewrite lookup_app_r by lia.
    rewrite Hlen2, Nat.sub_diag. reflexivity.
  - cbn [w3 withNodes nodes]. rewrite list_lookup_insert_ne by lia.
    fold (nodes w2). rewrite lookup_app_l by lia.
    cbn [w2 withNodes nodes]. apply list_lookup_insert_eq.
    rewrite L1, Hlen0. lia.
  - apply Hg. reflexivity.
Qed.

Lemma shadow_root_returned_witness :
  let data := mkElementData (Some "div") [] [] [("state", "box")] in
  let out :=
    createHTMLElement browser (mkBuildArgs (PNode 0) (Some "open") data)
      initial in
  validElementName browser (typeName data) = true /\
  shadowHost browser (toLowerCase (typeName data)) = true /\
  ("open" = "open" \/ "open" = "closed") /\
  In ("state", "box") (d_dataset data) /\
  NoDup (map fst (d_dataset data)) /\
  truthy "box" = true /\
  proto (ElementRefStore initial) = None /\
  nodes initial !! 0 = Some bodyNode /\
  fst out = Normal (Some 2) /\
  (exists n, nodes (snd out) !! 1 = Some n /\
             kind n = HTMLElement /\ shadowRoot n = Some 2) /\
  nodes (snd out) !! 2 = Some (freshNode ShadowRoot "open") /\
  nodes (snd out) !! 0 = Some (setChildNodes [1] bodyNode) /\
  getElement browser "box" (snd out) = (Normal (VElement 1), snd out).
Proof.
  intros data out.
  assert (H3 : "open" = "open" \/ "open" = "closed") by (left; reflexivity).
  assert (H4 : In ("state", "box") (d_dataset data)) by (left; reflexivity).
  assert (H5 : NoDup (map fst (d_dataset data)))
    by (cbn; apply NoDup_cons_2; [apply not_elem_of_nil|apply NoDup_nil_2]).
  split; [reflexivity|]. split; [reflexivity|]. split; [exact H3|].
  split; [exact H4|]. split; [exact H5|]. split; [reflexivity|].
  split; [reflexivity|]. split; [reflexivity|].
  apply (shadow_root_returned browser 0 bodyNode "open" data initial "box"
           eq_refl eq_refl H3 H4 H5 eq_refl eq_refl eq_refl).
Defined.

(** ** BuildElement: the parent given *)

(** X22: with the parent [null], the two builders part ways:
    [createHTMLElement] appends the new element to [document.body], while
    [createSVGElement] creates its element and returns it without attaching
    it anywhere: the nodes that were in the document are all unchanged. *)
Theorem null_parent host data shadow w nb :
  validElementName host (typeName data) = true ->
  validQualifiedName host (typeName data) = true ->
  truthyOpt shadow = false ->
  nodes w !! document_body = Some nb ->
  let html := createHTMLElement host (mkBuildArgs PNull shadow data) w in
  let svg := createSVGElement host (mkBuildArgs PNull shadow data) w in
  let e := length (nodes w) in
  (fst html = Normal (Some e) /\
   nodes (snd html) !! document_body =
     Some (setChildNodes (childNodes nb ++ [e]) nb)) /\
  (fst svg = Normal (Some e) /\
   length (nodes (snd svg)) = S e /\
   (forall i, i < e -> nodes (snd svg) !! i = nodes w !! i) /\
   exists n, nodes (snd svg) !! e = Some n /\ kind n = SVGElement /\
             childNodes n = []).
Proof.
  intros Hv Hq Hsh Hnb. cbv zeta. split.
  - destruct (buildElement_valid host data w Hv) as (w1 & E1 & A1 & X1).
    destruct (appendChild_built HTMLElement _ _ document_body nb w w1 Hnb A1 X1)
      as (w2 & E2 & B2).
    assert (Hout : createHTMLElement host (mkBuildArgs PNull shadow data) w =
                   (Normal (Some (length (nodes w))), w2)).
    { rewrite createHTMLElement_steps, E1. unfold attachTo. rewrite E2.
      unfold try_catch, boundary. rewrite Hsh. reflexivity. }
    rewrite Hout. cbn [fst snd].
    split; [reflexivity|]. destruct B2 as (_ & _ & Hb & _). exact Hb.
  - destruct (createElementNS_valid host data w Hq) as (w1 & E1 & A1 & X1).
    assert (Hout : createSVGElement host (mkBuildArgs PNull shadow data) w =
                   (Normal (Some (length (nodes w))), w1)).
    { unfold createSVGElement, try_catch, bind. cbn [b_element b_parent].
      rewrite E1. reflexivity. }
    rewrite Hout. cbn [fst snd].
    split; [reflexivity|]. destruct A1 as (L1 & O1 & _).
    split; [|split].
    + rewrite L1. cbn. rewrite length_app. cbn. lia.
    + intros i Hi. rewrite O1 by lia. cbn. apply lookup_app_l. exact Hi.
    + eexists. split; [exact X1|]. split; reflexivity.
Qed.

Lemma null_parent_witness :
  let data := mkElementData (Some "g") [] [] [] in
  let html := createHTMLElement browser (mkBuildArgs PNull None data) initial in
  let svg := createSVGElement browser (mkBuildArgs PNull None data) initial in
  validElementName browser (typeName data) = true /\
  validQualifiedName browser (typeName data) = true /\
  truthyOpt None = false /\
  nodes initial !! document_body = Some bodyNode /\
  (fst html = Normal (Some 1) /\
   nodes (snd html) !! document_body = Some (setChildNodes [1] bodyNode)) /\
  (fst svg = Normal (Some 1) /\
   length (nodes (snd svg)) = 2 /\
   (forall i, i < 1 -> nodes (snd svg) !! i = nodes initial !! i) /\
   exists n, nodes (snd svg) !! 1 = Some n /\ kind n = SVGElement /\
             childNodes n = []).
Proof.
  intros data html svg. repeat (split; [reflexivity|]).
  apply (null_parent browser data None initial bodyNode); reflexivity.
Defined.

(** X23: when the parent given to [createHTMLElement] is a description
    rather than a node, a new parent element is built from it, after the
    child, and the child is appended to that new element, which itself is
    attached nowhere: the nodes that were in the document are all
    unchanged. *)
Theorem description_parent host d shadow data w :
  validElementName host (typeName data) = true ->
  validElementName host (typeName d) = true ->
  truthyOpt shadow = false ->
  let out := createHTMLElement host (mkBuildArgs (PDesc d) shadow data) w in
  let e := length (nodes w) in
  fst out = Normal (Some e) /\
  length (nodes (snd out)) = S (S e) /\
  (forall i, i < e -> nodes (snd out) !! i = nodes w !! i) /\
  exists pn,
    nodes (snd out) !! S e = Some pn /\ kind pn = HTMLElement /\
    nodeName pn = toLowerCase (typeName d) /\ childNodes pn = [e].
Proof.
  intros Hv Hd Hsh. cbv zeta.
  destruct (buildElement_valid host data w Hv) as (w1 & E1 & A1 & X1).
  destruct (buildElement_valid host d w1 Hd) as (w1' & E1' & A1' & X1').
  destruct A1 as (L1 & O1 & _). destruct A1' as (L1' & O1' & _).
  assert (Hlen1 : length (nodes w1) = S (length (nodes w)))
    by (rewrite L1; cbn; rewrite length_app; cbn; lia).
  assert (Hlen1' : length (nodes w1') = S (S (length (nodes w))))
    by (rewrite L1'; cbn; rewrite length_app; cbn; lia).
  match type of X1' with _ = Some ?x => set (pn := x) in X1' end.
  assert (Hout : createHTMLElement host (mkBuildArgs (PDesc d) shadow data) w =
                 (Normal (Some (length (nodes w))),
                  withNodes
                    (fun ns => <[length (nodes w1) :=
                                   setChildNodes
                                     (childNodes pn ++ [length (nodes w)]) pn]>
                                 ns) w1')).
  { rewrite createHTMLElement_steps, E1. unfold attachTo. unfold bind at 1.
    rewrite E1'. unfold appendChild, bind, getNode, putNode. rewrite X1'.
    unfold try_catch, boundary. rewrite Hsh. reflexivity. }
  rewrite Hout. cbn [fst snd withNodes nodes].
  split; [reflexivity|]. split; [|split].
  - rewrite length_insert. exact Hlen1'.
  - intros i Hi. rewrite list_lookup_insert_ne by lia.
    rewrite O1' by lia. cbn. rewrite lookup_app_l by lia.
    rewrite O1 by lia. cbn. apply lookup_app_l. exact Hi.
  - rewrite Hlen1. eexists. split; [apply list_lookup_insert_eq; lia|].
    split; [reflexivity|]. split; reflexivity.
Qed.

Lemma description_parent_witness :
  let d := mkElementData (Some "ul") [] [] [] in
  let data := mkElementData (Some "li") [] [] [] in
  let out := createHTMLElement browser (mkBuildArgs (PDesc d) None data)
               initial in
  validElementName browser (typeName data) = true /\
  validElementName browser (typeName d) = true /\
  truthyOpt None = false /\
  fst out = Normal (Some 1) /\
  length (nodes (snd out)) = 3 /\
  (forall i, i < 1 -> nodes (snd out) !! i = nodes initial !! i) /\
  exists pn,
    nodes (snd out) !! 2 = Some pn /\ kind pn = HTMLElement /\
    nodeName pn = toLowerCase (typeName d) /\ childNodes pn = [1].
Proof.
  intros d data out. repeat (split; [reflexivity|]).
  apply (description_parent browser d None data initial); reflexivity.
Defined.

(** ** Removal by key of an element the compiler registered *)

(** X24: [removeElement(key, 1)], when the element stored under the key
    carries that key as its [state] tag (as every element registered by the
    builders does): the entry of the key is deleted, the element's list in
    [ActionRefStore] is deleted, none of the listeners recorded in that list
    is left on the element, and the element is a child of no node any
    more. *)
Theorem removeElement_full_by_state_tag host key w e n :
  truthy key = true ->
  own (ElementRefStore w) !! key = Some e ->
  nodes w !! e = Some n ->
  isElement n = true ->
  dataset_state n = Some key ->
  ActionRefStore w !! e <> Some [] ->
  let w' := snd (removeElement host key 1 w) in
  own (ElementRefStore w') !! key = None /\
  ActionRefStore w' !! e = None /\
  (exists n',
     nodes w' !! e = Some n' /\
     forall item, In item (default [] (ActionRefStore w !! e)) ->
                  ~ In (sc_type item, sc_handler item) (listeners n')) /\
  Forall (fun m => e ∉ childNodes m) (nodes w').
Proof.
  intros Hk Ho He Hel Hs Hne. cbv zeta.
  assert (Heq : removeElement host key 1 w =
                try_catch (removeEventStore host (VElement e)) (ret tt) w).
  { unfold removeElement, removeElementWith, try_catch. rewrite Hk.
    change (1 <=? 1)%Z with true. cbn [andb]. unfold modeTypes.
    change (1 =? 1)%Z with true. cbn beta iota. unfold bind, store_get.
    rewrite Ho. reflexivity. }
  rewrite Heq. unfold try_catch.
  rewrite (removeEventStore_exact host e w n He), Hel, Hs.
  cbn [truthyOpt default andb snd nodes ActionRefStore ElementRefStore].
  unfold id. rewrite Hk. cbn [own].
  assert (Hlt : e < length (nodes w)) by (eapply lookup_lt_Some, He).
  split; [apply lookup_delete_eq|]. split; [|split; [|apply detach_all]].
  - destruct (ActionRefStore w !! e) as [[|x l]|] eqn:Hl; cbn [nonEmpty].
    + congruence.
    + apply lookup_delete_eq.
    + exact Hl.
  - rewrite list_lookup_fmap, list_lookup_insert_eq by exact Hlt.
    eexists. split; [reflexivity|].
    cbn [detached listeners setChildNodes setListeners].
    intros item Hi Hin. apply strip_elem in Hin as [_ Hall].
    rewrite Forall_forall in Hall.
    specialize (Hall item (proj2 (list_elem_of_In _ _) Hi)).
    rewrite sameListener_refl in Hall. discriminate.
Qed.

Lemma removeElement_full_by_state_tag_witness :
  let ev := mkEventDesc (Some "mousedown") (Some "clickHelloWord") None in
  let struct :=
    mkStruct (Some "button") [] [] [("state", "go")] None None (Some ev) None
             None in
  let w := compile struct CbUndefined in
  let n := mkNode HTMLElement "button" [mkAttr "data-state" "go" ViaDataset]
                  [] [("mousedown", 0)] None None None in
  let w' := snd (removeElement browser "go" 1 w) in
  truthy "go" = true /\
  own (ElementRefStore w) !! "go" = Some 1 /\
  nodes w !! 1 = Some n /\
  isElement n = true /\
  dataset_state n = Some "go" /\
  ActionRefStore w !! 1 <> Some [] /\
  own (ElementRefStore w') !! "go" = None /\
  ActionRefStore w' !! 1 = None /\
  (exists n',
     nodes w' !! 1 = Some n' /\
     forall item, In item (default [] (ActionRefStore w !! 1)) ->
                  ~ In (sc_type item, sc_handler item) (listeners n')) /\
  Forall (fun m => 1 ∉ childNodes m) (nodes w').
Proof.
  intros ev struct w n w'.
  assert (H2 : own (ElementRefStore w) !! "go" = Some 1)
    by (vm_compute; reflexivity).
  assert (H3 : nodes w !! 1 = Some n) by (vm_compute; reflexivity).
  assert (H6 : ActionRefStore w !! 1 <> Some []) by (vm_compute; discriminate).
  split; [reflexivity|]. split; [exact H2|]. split; [exact H3|].
  split; [reflexivity|]. split; [reflexivity|]. split; [exact H6|].
  apply (removeElement_full_by_state_tag browser "go" w 1 n eq_refl H2 H3
           eq_refl eq_refl H6).
Defined.

(** ** Reading and guards *)

(** X25: [getElement] never changes anything and never throws, whatever the
    key and whatever happened to [ElementRefStore] before: it gives back a
    value and the world it was called in. *)
Theorem getElement_reads_only host key w :
  exists v, getElement host key w = (Normal v, w).
Proof.
  unfold getElement, try_catch, store_get, ret.
  destruct (truthy key); [|eauto].
  destruct (own (ElementRefStore w) !! key); [eauto|].
  destruct (proto (ElementRefStore w)); [|eauto].
  destruct (String.eqb key "__proto__"); [eauto|].
  destruct (memberOf host w n key); eauto.
Qed.

(** X26: a description without an element type (the field absent or
    empty) is skipped as a whole: nothing is built, its children are not
    compiled, the callback is not invoked, the description is left as it
    was and the call returns [undefined]. *)
Theorem createFromStruct_without_element host acts struct parent cb w :
  truthyOpt (element struct) = false ->
  createFromStruct host acts (AData (Some struct) parent) cb w =
  (Normal (AData (Some struct) parent, RUndefined), w).
Proof.
  intros Hel. unfold createFromStruct.
  cbn [typeof String.eqb Ascii.eqb Bool.eqb]. unfold bind.
  rewrite createFromStruct_object_unfold. unfold try_catch. rewrite Hel.
  reflexivity.
Qed.

Lemma createFromStruct_without_element_witness :
  let struct :=
    mkStruct None [] [] [("state", "box")] (Some "text") None None
             (Some [leaf "span"]) None in
  truthyOpt (element struct) = false /\
  createFromStruct browser demoActions (AData (Some struct) PUndefined)
    CbFunction initial =
  (Normal (AData (Some struct) PUndefined, RUndefined), initial).
Proof.
  intros struct. split; [reflexivity|].
  apply (createFromStruct_without_element browser demoActions struct
           PUndefined CbFunction initial eq_refl).
Defined.

(** ** The namespaced attributes of a description *)

Lemma buildElement_attrNS host t a l l' d w :
  buildElement host (mkElementData t a l d) w =
  buildElement host (mkElementData t a l' d) w.
Proof. reflexivity. Qed.

Lemma snd_try_ret {A} (m : JS A) (x : A) w :
  snd (try_catch m (ret x) w) = snd (m w).
Proof. unfold try_catch. destruct (m w) as [[a|] w1]; reflexivity. Qed.

Lemma snd_bind_ext {A B C} (m1 m2 : JS A) (k1 : A -> JS B) (k2 : A -> JS C) w :
  m1 w = m2 w -> (forall a w1, snd (k1 a w1) = snd (k2 a w1)) ->
  snd (bind m1 k1 w) = snd (bind m2 k2 w).
Proof.
  intros Hm Hk. unfold bind. rewrite Hm.
  destruct (m2 w) as [[a|] w1]; [apply Hk|reflexivity].
Qed.

Lemma createFromStruct_object_attrNS host acts s l parent cb w :
  selectsSVG (default EmptyString (element s)) = false ->
  snd (createFromStruct_object host acts (withAttrNS l s) parent cb w) =
  snd (createFromStruct_object host acts s parent cb w).
Proof.
  intros Hsel. rewrite !createFromStruct_object_unfold.
  rewrite !snd_try_ret.
  cbn [withAttrNS element text html event children shadow].
  destruct (truthyOpt (element s)); [|reflexivity].
  apply snd_bind_ext.
  { unfold TypeSelect.
    change (truthy (toLowerCase (default EmptyString (element s))) &&
            String.eqb (toLowerCase (default EmptyString (element s))) "svg")
      with (selectsSVG (default EmptyString (element s))).
    rewrite Hsel. rewrite !createHTMLElement_steps.
    unfold elementData. cbn [withAttrNS element attr attrNS dataset].
    rewrite (buildElement_attrNS host (element s) (attr s) l (attrNS s)
               (dataset s) w).
    reflexivity. }
  intros el w1. apply snd_bind_ext; [reflexivity|]. intros u2 w2.
  apply snd_bind_ext; [reflexivity|]. intros u3 w3.
  apply snd_bind_ext; [reflexivity|]. intros u4 w4.
  unfold createChildren. cbn [withAttrNS children].
  destruct (children s) as [array|].
  - apply snd_bind_ext; [reflexivity|]. intros [array' r] w5. reflexivity.
  - apply snd_bind_ext; [reflexivity|]. intros r w5. reflexivity.
Qed.

(** X27: the namespaced attributes ([attrNS]) of a description are written
    by the namespaced builder only: for any element type other than [svg],
    what a compile call does to the document, to [ElementRefStore] and to
    [ActionRefStore] is the same whatever the description's [attrNS]
    holds. *)
Theorem attrNS_ignored_outside_svg host acts struct l parent cb w :
  selectsSVG (default EmptyString (element struct)) = false ->
  snd (createFromStruct host acts (AData (Some (withAttrNS l struct)) parent)
         cb w) =
  snd (createFromStruct host acts (AData (Some struct) parent) cb w).
Proof.
  intros Hsel.
  pose proof (createFromStruct_object_attrNS host acts struct l parent cb w
                Hsel) as H.
  unfold createFromStruct. cbn [typeof String.eqb Ascii.eqb Bool.eqb].
  unfold bind.
  destruct (createFromStruct_object host acts (withAttrNS l struct) parent cb w)
    as [[[s1 r1]|] w1];
    destruct (createFromStruct_object host acts struct parent cb w)
      as [[[s2 r2]|] w2]; exact H.
Qed.

Lemma attrNS_ignored_outside_svg_witness :
  let struct :=
    mkStruct (Some "circle") [("r", "4")] [] [] None None None None None in
  selectsSVG (default EmptyString (element struct)) = false /\
  snd (createFromStruct browser demoActions
         (AData (Some (withAttrNS [("cx", "5")] struct)) PUndefined)
         CbUndefined initial) =
  snd (createFromStruct browser demoActions (AData (Some struct) PUndefined)
         CbUndefined initial).
Proof.
  intros struct. split; [reflexivity|].
  apply (attrNS_ignored_outside_svg browser demoActions struct [("cx", "5")]
           PUndefined CbUndefined initial eq_refl).
Defined.

(** ** UtilsApp: [toRem] *)

Lemma digit_facts c :
  isDigit c = true ->
  isWhiteSpace c = false /\ Ascii.eqb c "+" = false /\
  Ascii.eqb c "-" = false /\ Ascii.eqb "p" c = false /\
  Ascii.eqb c "x" = false /\ Ascii.eqb c "X" = false /\
  exists d, radixDigit 10 c = Some d.
Proof.
  destruct c as [[] [] [] [] [] [] [] []]; intros H; vm_compute in H;
    try discriminate H; repeat split; eexists; reflexivity.
Qed.

Lemma nondigit_facts c : isDigit c = false -> radixDigit 10 c = None.
Proof.
  destruct c as [[] [] [] [] [] [] [] []]; intros H; vm_compute in H;
    try discriminate H; reflexivity.
Qed.

Lemma append_cons c (r u : string) :
  (String c r ++ u)%string = String c (r ++ u)%string.
Proof. reflexivity. Qed.

Lemma append_nil (u : string) : (EmptyString ++ u)%string = u.
Proof. reflexivity. Qed.

Lemma append_empty (s : string) : (s ++ EmptyString)%string = s.
Proof.
  induction s as [|c r IH]; [reflexivity|].
  rewrite append_cons, IH. reflexivity.
Qed.

Lemma replaceFirst_digits ds u :
  allChars isDigit ds = true ->
  replaceFirst "px" (ds ++ u)%string = (ds ++ replaceFirst "px" u)%string.
Proof.
  induction ds as [|c r IH]; intros H; [reflexivity|].
  cbn [allChars] in H. apply andb_prop in H as [Hc Hr].
  destruct (digit_facts c Hc) as (_ & _ & _ & Hp & _).
  rewrite !append_cons. cbn [replaceFirst startsWith]. rewrite Hp.
  cbn [andb]. rewrite (IH Hr). reflexivity.
Qed.

Lemma leadingDigits_stop ds u :
  allChars isDigit ds = true -> numberStops u = true ->
  leadingDigits 10 (ds ++ u)%string = leadingDigits 10 ds.
Proof.
  intros Hds Hu. induction ds as [|c r IH].
  - rewrite append_nil. cbn [leadingDigits].
    destruct u as [|c u]; [reflexivity|].
    cbn [numberStops] in Hu. apply andb_prop in Hu as [Hu _].
    apply andb_prop in Hu as [Hu _]. apply negb_true_iff in Hu.
    cbn [leadingDigits]. rewrite (nondigit_facts c Hu). reflexivity.
  - cbn [allChars] in Hds. apply andb_prop in Hds as [Hc Hr].
    rewrite append_cons. cbn [leadingDigits]. rewrite (IH Hr). reflexivity.
Qed.

(** What [parseInt] reads in a string that starts with decimal digits. *)
Lemma parseInt_digits ds u :
  ds <> EmptyString -> allChars isDigit ds = true -> numberStops u = true ->
  parseInt (ds ++ u)%string =
  numberOf false (mathInt 10 (leadingDigits 10 ds)).
Proof.
  intros Hne Hds Hu. destruct ds as [|c r]; [congruence|].
  pose proof (leadingDigits_stop (String c r) u Hds Hu) as Hlead.
  cbn [allChars] in Hds. apply andb_prop in Hds as [Hc Hr].
  destruct (digit_facts c Hc) as (Hw & Hplus & Hminus & _ & _ & _ & d & Hd).
  rewrite append_cons in *.
  unfold parseInt. cbn [trimStart]. rewrite Hw, Hplus, Hminus.
  cbn [orb].
  assert (Hprefix :
            match (r ++ u)%string with
            | String c1 r' =>
                if Ascii.eqb c "0" && (Ascii.eqb c1 "x" || Ascii.eqb c1 "X")
                then (16%Z, r') else (10%Z, String c (r ++ u))
            | EmptyString => (10%Z, String c (r ++ u))
            end = (10%Z, String c (r ++ u)%string)).
  { destruct r as [|c1 r'].
    - rewrite append_nil. destruct u as [|c1 u']; [reflexivity|].
      cbn [numberStops] in Hu. apply andb_prop in Hu as [Hu HX].
      apply andb_prop in Hu as [_ Hx].
      apply negb_true_iff in Hx, HX. rewrite Hx, HX, andb_false_r.
      reflexivity.
    - rewrite append_cons. cbn [allChars] in Hr.
      apply andb_prop in Hr as [Hc1 _].
      destruct (digit_facts c1 Hc1) as (_ & _ & _ & _ & Hx & HX & _).
      rewrite Hx, HX, andb_false_r. reflexivity. }
  rewrite Hprefix. cbn [fst snd]. rewrite Hlead.
  cbn [leadingDigits]. rewrite Hd. reflexivity.
Qed.

(** X28: [toRem] reads the decimal digits its argument starts with and
    nothing else: whatever follows them (a unit other than [px], a
    fractional part, any text that does not go on with a digit or an [x])
    is dropped, so that [toRem("24.5px")], [toRem("24em")] and
    [toRem("24")] are the same string, for every base. *)
Theorem toRem_ignores_unit engine ds u base :
  ds <> EmptyString -> allChars isDigit ds = true ->
  numberStops (replaceFirst "px" u) = true ->
  toRem engine (PxString (ds ++ u)) base = toRem engine (PxString ds) base.
Proof.
  intros Hne Hds Hu. unfold toRem.
  rewrite (replaceFirst_digits ds u Hds).
  rewrite (parseInt_digits ds _ Hne Hds Hu).
  pose proof (replaceFirst_digits ds EmptyString Hds) as H0.
  rewrite append_empty in H0. cbn [replaceFirst startsWith] in H0.
  rewrite append_empty in H0. rewrite H0.
  pose proof (parseInt_digits ds EmptyString Hne Hds eq_refl) as H1.
  rewrite append_empty in H1. rewrite H1. reflexivity.
Qed.

Lemma toRem_ignores_unit_witness :
  "24" <> EmptyString /\ allChars isDigit "24" = true /\
  numberStops (replaceFirst "px" ".5px") = true /\
  forall engine base,
    toRem engine (PxString ("24" ++ ".5px")) base =
    toRem engine (PxString "24") base.
Proof.
  split; [discriminate|]. split; [reflexivity|]. split; [reflexivity|].
  intros engine base.
  apply (toRem_ignores_unit engine "24" ".5px" base);
    [discriminate|reflexivity|reflexivity].
Defined.

Lemma multiply_NaN x : multiply x SpecFloat.S754_nan = SpecFloat.S754_nan.
Proof. destruct x; reflexivity. Qed.

(** X29: on a string in which no number can be read ([px] once taken out,
    it is empty or starts with something that is neither white space, a
    sign nor a digit), [toRem] does not give its argument back: it returns
    the string ["NaNrem"], for every base. *)
Theorem toRem_not_a_number engine s base :
  noNumberAhead (replaceFirst "px" s) = true ->
  toRem engine (PxString s) base = "NaNrem".
Proof.
  intros H. unfold toRem.
  assert (Hp : parseInt (replaceFirst "px" s) = SpecFloat.S754_nan).
  { destruct (replaceFirst "px" s) as [|c r]; [reflexivity|].
    cbn [noNumberAhead] in H. apply andb_prop in H as [H Hd].
    apply andb_prop in H as [H Hminus]. apply andb_prop in H as [Hw Hplus].
    apply negb_true_iff in Hd, Hminus, Hplus, Hw.
    unfold parseInt. cbn [trimStart]. rewrite Hw, Hplus, Hminus. cbn [orb].
    assert (H0 : Ascii.eqb c "0" = false).
    { destruct (Ascii.eqb_spec c "0") as [->|]; [discriminate Hd|reflexivity]. }
    rewrite H0. cbn [andb].
    assert (Hl : leadingDigits 10 (String c r) = []).
    { cbn [leadingDigits]. rewrite (nondigit_facts c Hd). reflexivity. }
    destruct r as [|c1 r']; cbn [fst snd]; rewrite Hl; reflexivity. }
  rewrite Hp, multiply_NaN, (numberToString_NaN engine). reflexivity.
Qed.

Lemma toRem_not_a_number_witness :
  noNumberAhead (replaceFirst "px" "wide") = true /\
  forall engine base, toRem engine (PxString "wide") base = "NaNrem".
Proof.
  split; [reflexivity|]. intros engine base.
  apply (toRem_not_a_number engine "wide" base). reflexivity.
Defined.

(** * The compiler under any parent and on shared arrays *)

(** ** The builders, whatever the parent *)

Section Places.
Variable host : Host.

Lemma boundary_shaded n shadow w :
  exists r w',
    try_catch (boundary host shadow (Some n)) (ret None) w = (Normal r, w') /\
    shaded n r w w'.
Proof.
  unfold try_catch, boundary.
  destruct (truthyOpt shadow);
    [|exists (Some n), w; split; [reflexivity|left; auto]].
  unfold bind at 1. unfold getNode at 1.
  destruct (nodes w !! n) as [nn|];
    [|exists None, w; split; [reflexivity|left; auto]].
  destruct (truthyOpt (dataset_state nn));
    [|exists (Some n), w; split; [reflexivity|left; auto]].
  unfold bind at 1.
  pose proof (getElement_world host (default EmptyString (dataset_state nn)) w) as Hw.
  destruct (getElement host _ w) as [[v|] w0]; cbn [snd] in Hw; subst w0;
    [|exists None, w; split; [reflexivity|left; auto]].
  destruct v as [|e|name];
    try (exists None, w; split; [reflexivity|left; auto]).
  unfold bind at 1. unfold attachShadow, bind at 1. unfold getNode at 1.
  destruct (nodes w !! e) as [ne|] eqn:He;
    [|exists None, w; split; [reflexivity|left; auto]].
  destruct (_ && _);
    [|exists None, w; split; [reflexivity|left; auto]].
  unfold bind, allocNode, putNode, ret, withNodes.
  cbn [nodes ElementRefStore ActionRefStore callbacks].
  eexists _, _. split; [reflexivity|]. right.
  exists e, ne, (default EmptyString shadow). split; [exact He|].
  split; reflexivity.
Qed.


Lemma boundary_plain n nn shadow w :
  nodes w !! n = Some nn ->
  truthyOpt shadow && truthyOpt (dataset_state nn) = false ->
  try_catch (boundary host shadow (Some n)) (ret None) w =
  (Normal (Some n), w).
Proof.
  intros Hn Hb. unfold try_catch, boundary.
  destruct (truthyOpt shadow); [|reflexivity].
  unfold bind, getNode. rewrite Hn. cbn [andb] in Hb. rewrite Hb.
  reflexivity.
Qed.

Lemma appendChild_builtUnder k name la k' name' la' w w1 w1' :
  attrsOnly (length (nodes w)) (allocated (freshNode k name) w) w1 ->
  nodes w1 !! length (nodes w) = Some (setAttributes la (freshNode k name)) ->
  attrsOnly (length (nodes w1)) (allocated (freshNode k' name') w1) w1' ->
  nodes w1' !! length (nodes w1) =
    Some (setAttributes la' (freshNode k' name')) ->
  k' <> ShadowRoot ->
  exists w2,
    appendChild (length (nodes w1)) (Some (length (nodes w))) w1' =
      (Normal tt, w2) /\
    builtUnder k name la w w2.
Proof.
  intros (L1 & O1 & _ & A1 & C1) X1 (L2 & O2 & _ & A2 & C2) X2 Hk.
  assert (Hl1 : length (nodes w1) = S (length (nodes w))).
  { rewrite L1. cbn. rewrite length_app. cbn. lia. }
  assert (Hl2 : length (nodes w1') = S (S (length (nodes w)))).
  { rewrite L2. cbn. rewrite length_app. cbn. lia. }
  unfold appendChild, bind, getNode, putNode. rewrite X2.
  eexists. split; [reflexivity|].
  unfold builtUnder. cbn [withNodes nodes ActionRefStore callbacks].
  rewrite length_insert. split; [exact Hl2|]. split; [|split; [|split]].
  - intros i Hi. rewrite list_lookup_insert_ne by lia.
    rewrite O2 by lia. cbn. rewrite lookup_app_l by lia.
    rewrite O1 by lia. cbn. apply lookup_app_l. exact Hi.
  - rewrite list_lookup_insert_ne by lia. rewrite O2 by lia. cbn.
    rewrite lookup_app_l by lia. exact X1.
  - eexists. rewrite <- Hl1. split; [apply list_lookup_insert_eq; lia|].
    cbn. split; [reflexivity|]. split; [reflexivity|].
    unfold isElement. cbn. destruct k'; congruence.
  - split; [rewrite A2; cbn; rewrite A1|rewrite C2; cbn; rewrite C1];
      reflexivity.
Qed.

(** What the builder picked by [TypeSelect] does for a description the
    host accepts, whatever the parent it can attach to. *)
Lemma TypeSelect_places struct parent w q :
  buildable host struct = true ->
  attachedTo host w struct parent = Some q ->
  exists r w2 w3,
    TypeSelect host (toLowerCase (default EmptyString (element struct)))
      (mkBuildArgs (defaultParent parent) (shadow struct) (elementData struct))
      w = (Normal r, w3) /\
    ((exists np, nodes w !! q = Some np /\
        built (kindOf struct) (nameOf struct) (attributesOf host struct)
              q np w w2) \/
     (q = S (length (nodes w)) /\
      builtUnder (kindOf struct) (nameOf struct) (attributesOf host struct)
                 w w2)) /\
    shaded (length (nodes w)) r w2 w3 /\
    (asksBoundary host struct = false ->
     r = Some (length (nodes w)) /\ w3 = w2).
Proof.
  unfold buildable, attachedTo, asksBoundary, stateTagged, attributesOf,
    kindOf, nameOf, TypeSelect.
  fold (elementData struct).
  destruct (element struct) as [name|] eqn:Hel; [|discriminate].
  cbn [default]. unfold id.
  change (truthy (toLowerCase name) && String.eqb (toLowerCase name) "svg")
    with (selectsSVG name).
  intros Hb Hq. apply andb_prop in Hb as [Hname Hvalid].
  pose proof (typeName_elementData struct name Hel) as Htn.
  destruct (selectsSVG name) eqn:Hsel; cbn [negb andb].
  - (* the namespaced builder *)
    unfold createSVGElement, try_catch. cbn [b_element b_parent b_shadow].
    unfold bind at 1.
    destruct (createElementNS_valid host (elementData struct) w)
      as (w1 & E1 & A1 & X1); [rewrite Htn; exact Hvalid|].
    rewrite E1. rewrite Htn in A1, X1.
    assert (Hl1 : length (nodes w1) = S (length (nodes w))).
    { destruct A1 as (L1 & _). rewrite L1. cbn. rewrite length_app. cbn. lia. }
    assert (Hfresh : forall d,
              validQualifiedName host (typeName d) = true ->
              exists w2,
                (let* parentElement := createElementNS host d in
                 match parentElement with
                 | Some pe => appendChild pe (Some (length (nodes w)))
                 | None => throw
                 end) w1 = (Normal tt, w2) /\
                builtUnder SVGElement name
                  (decorated host true SVGElement (elementData struct) [])
                  w w2).
    { intros d Hd.
      destruct (createElementNS_valid host d w1 Hd) as (w1' & E2 & A2 & X2).
      unfold bind. rewrite E2.
      apply (appendChild_builtUnder _ _ _ _ _ _ w w1 w1' A1 X1 A2 X2).
      discriminate. }
    destruct (defaultParent parent) as [| |p|d] eqn:Hpar; try discriminate.
    + destruct (nodes w !! p) as [np|] eqn:Hp; [|discriminate].
      assert (Hp1 : nodes w1 !! p = Some np).
      { destruct A1 as (_ & O & _). rewrite O.
        - cbn. apply lookup_app_l_Some, Hp.
        - apply lookup_lt_Some in Hp. lia. }
      unfold bind at 1. unfold bind at 1. unfold getNode at 1. rewrite Hp1.
      destruct (isElement np) eqn:Hnp; cbn [negb andb] in Hq.
      * injection Hq as <-.
        destruct (appendChild_built SVGElement name _ p np w w1 Hp A1 X1)
          as [w2 [E2 B2]].
        rewrite E2. exists (Some (length (nodes w))), w2, w2.
        split; [reflexivity|]. split; [left; eauto|].
        split; [left; auto|]. auto.
      * destruct (validQualifiedName host (typeName noData)) eqn:Hu;
          [|discriminate].
        injection Hq as <-.
        destruct (Hfresh noData Hu) as (w2 & E2 & B2).
        rewrite E2. exists (Some (length (nodes w))), w2, w2.
        split; [reflexivity|]. split; [right; auto|].
        split; [left; auto|]. auto.
    + destruct (validQualifiedName host (typeName d)) eqn:Hd; [|discriminate].
      injection Hq as <-.
      destruct (Hfresh d Hd) as (w2 & E2 & B2).
      unfold bind at 1. rewrite E2.
      exists (Some (length (nodes w))), w2, w2.
      split; [reflexivity|]. split; [right; auto|].
      split; [left; auto|]. auto.
  - (* the standard builder *)
    rewrite createHTMLElement_steps.
    destruct (buildElement_valid host (elementData struct) w)
      as (w1 & E1 & A1 & X1); [rewrite Htn; exact Hvalid|].
    rewrite E1. rewrite Htn in A1, X1.
    assert (Hl1 : length (nodes w1) = S (length (nodes w))).
    { destruct A1 as (L1 & _). rewrite L1. cbn. rewrite length_app. cbn. lia. }
    assert (Hplace : exists w2,
              attachTo host (defaultParent parent) (Some (length (nodes w))) w1
              = (Normal tt, w2) /\
              ((exists np, nodes w !! q = Some np /\
                  built HTMLElement (toLowerCase name)
                    (decorated host false HTMLElement (elementData struct) [])
                    q np w w2) \/
               (q = S (length (nodes w)) /\
                builtUnder HTMLElement (toLowerCase name)
                  (decorated host false HTMLElement (elementData struct) [])
                  w w2))).
    { unfold attachTo.
      destruct (defaultParent parent) as [| |p|d] eqn:Hpar.
      - destruct (nodes w !! document_body) as [np|] eqn:Hp; [|discriminate].
        injection Hq as <-.
        destruct (appendChild_built HTMLElement (toLowerCase name) _
                    document_body np w w1 Hp A1 X1) as [w2 [E2 B2]].
        exists w2. split; [exact E2|]. left. eauto.
      - destruct (nodes w !! document_body) as [np|] eqn:Hp; [|discriminate].
        injection Hq as <-.
        destruct (appendChild_built HTMLElement (toLowerCase name) _
                    document_body np w w1 Hp A1 X1) as [w2 [E2 B2]].
        exists w2. split; [exact E2|]. left. eauto.
      - destruct (nodes w !! p) as [np|] eqn:Hp; [|discriminate].
        injection Hq as <-.
        destruct (appendChild_built HTMLElement (toLowerCase name) _
                    p np w w1 Hp A1 X1) as [w2 [E2 B2]].
        exists w2. split; [exact E2|]. left. eauto.
      - destruct (validElementName host (typeName d)) eqn:Hd; [|discriminate].
        injection Hq as <-.
        destruct (buildElement_valid host d w1 Hd) as (w1' & E2 & A2 & X2).
        unfold bind. rewrite E2.
        destruct (appendChild_builtUnder _ _ _ _ _ _ w w1 w1' A1 X1 A2 X2)
          as (w2 & E3 & B3); [discriminate|].
        exists w2. split; [exact E3|]. right. auto. }
    destruct Hplace as (w2 & E2 & B2). rewrite E2.
    destruct (boundary_shaded (length (nodes w)) (shadow struct) w2)
      as (r & w3 & E3 & S3).
    rewrite E3. exists r, w2, w3. split; [reflexivity|].
    split; [exact B2|]. split; [exact S3|].
    intros Hask.
    assert (Hn2 : nodes w2 !! length (nodes w) =
                  Some (setAttributes
                          (decorated host false HTMLElement
                             (elementData struct) [])
                          (freshNode HTMLElement (toLowerCase name)))).
    { destruct B2 as [(np & _ & B)|(_ & B)].
      - destruct B as (_ & _ & _ & B & _). exact B.
      - destruct B as (_ & _ & B & _). exact B. }
    rewrite (boundary_plain _ _ _ _ Hn2) in E3.
    + injection E3 as <- <-. auto.
    + unfold dataset_state. cbn [attributes setAttributes]. exact Hask.
Qed.

End Places.

Lemma shaded_facts n r w w' :
  shaded n r w w' ->
  length (nodes w) <= length (nodes w') /\
  (forall i node, nodes w !! i = Some node ->
     exists node', nodes w' !! i = Some node' /\
                   forgetShadow node' = forgetShadow node) /\
  (forall i node, length (nodes w) <= i -> nodes w' !! i = Some node ->
     kind node = ShadowRoot /\ listeners node = [] /\ childNodes node = []) /\
  ActionRefStore w' = ActionRefStore w /\
  callbacks w' = callbacks w /\
  (forall e, r = Some e -> e = n \/ length (nodes w) <= e < length (nodes w')).
Proof.
  intros [[-> Hr]|(e & ne & mode & He & -> & ->)].
  - split; [lia|]. split; [eauto|]. split.
    { intros i node Hi Hn. apply lookup_lt_Some in Hn. lia. }
    split; [reflexivity|]. split; [reflexivity|].
    intros e ->. destruct Hr as [[= ->]|[=]]. auto.
  - cbn [withNodes nodes ActionRefStore callbacks].
    assert (Hlt : e < length (nodes w)) by (eapply lookup_lt_Some, He).
    rewrite length_insert, length_app. cbn [length].
    split; [lia|]. split; [|split; [|split; [reflexivity|split; [reflexivity|]]]].
    + intros i node Hi. destruct (decide (i = e)) as [->|Hne].
      * rewrite He in Hi. injection Hi as <-. eexists.
        split; [apply list_lookup_insert_eq; rewrite length_app; lia|].
        reflexivity.
      * exists node. split; [|reflexivity].
        rewrite list_lookup_insert_ne by congruence.
        apply lookup_app_l_Some, Hi.
    + intros i node Hi Hn. rewrite list_lookup_insert_ne in Hn by lia.
      rewrite lookup_app_r in Hn by lia.
      destruct (i - length (nodes w)) as [|k]; [|discriminate].
      injection Hn as <-. auto.
    + intros e' [= <-]. right. lia.
Qed.

Section Unresolved.

Variable host : Host.
Variable EventActions : string -> option handler.

(** What the document holds once the builder is done. *)
Lemma TypeSelect_result struct parent w q :
  buildable host struct = true ->
  attachedTo host w struct parent = Some q ->
  exists r w3,
    TypeSelect host (toLowerCase (default EmptyString (element struct)))
      (mkBuildArgs (defaultParent parent) (shadow struct) (elementData struct))
      w = (Normal r, w3) /\
    length (nodes w) < length (nodes w3) /\
    (exists node, nodes w3 !! length (nodes w) = Some node /\
       kind node = kindOf struct /\ nodeName node = nameOf struct) /\
    (exists nq, nodes w3 !! q = Some nq /\ length (nodes w) ∈ childNodes nq) /\
    (forall i, length (nodes w) <= i < length (nodes w3) ->
       exists node, nodes w3 !! i = Some node /\ listeners node = []) /\
    ActionRefStore w3 = ActionRefStore w /\
    (forall e, r = Some e -> length (nodes w) <= e < length (nodes w3)).
Proof.
  intros Hb Hq.
  destruct (TypeSelect_places host struct parent w q Hb Hq)
    as (r & w2 & w3 & HT & HB & S3 & _).
  destruct (shaded_facts _ _ _ _ S3) as (L3 & K3 & N3 & A3 & _ & R3).
  exists r, w3. split; [exact HT|].
  assert (H2 : length (nodes w) < length (nodes w2) /\
               (exists node, nodes w2 !! length (nodes w) = Some node /\
                  kind node = kindOf struct /\ nodeName node = nameOf struct) /\
               (exists nq, nodes w2 !! q = Some nq /\
                           length (nodes w) ∈ childNodes nq) /\
               (forall i, length (nodes w) <= i < length (nodes w2) ->
                  exists node, nodes w2 !! i = Some node /\ listeners node = []) /\
               ActionRefStore w2 = ActionRefStore w).
  { destruct HB as [(np & Hp & L & F & P & N & A & C)
                   |(-> & L & F & N & (nq & Hq' & Cq & Lq & _) & A & C)].
    - split; [lia|]. split; [eexists; split; [exact N|auto]|].
      split.
      { eexists. split; [exact P|]. cbn.
        apply elem_of_app; right. apply list_elem_of_singleton. reflexivity. }
      split; [|exact A].
      intros i Hi. assert (i = length (nodes w)) as -> by lia.
      eexists. split; [exact N|reflexivity].
    - split; [lia|]. split; [eexists; split; [exact N|auto]|].
      split.
      { exists nq. split; [exact Hq'|]. rewrite Cq.
        apply list_elem_of_singleton. reflexivity. }
      split; [|exact A].
      intros i Hi.
      destruct (decide (i = length (nodes w))) as [->|Hne].
      + eexists. split; [exact N|reflexivity].
      + assert (i = S (length (nodes w))) as -> by lia.
        exists nq. auto. }
  destruct H2 as (L2 & (node & Hn & Hk & Hm) & (nq & Hnq & Hin) & Hl & A2).
  split; [lia|]. split; [|split; [|split; [|split]]].
  - destruct (K3 _ _ Hn) as (node' & Hn' & F).
    exists node'. split; [exact Hn'|].
    apply (f_equal kind) in F as Fk. apply (f_equal nodeName) in F as Fm.
    cbn in Fk, Fm. split; congruence.
  - destruct (K3 _ _ Hnq) as (nq' & Hnq' & F).
    exists nq'. split; [exact Hnq'|].
    apply (f_equal childNodes) in F. cbn in F. rewrite F. exact Hin.
  - intros i Hi. destruct (decide (i < length (nodes w2))) as [Hlt|Hge].
    + destruct (Hl i ltac:(lia)) as (m & Hm' & Hlm).
      destruct (K3 _ _ Hm') as (m' & Hm'' & F).
      exists m'. split; [exact Hm''|].
      apply (f_equal listeners) in F. cbn in F. congruence.
    + destruct (lookup_lt_is_Some_2 (nodes w3) i ltac:(lia)) as [m Hm'].
      exists m. split; [exact Hm'|].
      apply (N3 i m ltac:(lia) Hm').
  - congruence.
  - intros e He. destruct (R3 e He) as [->|H]; lia.
Qed.


End Unresolved.


(** ** The elements created and the tree they form *)


Lemma ordinary_eq host s :
  ordinary host s =
  buildable host s &&
  ((negb (asksBoundary host s) || negb (nonEmpty (childList s))) &&
   forallb (ordinary host) (childList s)).
Proof.
  destruct s as [? ? ? ? ? ? ? ch ?]. unfold childList.
  cbn [ordinary children]. destruct ch as [l|]; [reflexivity|].
  cbn. rewrite orb_true_r. reflexivity.
Qed.

Lemma elementsFrom_bounds b ns i :
  In i (elementsFrom b ns) -> b <= i < length ns /\ isElementAt ns i = true.
Proof.
  unfold elementsFrom. rewrite filter_In, in_seq. intros [H1 H2].
  split; [lia|exact H2].
Qed.

Lemma elementsFrom_split b m ns :
  b <= m <= length ns ->
  elementsFrom b ns =
  List.filter (isElementAt ns) (seq b (m - b)) ++ elementsFrom m ns.
Proof.
  intros H. unfold elementsFrom.
  replace (length ns - b) with ((m - b) + (length ns - m)) by lia.
  rewrite seq_app, List.filter_app.
  replace (b + (m - b)) with m by lia. reflexivity.
Qed.

Lemma elementsFrom_append b ns ns' :
  b <= length ns <= length ns' ->
  (forall i, b <= i < length ns -> isElementAt ns' i = isElementAt ns i) ->
  elementsFrom b ns' = elementsFrom b ns ++ elementsFrom (length ns) ns'.
Proof.
  intros H Hk. rewrite (elementsFrom_split b (length ns) ns') by lia.
  f_equal. unfold elementsFrom. apply filter_ext_in.
  intros i Hi. apply in_seq in Hi. apply Hk. lia.
Qed.

Lemma elementsFrom_none b ns : length ns <= b -> elementsFrom b ns = [].
Proof.
  intros H. unfold elementsFrom.
  replace (length ns - b) with 0 by lia. reflexivity.
Qed.

Lemma elementsFrom_head b ns :
  isElementAt ns b = true -> elementsFrom b ns = b :: elementsFrom (S b) ns.
Proof.
  intros H. assert (Hlt : b < length ns).
  { unfold isElementAt in H. destruct (ns !! b) eqn:E; [|discriminate].
    eapply lookup_lt_Some, E. }
  unfold elementsFrom.
  replace (length ns - b) with (S (length ns - S b)) by lia.
  cbn [seq List.filter]. rewrite H. reflexivity.
Qed.

Lemma childIds_shift a j l : childIds (a + j) l = map (Nat.add a) (childIds j l).
Proof.
  revert j. induction l as [|c r IH]; intros j; [reflexivity|].
  cbn [childIds map]. f_equal. rewrite <- IH. f_equal. lia.
Qed.

Lemma forgetShadow_fields n n' :
  forgetShadow n' = forgetShadow n ->
  kind n' = kind n /\ nodeName n' = nodeName n /\
  attributes n' = attributes n /\ childNodes n' = childNodes n /\
  listeners n' = listeners n.
Proof.
  intros H. pose proof (f_equal kind H). pose proof (f_equal nodeName H).
  pose proof (f_equal attributes H). pose proof (f_equal childNodes H).
  pose proof (f_equal listeners H). cbn in *. auto.
Qed.

Section Shows.

Variable host : Host.

Lemma showsAll_frame ns ns' E l :
  Forall (fun c => forall k, shows host ns E k c -> shows host ns' E k c) l ->
  forall k, showsAll host ns E k l -> showsAll host ns' E k l.
Proof.
  induction 1 as [|c r Hc _ IH]; intros k HR.
  - constructor.
  - inversion HR as [|? ? ? Hrc Hrr]; subst. constructor; auto.
Qed.

(** [shows] only looks at the nodes listed in [E], and not at their shadow
    roots. *)
Lemma shows_frame ns ns' E s :
  (forall i n, In i E -> ns !! i = Some n ->
     exists n', ns' !! i = Some n' /\ forgetShadow n' = forgetShadow n) ->
  forall k, shows host ns E k s -> shows host ns' E k s.
Proof.
  intros Hf. induction s as [s IH] using Struct_ind. intros k HR.
  inversion HR as [? ? i n Hi Hn Hk Hm Ha Hc Hall]; subst.
  destruct (Hf i n) as (n' & Hn' & F); [|exact Hn|].
  { apply (proj1 (list_elem_of_In _ _)). eapply list_elem_of_lookup_2, Hi. }
  destruct (forgetShadow_fields _ _ F) as (Fk & Fm & Fa & Fc & _).
  apply (shows_node host ns' E k s i n'); try congruence.
  eapply showsAll_frame; [|exact Hall].
  unfold childList. destruct (children s) as [l|] eqn:Hl; [|constructor].
  cbn. apply (IH l eq_refl).
Qed.

Lemma showsAll_shift_with A B E l :
  Forall (fun c => forall k, shows host A E k c ->
                shows host A (B ++ E) (length B + k) c) l ->
  forall k, showsAll host A E k l ->
    showsAll host A (B ++ E) (length B + k) l.
Proof.
  induction 1 as [|c r Hc _ IH]; intros k HR.
  - constructor.
  - inversion HR as [|? ? ? Hrc Hrr]; subst. constructor; [auto|].
    rewrite <- Nat.add_assoc. auto.
Qed.

Lemma shows_shift ns B E s :
  forall k, shows host ns E k s -> shows host ns (B ++ E) (length B + k) s.
Proof.
  induction s as [s IH] using Struct_ind. intros k HR.
  inversion HR as [? ? i n Hi Hn Hk Hm Ha Hc Hall]; subst.
  apply (shows_node host ns _ _ s i n); try assumption.
  - rewrite lookup_app_r by lia.
    replace (length B + k - length B) with k by lia. exact Hi.
  - replace (S (length B + k)) with (length B + S k) by lia.
    rewrite childIds_shift. apply Forall2_fmap_r.
    eapply Forall2_impl; [exact Hc|]. cbn. intros c r Hr.
    rewrite lookup_app_r by lia.
    replace (length B + r - length B) with r by lia. exact Hr.
  - replace (S (length B + k)) with (length B + S k) by lia.
    apply showsAll_shift_with; [|exact Hall].
    unfold childList. destruct (children s) as [l|] eqn:Hl; [|constructor].
    cbn. apply (IH l eq_refl).
Qed.

Lemma showsAll_shift ns B E l k :
  showsAll host ns E k l -> showsAll host ns (B ++ E) (length B + k) l.
Proof.
  apply showsAll_shift_with. apply Forall_forall. intros c _ k'.
  apply shows_shift.
Qed.

Lemma showsAll_more_with A E B l :
  Forall (fun c => forall k, shows host A E k c ->
                shows host A (E ++ B) k c) l ->
  forall k, showsAll host A E k l -> showsAll host A (E ++ B) k l.
Proof.
  induction 1 as [|c r Hc _ IH]; intros k HR.
  - constructor.
  - inversion HR as [|? ? ? Hrc Hrr]; subst. constructor; auto.
Qed.

Lemma shows_more ns E B s :
  forall k, shows host ns E k s -> shows host ns (E ++ B) k s.
Proof.
  induction s as [s IH] using Struct_ind. intros k HR.
  inversion HR as [? ? i n Hi Hn Hk Hm Ha Hc Hall]; subst.
  apply (shows_node host ns _ _ s i n); try assumption.
  - apply lookup_app_l_Some, Hi.
  - eapply Forall2_impl; [exact Hc|]. cbn. intros c r Hr.
    apply lookup_app_l_Some, Hr.
  - apply showsAll_more_with; [|exact Hall].
    unfold childList. destruct (children s) as [l|] eqn:Hl; [|constructor].
    cbn. apply (IH l eq_refl).
Qed.

End Shows.

Lemma appended_nil p i n : appended p [] i n = n.
Proof.
  unfold appended. destruct (decide _); [|reflexivity].
  rewrite app_nil_r. apply setChildNodes_same.
Qed.

Lemma appended_other p ids i n : i <> p -> appended p ids i n = n.
Proof. intros H. unfold appended. destruct (decide _); congruence. Qed.

Lemma appended_app p a b i n :
  appended p b i (appended p a i n) = appended p (a ++ b) i n.
Proof.
  unfold appended. destruct (decide _); [|reflexivity].
  cbn. rewrite app_assoc. reflexivity.
Qed.

Lemma forgetShadow_appended p ids i n n' :
  forgetShadow n' = forgetShadow n ->
  forgetShadow (appended p ids i n') = forgetShadow (appended p ids i n).
Proof.
  intros H. unfold appended. destruct (decide _); [|exact H].
  destruct (forgetShadow_fields _ _ H) as (K & M & A & C & L).
  pose proof (f_equal textContent H) as T.
  pose proof (f_equal innerHTML H) as I. cbn in T, I.
  unfold forgetShadow. cbn. congruence.
Qed.

Lemma keeps_refl b p w : keeps b p [] w w.
Proof.
  split; [lia|]. intros i n _ H. exists n. split; [exact H|].
  rewrite appended_nil. reflexivity.
Qed.

Lemma keeps_trans b b' p a c w1 w2 w3 :
  b <= b' ->
  keeps b p a w1 w2 -> keeps b' p c w2 w3 -> keeps b p (a ++ c) w1 w3.
Proof.
  intros Hb [L1 K1] [L2 K2]. split; [lia|]. intros i n Hi Hn.
  destruct (K1 i n Hi Hn) as (n1 & Hn1 & F1).
  destruct (K2 i n1 ltac:(lia) Hn1) as (n2 & Hn2 & F2).
  exists n2. split; [exact Hn2|]. rewrite F2.
  rewrite (forgetShadow_appended p c i _ _ F1).
  rewrite appended_app. reflexivity.
Qed.

Lemma keeps_same_nodes b p w w' : nodes w' = nodes w -> keeps b p [] w w'.
Proof.
  intros H. split; [rewrite H; lia|]. intros i n _ Hn. exists n.
  rewrite H, appended_nil. auto.
Qed.

Lemma keeps_isElementAt b p ids w w' i :
  keeps b p ids w w' -> i < b -> i < length (nodes w) ->
  isElementAt (nodes w') i = isElementAt (nodes w) i.
Proof.
  intros [_ K] Hi Hlt. unfold isElementAt.
  destruct (lookup_lt_is_Some_2 (nodes w) i Hlt) as [n Hn].
  destruct (K i n Hi Hn) as (n' & Hn' & F). rewrite Hn, Hn'.
  apply forgetShadow_fields in F as (Fk & _).
  unfold isElement. rewrite Fk. unfold appended.
  destruct (decide _); reflexivity.
Qed.

(** ** An ordinary description compiles into its tree *)

Section Ordinary.

Variable host : Host.
Variable EventActions : string -> option handler.

Lemma snd_call_cb cb w : nodes (snd (call_cb cb w)) = nodes w.
Proof. destruct cb; reflexivity. Qed.

Lemma declaredLoop_snd rec el cb c rest w :
  snd (declaredLoop rec el cb (c :: rest) w) =
  match rest with
  | [] => snd ((let* _ := rec c (parentOf el) cb in call_cb cb) w)
  | _ :: _ =>
      snd ((let* _ := rec c (parentOf el) cb in declaredLoop rec el cb rest) w)
  end.
Proof.
  cbn [declaredLoop]. unfold bind.
  destruct (rec c (parentOf el) cb w) as [[[c' rc]|] w1];
    [|destruct rest; reflexivity].
  destruct rest as [|d r'].
  - destruct (call_cb cb w1) as [[rv|] w2]; reflexivity.
  - destruct (declaredLoop rec el cb (d :: r') w1) as [[[l' rv]|] w2];
      reflexivity.
Qed.

Lemma declaredLoop_ordinary n cb l :
  Forall (compilesOrdinarily host EventActions) l ->
  forallb (ordinary host) l = true ->
  forall w nn, nodes w !! n = Some nn -> isElement nn = true ->
  let w' :=
    snd (declaredLoop (createFromStruct_object host EventActions)
           (Some n) cb l w) in
  let E := elementsFrom (length (nodes w)) (nodes w') in
  exists ids,
    keeps (length (nodes w)) n ids w w' /\
    length E = sizes l /\
    showsAll host (nodes w') E 0 l /\
    Forall2 (fun c k => E !! k = Some c) ids (childIds 0 l).
Proof.
  induction 1 as [|c r Hc Hr IH]; intros Hpl w nn Hn Hel.
  - cbn. exists []. split; [apply keeps_refl|].
    rewrite elementsFrom_none by lia. repeat split; constructor.
  - cbn [forallb] in Hpl. apply andb_prop in Hpl as [Hpc Hpr].
    cbv zeta. rewrite declaredLoop_snd. cbn [parentOf].
    destruct (createFromStruct_object_normal host EventActions c (PNode n) cb w)
      as (c' & rc & Hnorm).
    destruct (Hc n nn cb w Hpc Hn (fun _ => Hel)) as (K1 & H0 & L1 & S1).
    destruct (createFromStruct_object host EventActions c (PNode n) cb w)
      as [[[c0 r0]|] w1] eqn:E1; cbn [fst snd] in *; [|discriminate].
    clear Hnorm c' rc.
    assert (Hlt : n < length (nodes w)) by (eapply lookup_lt_Some, Hn).
    destruct K1 as [Len1 K1'].
    assert (Hcut : forall w2 ids',
              keeps (length (nodes w1)) n ids' w1 w2 ->
              length (elementsFrom (length (nodes w1)) (nodes w2)) = sizes r ->
              showsAll host (nodes w2)
                (elementsFrom (length (nodes w1)) (nodes w2)) 0 r ->
              Forall2 (fun c k =>
                         elementsFrom (length (nodes w1)) (nodes w2) !! k
                         = Some c) ids' (childIds 0 r) ->
              exists ids,
                keeps (length (nodes w)) n ids w w2 /\
                length (elementsFrom (length (nodes w)) (nodes w2))
                = sizes (c :: r) /\
                showsAll host (nodes w2)
                  (elementsFrom (length (nodes w)) (nodes w2)) 0 (c :: r) /\
                Forall2 (fun c k =>
                           elementsFrom (length (nodes w)) (nodes w2) !! k
                           = Some c) ids (childIds 0 (c :: r))).
    { intros w2 ids' K2 L2 S2 F2.
      assert (Happ : elementsFrom (length (nodes w)) (nodes w2) =
                     elementsFrom (length (nodes w)) (nodes w1) ++
                     elementsFrom (length (nodes w1)) (nodes w2)).
      { apply elementsFrom_append; [destruct K2; lia|].
        intros i Hi. apply (keeps_isElementAt _ _ _ _ _ _ K2); lia. }
      exists (length (nodes w) :: ids').
      split; [|split; [|split]].
      - apply (keeps_trans _ _ _ [length (nodes w)] ids' w w1 w2 Len1);
          [split; assumption|exact K2].
      - rewrite Happ, length_app, L1, L2. reflexivity.
      - rewrite Happ. constructor.
        + apply shows_more. eapply shows_frame; [|exact S1].
          intros i ni Hi Hni. apply elementsFrom_bounds in Hi as [Hi _].
          destruct K2 as [_ K2].
          destruct (K2 i ni ltac:(eapply lookup_lt_Some, Hni) Hni)
            as (n' & Hn' & F).
          exists n'. split; [exact Hn'|].
          rewrite appended_other in F by lia. exact F.
        + cbn [Nat.add]. rewrite <- L1.
          pose proof (showsAll_shift host (nodes w2)
                        (elementsFrom (length (nodes w)) (nodes w1)) _ _ 0 S2)
            as S2'.
          rewrite Nat.add_0_r in S2'. exact S2'.
      - cbn [childIds]. rewrite Happ. constructor.
        + apply lookup_app_l_Some. exact H0.
        + cbn [Nat.add].
          replace (size c) with (length (elementsFrom (length (nodes w)) (nodes w1)) + 0)
            by lia.
          rewrite childIds_shift. apply Forall2_fmap_r.
          eapply Forall2_impl; [exact F2|]. cbn. intros x k Hk.
          rewrite lookup_app_r by lia.
          replace (_ + k - _) with k by lia. exact Hk. }
    destruct r as [|d r'].
    + unfold bind. rewrite E1.
      apply (Hcut _ []).
      * apply keeps_same_nodes, snd_call_cb.
      * rewrite elementsFrom_none by (rewrite snd_call_cb; lia). reflexivity.
      * constructor.
      * constructor.
    + destruct (K1' n nn Hlt Hn) as (nn1 & Hnn1 & Fnn).
      assert (Hel1 : isElement nn1 = true).
      { apply forgetShadow_fields in Fnn as (Fk & _).
        unfold isElement in *. rewrite Fk. unfold appended.
        destruct (decide _); exact Hel. }
      destruct (IH Hpr w1 nn1 Hnn1 Hel1) as (ids' & K2 & L2 & S2 & F2).
      unfold bind. rewrite E1.
      apply (Hcut _ ids' K2 L2 S2 F2).
Qed.


Lemma createChildren_childless rec s el cb w :
  childList s = [] -> nodes (snd (createChildren rec s el cb w)) = nodes w.
Proof.
  unfold childList, createChildren. destruct (children s) as [l|]; cbn.
  - intros ->. reflexivity.
  - intros _. destruct cb; reflexivity.
Qed.

Lemma createChildren_snd rec s el cb w :
  snd (createChildren rec s el cb w) =
  match children s with
  | Some l => snd (declaredLoop rec el cb l w)
  | None => snd (call_cb cb w)
  end.
Proof.
  unfold createChildren. destruct (children s) as [l|].
  - unfold bind. destruct (declaredLoop rec el cb l w) as [[[a rv]|] wl];
      reflexivity.
  - unfold bind. destruct (call_cb cb w) as [[rv|] wl]; reflexivity.
Qed.

(** What follows the builder: content and event go on the node returned,
    then the children are compiled under it. *)
Lemma afterBuild_ordinary s cb r n nn w3 :
  Forall (compilesOrdinarily host EventActions) (childList s) ->
  forallb (ordinary host) (childList s) = true ->
  nodes w3 !! n = Some nn -> isElement nn = true ->
  (forall e, r = Some e -> e < length (nodes w3)) ->
  (nonEmpty (childList s) = true -> r = Some n) ->
  let w' :=
    snd (try_catch (afterBuild host EventActions s r cb)
           (ret (s, RUndefined)) w3) in
  let E := elementsFrom (length (nodes w3)) (nodes w') in
  exists e w5 ids,
    (r = Some e \/ (r = None /\ e = n)) /\ touched e w3 w5 /\
    keeps (length (nodes w3)) n ids w5 w' /\
    length E = sizes (childList s) /\
    showsAll host (nodes w') E 0 (childList s) /\
    Forall2 (fun c k => E !! k = Some c) ids (childIds 0 (childList s)).
Proof.
  intros HIH Hch Hn Hel Hr Hne. cbv zeta. rewrite snd_try_ret.
  unfold afterBuild.
  assert (Hleaf : forall el w5,
            childList s = [] -> length (nodes w5) = length (nodes w3) ->
            keeps (length (nodes w3)) n [] w5
              (snd (createChildren
                      (createFromStruct_object host EventActions) s el cb w5))
            /\
            length (elementsFrom (length (nodes w3))
                      (nodes (snd (createChildren
                         (createFromStruct_object host EventActions)
                         s el cb w5)))) = sizes (childList s) /\
            showsAll host
              (nodes (snd (createChildren
                         (createFromStruct_object host EventActions)
                         s el cb w5)))
              (elementsFrom (length (nodes w3))
                 (nodes (snd (createChildren
                         (createFromStruct_object host EventActions)
                         s el cb w5)))) 0 (childList s) /\
            Forall2 (fun c k =>
                       elementsFrom (length (nodes w3))
                         (nodes (snd (createChildren
                            (createFromStruct_object host EventActions)
                            s el cb w5))) !! k = Some c)
                    [] (childIds 0 (childList s))).
  { intros el w5 Hnil L5.
    pose proof (createChildren_childless
                  (createFromStruct_object host EventActions) s el cb w5 Hnil)
      as Hs.
    split; [apply keeps_same_nodes, Hs|].
    rewrite elementsFrom_none by (rewrite Hs; lia). rewrite Hnil.
    repeat split; constructor. }
  destruct r as [e|].
  - destruct (lookup_lt_is_Some_2 _ e (Hr e eq_refl)) as [m Hm].
    assert (H3 : exists w4, when (truthyOpt (text s))
                   (assign_textContent (Some e) (default EmptyString (text s))) w3
                 = (Normal tt, w4) /\ touched e w3 w4).
    { unfold when. destruct (truthyOpt (text s)).
      - eapply assign_textContent_touched, Hm.
      - exists w3. split; [reflexivity|apply touched_refl]. }
    destruct H3 as (w4 & E3 & T3).
    destruct (proj2 (proj2 T3) _ Hm) as (m4 & Hm4 & _).
    assert (H4 : exists w4', when (truthyOpt (html s))
                   (assign_innerHTML (Some e) (default EmptyString (html s))) w4
                 = (Normal tt, w4') /\ touched e w4 w4').
    { unfold when. destruct (truthyOpt (html s)).
      - eapply assign_innerHTML_touched, Hm4.
      - exists w4. split; [reflexivity|apply touched_refl]. }
    destruct H4 as (w4' & E4 & T4).
    destruct (createEventElement_touched EventActions s e w4')
      as (w5 & E5 & T5).
    pose proof (touched_trans _ _ _ _ (touched_trans _ _ _ _ T3 T4) T5) as T.
    assert (Hrun :
      (when (truthyOpt (text s))
         (assign_textContent (Some e) (default EmptyString (text s))) >>
       when (truthyOpt (html s))
         (assign_innerHTML (Some e) (default EmptyString (html s))) >>
       createEventElement EventActions s (Some e) >>
       createChildren (createFromStruct_object host EventActions)
         s (Some e) cb) w3 =
      createChildren (createFromStruct_object host EventActions)
        s (Some e) cb w5).
    { unfold bind at 1. rewrite E3. unfold bind at 1. rewrite E4.
      unfold bind at 1. rewrite E5. reflexivity. }
    rewrite Hrun.
    destruct T as (L5 & F5 & N5).
    destruct (childList s) as [|c l'] eqn:Hcl.
    + exists e, w5, []. split; [auto|]. split; [repeat split; assumption|].
      apply Hleaf; [reflexivity|exact L5].
    + assert (e = n) as -> by (specialize (Hne eq_refl); congruence).
      destruct (N5 _ Hn) as (m5 & Hm5 & K5 & _).
      assert (Hel5 : isElement m5 = true)
        by (unfold isElement in *; rewrite K5; exact Hel).
      rewrite createChildren_snd.
      unfold childList in Hcl. destruct (children s) as [l|]; [|discriminate].
      cbn in Hcl. subst l.
      destruct (declaredLoop_ordinary n cb (c :: l') HIH Hch w5 m5 Hm5 Hel5)
        as (ids & K & L & S & F).
      rewrite L5 in K, L, S, F.
      exists n, w5, ids. split; [auto|]. split; [repeat split; assumption|].
      auto.
  - assert (Hnil : childList s = []).
    { destruct (childList s); [reflexivity|].
      specialize (Hne eq_refl). discriminate. }
    exists n, w3, []. split; [auto|]. split; [apply touched_refl|].
    assert (Hs : nodes (snd ((when (truthyOpt (text s))
                    (assign_textContent None (default EmptyString (text s))) >>
                  when (truthyOpt (html s))
                    (assign_innerHTML None (default EmptyString (html s))) >>
                  createEventElement EventActions s None >>
                  createChildren (createFromStruct_object host EventActions)
                    s None cb) w3)) = nodes w3).
    { unfold when, bind, assign_textContent, assign_innerHTML, throw, ret.
      destruct (truthyOpt (text s)); [reflexivity|].
      destruct (truthyOpt (html s)); [reflexivity|].
      rewrite createEventElement_undefined.
      apply createChildren_childless, Hnil. }
    split; [apply keeps_same_nodes, Hs|].
    rewrite elementsFrom_none by (rewrite Hs; lia). rewrite Hnil.
    repeat split; constructor.
Qed.


Lemma filter_id {A} (f : A -> bool) l :
  (forall x, In x l -> f x = true) -> List.filter f l = l.
Proof.
  induction l as [|x l IH]; intros H; [reflexivity|].
  cbn [List.filter]. rewrite (H x) by (left; reflexivity).
  f_equal. apply IH. intros y Hy. apply H. right. exact Hy.
Qed.

(** One node of an ordinary description, whatever its parent: the builder,
    then content, event and children. *)
Lemma node_ordinary s parent cb w q :
  Forall (compilesOrdinarily host EventActions) (childList s) ->
  ordinary host s = true ->
  attachedTo host w s parent = Some q ->
  let w' := snd (createFromStruct_object host EventActions s parent cb w) in
  let n := length (nodes w) in
  let E := List.filter (fun i => negb (Nat.eqb i q))
                       (elementsFrom n (nodes w')) in
  keeps n q [n] w w' /\
  (q = S n ->
   exists nq, nodes w' !! q = Some nq /\ childNodes nq = [n] /\
              isElement nq = true) /\
  E !! 0 = Some n /\
  length E = size s /\
  shows host (nodes w') E 0 s.
Proof.
  intros HIH Hord Hq. cbv zeta.
  rewrite ordinary_eq in Hord. apply andb_prop in Hord as [Hb Hord].
  apply andb_prop in Hord as [Hbd Hch].
  destruct (TypeSelect_places host s parent w q Hb Hq)
    as (r & w2 & w3 & HT & HB & S3 & Hask).
  rewrite (createFromStruct_object_built host EventActions s parent cb w
             _ _ (buildable_truthy host s Hb) HT).
  destruct (shaded_facts _ _ _ _ S3) as (L3 & K3 & N3 & _ & _ & R3).
  set (n := length (nodes w)) in *.
  set (la := attributesOf host s) in *.
  set (nn2 := setAttributes la (freshNode (kindOf s) (nameOf s))).
  (* the world the builder leaves before the boundary *)
  assert (H2 : nodes w2 !! n = Some nn2 /\
               n < length (nodes w2) /\
               (forall i ni, i < n -> nodes w !! i = Some ni ->
                  nodes w2 !! i = Some (appended q [n] i ni)) /\
               (q < n \/ q = S n) /\
               (q < n -> length (nodes w2) = S n) /\
               (q = S n -> length (nodes w2) = S (S n) /\
                  exists nq, nodes w2 !! q = Some nq /\ childNodes nq = [n] /\
                             isElement nq = true)).
  { destruct HB as [(np & Hp & L & F & P & N & _)
                   |(Hqe & L & F & N & (nq & Hnq & Cq & _ & Eq) & _)].
    - assert (Hlt : q < n) by (eapply lookup_lt_Some, Hp).
      split; [exact N|]. split; [lia|]. split; [|split; [auto|]].
      + intros i ni Hi Hni. unfold appended.
        destruct (decide (i = q)) as [->|Hne].
        * rewrite Hp in Hni. injection Hni as <-. exact P.
        * rewrite F by assumption. exact Hni.
      + split; [intros _; exact L|]. intros ->. lia.
    - split; [exact N|]. split; [lia|]. split; [|split; [auto|]].
      + intros i ni Hi Hni. rewrite appended_other by lia.
        rewrite F by exact Hi. exact Hni.
      + split; [lia|]. intros _. split; [exact L|].
        exists nq. subst q. auto. }
  destruct H2 as (N2 & Ln2 & O2 & Hqcase & Lold & Lfresh).
  destruct (K3 _ _ N2) as (nn3 & N3' & Fnn3).
  destruct (forgetShadow_fields _ _ Fnn3) as (K3k & K3m & K3a & K3c & _).
  cbn in K3k, K3m, K3a, K3c.
  assert (Hel3 : isElement nn3 = true).
  { unfold isElement. rewrite K3k. unfold kindOf.
    destruct (selectsSVG _); reflexivity. }
  assert (Hr : forall e, r = Some e -> e < length (nodes w3)).
  { intros e He. destruct (R3 e He) as [->|H]; lia. }
  assert (Hne : nonEmpty (childList s) = true -> r = Some n).
  { intros H. rewrite H in Hbd. cbn in Hbd. rewrite orb_false_r in Hbd.
    apply negb_true_iff in Hbd. apply (Hask Hbd). }
  destruct (afterBuild_ordinary s cb r n nn3 w3 HIH Hch N3' Hel3 Hr Hne)
    as (e & w5 & ids & Hre & (L5 & F5 & T5) & K5 & LE & SE & FE).
  set (w' := snd (try_catch (afterBuild host EventActions s r cb)
                    (ret (s, RUndefined)) w3)) in *.
  assert (He : e = n \/ length (nodes w2) <= e).
  { destruct Hre as [->|[_ ->]]; [|auto].
    destruct (R3 e eq_refl) as [->|H]; [auto|right; lia]. }
  destruct K5 as [Len5 K5].
  (* every node of [w3] other than [n], seen from [w'] *)
  assert (Hrest : forall i ni, i <> n -> nodes w3 !! i = Some ni ->
            exists ni', nodes w' !! i = Some ni' /\ kind ni' = kind ni /\
              (i <> e -> forgetShadow ni' = forgetShadow ni)).
  { intros i ni Hi Hni.
    assert (Hlt : i < length (nodes w3)) by (eapply lookup_lt_Some, Hni).
    assert (H5 : exists n5, nodes w5 !! i = Some n5 /\ kind n5 = kind ni /\
                            (i <> e -> n5 = ni)).
    { destruct (decide (i = e)) as [->|Hie].
      - destruct (T5 _ Hni) as (m & Hm & Km & _). exists m.
        split; [exact Hm|]. split; [exact Km|]. intros H. congruence.
      - exists ni. rewrite F5 by exact Hie. auto. }
    destruct H5 as (n5 & Hn5 & Kn5 & En5).
    destruct (K5 i n5 Hlt Hn5) as (ni' & Hni' & F).
    rewrite appended_other in F by exact Hi.
    exists ni'. split; [exact Hni'|].
    split; [apply forgetShadow_fields in F as (Fk & _); congruence|].
    intros Hie. rewrite F, (En5 Hie). reflexivity. }
  (* node [n], seen from [w'] *)
  assert (Hnode : exists n', nodes w' !! n = Some n' /\
                    kind n' = kindOf s /\ nodeName n' = nameOf s /\
                    attributes n' = la /\ childNodes n' = ids).
  { assert (H5 : exists n5, nodes w5 !! n = Some n5 /\ kind n5 = kind nn3 /\
              nodeName n5 = nodeName nn3 /\ attributes n5 = attributes nn3 /\
              childNodes n5 = childNodes nn3).
    { destruct (decide (n = e)) as [<-|Hie].
      - destruct (T5 _ N3') as (m & Hm & H). exists m. auto.
      - exists nn3. rewrite F5 by exact Hie. auto. }
    destruct H5 as (n5 & Hn5 & Kk & Km & Ka & Kc).
    destruct (K5 n n5 ltac:(lia) Hn5) as (n' & Hn' & F).
    unfold appended in F. rewrite decide_True in F by reflexivity.
    apply forgetShadow_fields in F as (Fk & Fm & Fa & Fc & _).
    cbn in Fk, Fm, Fa, Fc.
    exists n'. split; [exact Hn'|]. rewrite Fk, Fm, Fa, Fc, Kk, Km, Ka, Kc.
    rewrite K3k, K3m, K3a, K3c. auto. }
  destruct Hnode as (n' & Hn' & Kn' & Mn' & An' & Cn').
  (* the elements created *)
  assert (HE : List.filter (fun i => negb (Nat.eqb i q))
                 (elementsFrom n (nodes w')) =
               n :: elementsFrom (length (nodes w3)) (nodes w')).
  { assert (Hn1 : isElementAt (nodes w') n = true).
    { unfold isElementAt. rewrite Hn'. unfold isElement. rewrite Kn'.
      unfold kindOf. destruct (selectsSVG _); reflexivity. }
    assert (Hk : forall i, S n <= i < length (nodes w3) ->
              isElementAt (nodes w') i = isElementAt (nodes w3) i).
    { intros i Hi.
      destruct (lookup_lt_is_Some_2 (nodes w3) i ltac:(lia)) as [ni Hni].
      destruct (Hrest i ni ltac:(lia) Hni) as (ni' & Hni' & Kni & _).
      unfold isElementAt, isElement. rewrite Hni, Hni', Kni. reflexivity. }
    assert (Hsh : forall i, length (nodes w2) <= i < length (nodes w3) ->
              isElementAt (nodes w3) i = false).
    { intros i Hi.
      destruct (lookup_lt_is_Some_2 (nodes w3) i ltac:(lia)) as [ni Hni].
      destruct (N3 i ni ltac:(lia) Hni) as (Kni & _).
      unfold isElementAt, isElement. rewrite Hni, Kni. reflexivity. }
    rewrite (elementsFrom_head n) by exact Hn1.
    rewrite (elementsFrom_split (S n) (length (nodes w3))) by lia.
    cbn [List.filter]. replace (Nat.eqb n q) with false
      by (symmetry; apply Nat.eqb_neq; lia).
    cbn [negb]. f_equal. rewrite List.filter_app.
    rewrite (filter_id _ (elementsFrom (length (nodes w3)) (nodes w'))).
    2:{ intros x Hx. apply elementsFrom_bounds in Hx as [Hx _].
        apply negb_true_iff, Nat.eqb_neq. lia. }
    rewrite <- (app_nil_l (elementsFrom (length (nodes w3)) (nodes w'))) at 2.
    f_equal.
    destruct Hqcase as [Hold| ->].
    - rewrite (Lold Hold) in *.
      assert (forall i, In i (seq (S n) (length (nodes w3) - S n)) ->
                isElementAt (nodes w') i = false) as Hall.
      { intros i Hi. apply in_seq in Hi. rewrite Hk by lia. apply Hsh. lia. }
      induction (seq (S n) (length (nodes w3) - S n)) as [|x l IH];
        [reflexivity|].
      cbn [List.filter]. rewrite (Hall x) by (left; reflexivity).
      apply IH. intros i Hi. apply Hall. right. exact Hi.
    - destruct (Lfresh eq_refl) as (L2 & nq & Hnq & _).
      rewrite L2 in *.
      replace (length (nodes w3) - S n)
        with (S (length (nodes w3) - S (S n))) by lia.
      cbn [seq List.filter].
      assert (forall i, In i (seq (S (S n)) (length (nodes w3) - S (S n))) ->
                isElementAt (nodes w') i = false) as Hall.
      { intros i Hi. apply in_seq in Hi. rewrite Hk by lia. apply Hsh. lia. }
      destruct (isElementAt (nodes w') (S n)).
      + cbn [List.filter]. rewrite Nat.eqb_refl. cbn [negb].
        induction (seq (S (S n)) (length (nodes w3) - S (S n))) as [|x l IH];
          [reflexivity|].
        cbn [List.filter]. rewrite (Hall x) by (left; reflexivity).
        apply IH. intros i Hi. apply Hall. right. exact Hi.
      + induction (seq (S (S n)) (length (nodes w3) - S (S n))) as [|x l IH];
          [reflexivity|].
        cbn [List.filter]. rewrite (Hall x) by (left; reflexivity).
        apply IH. intros i Hi. apply Hall. right. exact Hi. }
  rewrite HE.
  split; [|split; [|split; [reflexivity|split]]].
  - split; [lia|]. intros i ni Hi Hni.
    pose proof (O2 i ni Hi Hni) as Hi2.
    destruct (K3 _ _ Hi2) as (ni3 & Hni3 & F3).
    destruct (Hrest i ni3 ltac:(lia) Hni3) as (ni' & Hni' & _ & F).
    exists ni'. split; [exact Hni'|]. rewrite F by lia. exact F3.
  - intros Hqe. destruct (Lfresh Hqe) as (L2 & nq & Hnq & Cq & Eq).
    destruct (K3 _ _ Hnq) as (nq3 & Hnq3 & F3).
    destruct (Hrest q nq3 ltac:(lia) Hnq3) as (nq' & Hnq' & _ & F).
    exists nq'. split; [exact Hnq'|].
    assert (Fq : forgetShadow nq' = forgetShadow nq)
      by (rewrite F by lia; exact F3).
    apply forgetShadow_fields in Fq as (Fk & _ & _ & Fc & _).
    split; [congruence|]. unfold isElement in *. rewrite Fk. exact Eq.
  - cbn [length]. rewrite LE, size_eq. reflexivity.
  - apply (shows_node host _ _ 0 s n n'); try assumption.
    + reflexivity.
    + rewrite Cn'. change 1 with (1 + 0). rewrite childIds_shift.
      apply Forall2_fmap_r. eapply Forall2_impl; [exact FE|]. cbn.
      intros c k Hk. exact Hk.
    + apply (showsAll_shift host _ [n] _ _ 0). exact SE.
Qed.

(** An ordinary description compiles into its tree. *)
Lemma compiles_ordinary s : compilesOrdinarily host EventActions s.
Proof.
  induction s as [s IH] using Struct_ind.
  intros p np cb w Hord Hp Hsvg.
  assert (Hq : attachedTo host w s (PNode p) = Some p).
  { unfold attachedTo. cbn [defaultParent]. rewrite Hp.
    destruct (selectsSVG _) eqn:Hsel; [|reflexivity].
    rewrite Hsvg; [reflexivity|]. unfold kindOf. rewrite Hsel. reflexivity. }
  assert (HIH : Forall (compilesOrdinarily host EventActions) (childList s)).
  { unfold childList. destruct (children s) as [l|] eqn:Hl; [|constructor].
    cbn. apply (IH l eq_refl). }
  destruct (node_ordinary s (PNode p) cb w p HIH Hord Hq)
    as (K & _ & H0 & L & S).
  assert (Hlt : p < length (nodes w)) by (eapply lookup_lt_Some, Hp).
  rewrite filter_id in H0, L, S.
  2,3,4: intros x Hx; apply elementsFrom_bounds in Hx as [Hx _];
         apply negb_true_iff, Nat.eqb_neq; lia.
  cbv zeta. auto.
Qed.

End Ordinary.

(** ** The compiler on the store of arrays and the compiler on a tree *)


Lemma flat_map_rev_perm {A B} (f : A -> list B) l :
  flat_map f (rev l) ≡ₚ flat_map f l.
Proof.
  induction l as [|x l IH]; [reflexivity|].
  cbn [rev flat_map]. rewrite flat_map_app. cbn [flat_map].
  rewrite app_nil_r, IH. apply Permutation_app_comm.
Qed.

Lemma flat_map_same {A B} (f g : A -> list B) l :
  Forall (fun x => f x = g x) l -> flat_map f l = flat_map g l.
Proof.
  induction 1 as [|x l Hx _ IH]; [reflexivity|].
  cbn [flat_map]. rewrite Hx, IH. reflexivity.
Qed.

Lemma elem_of_flat_map {A B} (f : A -> list B) l y :
  y ∈ flat_map f l <-> exists x, x ∈ l /\ y ∈ f x.
Proof.
  rewrite list_elem_of_In, in_flat_map. split.
  - intros (x & Hx & Hy). exists x. rewrite !list_elem_of_In. auto.
  - intros (x & Hx & Hy). exists x. rewrite <- !list_elem_of_In. auto.
Qed.

Lemma Forall2_rev {A B} (P : A -> B -> Prop) l k :
  Forall2 P l k -> Forall2 P (rev l) (rev k).
Proof.
  induction 1 as [|x y l k Hxy _ IH]; [constructor|].
  cbn [rev]. apply Forall2_app; [exact IH|]. constructor; [exact Hxy|constructor].
Qed.

Lemma Forall2_same {A B} (f g : A -> option B) l ls :
  Forall (fun c => f c = g c) l ->
  Forall2 (fun c s => g c = Some s) l ls ->
  Forall2 (fun c s => f c = Some s) l ls.
Proof.
  intros Hs HF. induction HF as [|x y l l' Hxy _ IHl]; [constructor|].
  inversion Hs as [|? ? Hx Hr]; subst. constructor; [congruence|auto].
Qed.

(** Walking a description only reads the arrays met on the way. *)
Lemma walk_frame depth : forall h h' o,
  (forall a, a ∈ arraysOf depth h o -> h' !! a = h !! a) ->
  treeOf depth h' o = treeOf depth h o /\
  arraysOf depth h' o = arraysOf depth h o.
Proof.
  induction depth as [|k IH]; intros h h' o Hf; [auto|].
  cbn [treeOf arraysOf] in *.
  destruct (o_children o) as [a|]; [|auto].
  rewrite (Hf a) by left.
  destruct (h !! a) as [l|] eqn:Hl; cbn [default] in *; [|auto].
  assert (Hall : Forall (fun c => treeOf k h' c = treeOf k h c /\
                                  arraysOf k h' c = arraysOf k h c) l).
  { apply Forall_forall. intros c Hc. apply IH. intros x Hx.
    apply Hf. right. apply elem_of_flat_map. eauto. }
  split.
  - f_equal. apply Forall_mapM_ext.
    eapply Forall_impl; [exact Hall|]. cbn. intros c [H _]. exact H.
  - f_equal. apply flat_map_same.
    eapply Forall_impl; [exact Hall|]. cbn. intros c [_ H]. exact H.
Qed.

Section Simulation.

Variable host : Host.
Variable EventActions : string -> option handler.

Lemma createFromStruct_object_steps struct parent cb w :
  createFromStruct_object host EventActions struct parent cb w =
  if truthyOpt (element struct) then
    match beforeChildren host EventActions struct parent w with
    | (Normal el, w4) =>
        try_catch
          (createChildren (createFromStruct_object host EventActions)
                          struct el cb)
          (ret (struct, RUndefined)) w4
    | (Throw, w4) => (Normal (struct, RUndefined), w4)
    end
  else (Normal (struct, RUndefined), w).
Proof.
  rewrite createFromStruct_object_unfold. unfold try_catch, beforeChildren.
  destruct (truthyOpt (element struct)); [|reflexivity].
  unfold bind.
  destruct (TypeSelect host _ _ w) as [[el|] w1]; [|reflexivity].
  destruct (when (truthyOpt (text struct)) _ w1) as [[[]|] w2]; [|reflexivity].
  destruct (when (truthyOpt (html struct)) _ w2) as [[[]|] w3]; [|reflexivity].
  destruct (createEventElement EventActions struct el w3) as [[[]|] w4];
    reflexivity.
Qed.

Lemma createFromStruct_shared_steps k o parent cb h w :
  createFromStruct_shared host EventActions (S k) o parent cb h w =
  if truthyOpt (o_element o) then
    match beforeChildren host EventActions (structOf o None) parent w with
    | (Normal el, w4) =>
        caught
          (createChildren_shared
             (createFromStruct_shared host EventActions k) o el cb)
          (done RUndefined) h w4
    | (Throw, w4) => Some (Normal RUndefined, h, w4)
    end
  else Some (Normal RUndefined, h, w).
Proof.
  cbn [createFromStruct_shared]. unfold caught, beforeChildren.
  destruct (truthyOpt (o_element o)); [|reflexivity].
  unfold andThen, onWorld, bind.
  cbn [structOf element shadow elementData attr attrNS dataset text html].
  destruct (TypeSelect host _ _ w) as [[el|] w1]; [|reflexivity].
  destruct (when (truthyOpt (o_text o)) _ w1) as [[[]|] w2]; [|reflexivity].
  destruct (when (truthyOpt (o_html o)) _ w2) as [[[]|] w3]; [|reflexivity].
  destruct (createEventElement EventActions _ el w3) as [[[]|] w4];
    reflexivity.
Qed.

Lemma elem_of_turnedAll k h l x :
  x ∈ turnedAll k h l <->
  symmetric h x = false /\ exists c, c ∈ l /\ x ∈ arraysOf k h c.
Proof.
  unfold turnedAll. rewrite list_elem_of_In, filter_In, <- list_elem_of_In.
  rewrite elem_of_flat_map, negb_true_iff. tauto.
Qed.

Lemma elem_of_turned k h o x :
  x ∈ turned k h o <-> symmetric h x = false /\ x ∈ arraysOf k h o.
Proof.
  unfold turned. rewrite list_elem_of_In, filter_In, <- list_elem_of_In.
  rewrite negb_true_iff. tauto.
Qed.

Lemma turnedAll_cons k h c l :
  turnedAll k h (c :: l) = turned k h c ++ turnedAll k h l.
Proof. unfold turnedAll, turned. cbn [flat_map]. apply List.filter_app. Qed.

Lemma turnedAll_same k h h' l :
  (forall a, symmetric h' a = symmetric h a) ->
  flat_map (arraysOf k h') l = flat_map (arraysOf k h) l ->
  turnedAll k h' l = turnedAll k h l.
Proof.
  intros Hs Hf. unfold turnedAll. rewrite Hf. apply filter_ext.
  intros a. rewrite Hs. reflexivity.
Qed.

Lemma downFrom_declaredLoop k a A el cb :
  agrees host EventActions k ->
  forall rest B ls hc w,
    A = rev rest ++ B ->
    hc !! a = Some A ->
    Forall2 (fun c s => treeOf k hc c = Some s) rest ls ->
    NoDup (turnedAll k hc rest) ->
    a ∉ turnedAll k hc rest ->
    exists ls' r w' h',
      declaredLoop (createFromStruct_object host EventActions) el cb ls w =
        (Normal (ls', r), w') /\
      downFrom (createFromStruct_shared host EventActions k) a el cb
               (length rest) hc w = Some (Normal r, h', w') /\
      h' !! a = Some A /\
      Forall2 (fun c s' => treeOf k h' c = Some s') rest ls' /\
      (forall x, x ∉ turnedAll k hc rest -> h' !! x = hc !! x) /\
      (forall x, symmetric h' x = symmetric hc x) /\
      flat_map (arraysOf k h') rest ≡ₚ flat_map (arraysOf k hc) rest.
Proof.
  intros IHk rest. induction rest as [|c rest' IH];
    intros B ls hc w HA Ha HF Hnd Hna.
  - inversion HF; subst. exists [], RUndefined, w, hc.
    repeat split; auto.
  - inversion HF as [|? sc ? lsr Hc HFr]; subst.
    rewrite turnedAll_cons in Hnd, Hna.
    apply NoDup_app in Hnd as (Hndc & Hdisj & Hndr).
    rewrite elem_of_app in Hna.
    destruct (IHk hc c sc (parentOf el) cb w Hc Hndc)
      as (sc' & r1 & w1 & h1 & E1 & S1 & T1 & F1 & Y1 & P1).
    assert (Ha1 : h1 !! a = Some (rev (c :: rest') ++ B)).
    { rewrite F1 by tauto. exact Ha. }
    assert (Hsame : Forall (fun c' => treeOf k h1 c' = treeOf k hc c' /\
                                arraysOf k h1 c' = arraysOf k hc c') rest').
    { apply Forall_forall. intros c' Hc'. apply walk_frame.
      intros x Hx. apply F1. intros Hin.
      apply (Hdisj x Hin). apply elem_of_turnedAll.
      apply elem_of_turned in Hin as [Hsym _]. eauto. }
    assert (Hfm : flat_map (arraysOf k h1) rest' =
                  flat_map (arraysOf k hc) rest').
    { apply flat_map_same. eapply Forall_impl; [exact Hsame|].
      cbn. intros ? [_ H]. exact H. }
    pose proof (turnedAll_same k hc h1 rest' Y1 Hfm) as Htu.
    assert (HFr1 : Forall2 (fun c s => treeOf k h1 c = Some s) rest' lsr).
    { apply (Forall2_same _ (treeOf k hc)); [|exact HFr].
      eapply Forall_impl; [exact Hsame|]. cbn. intros ? [H _]. exact H. }
    assert (Hget : array_get a (length rest') hc w =
                   Some (Normal (Some c), hc, w)).
    { unfold array_get. rewrite Ha. cbn [rev]. rewrite <- app_assoc.
      rewrite lookup_app_r by (rewrite length_rev; lia).
      rewrite length_rev, Nat.sub_diag. reflexivity. }
    cbn [length downFrom declaredLoop]. unfold andThen at 1. rewrite Hget.
    unfold andThen at 1. unfold andThen at 1. rewrite S1.
    unfold done at 1. unfold bind at 1. rewrite E1.
    destruct rest' as [|d rest''].
    + inversion HFr; subst. cbn [length Nat.eqb].
      unfold onWorld, bind.
      destruct (call_cb cb w1) as [[rv|] w2] eqn:Ecb;
        [|destruct cb; discriminate].
      exists [sc'], rv, w2, h1. split; [reflexivity|]. split; [reflexivity|].
      split; [exact Ha1|]. split; [constructor; [exact T1|constructor]|].
      cbn [flat_map]. rewrite !app_nil_r.
      split; [|split; [exact Y1|exact P1]].
      intros x Hx. apply F1. intros Hin. apply Hx.
      rewrite turnedAll_cons. apply elem_of_app. auto.
    + inversion HFr as [|? sd ? lsr' Hd HFr']; subst.
      destruct (IH (c :: B) (sd :: lsr') h1 w1) as
        (ls' & r & w' & h' & E2 & S2 & A2 & T2 & F2 & Y2 & P2).
      { cbn [rev]. rewrite <- app_assoc. reflexivity. }
      { exact Ha1. }
      { exact HFr1. }
      { rewrite Htu. exact Hndr. }
      { rewrite Htu. tauto. }
      cbn [length Nat.eqb]. cbn [length] in S2. unfold bind. rewrite E2, S2.
      exists (sc' :: ls'), r, w', h'.
      split; [reflexivity|]. split; [reflexivity|].
      split; [exact A2|].
      assert (Hc' : treeOf k h' c = treeOf k h1 c /\
                    arraysOf k h' c = arraysOf k h1 c).
      { apply walk_frame. intros x Hx. apply F2. rewrite Htu.
        intros Hin. rewrite P1 in Hx.
        apply elem_of_turnedAll in Hin as [Hsym Hin'].
        apply (Hdisj x); [apply elem_of_turned; auto|].
        apply elem_of_turnedAll. auto. }
      destruct Hc' as [Hc1 Hc2].
      split; [constructor; [congruence|exact T2]|]. split; [|split].
      * intros x Hx. rewrite turnedAll_cons, elem_of_app in Hx.
        rewrite F2 by (rewrite Htu; tauto). apply F1. tauto.
      * intros x. rewrite Y2. apply Y1.
      * change (flat_map (arraysOf k h') (c :: d :: rest''))
          with (arraysOf k h' c ++ flat_map (arraysOf k h') (d :: rest'')).
        change (flat_map (arraysOf k hc) (c :: d :: rest''))
          with (arraysOf k hc c ++ flat_map (arraysOf k hc) (d :: rest'')).
        rewrite Hc2, P1, P2, Hfm. reflexivity.
Qed.

Lemma symmetric_reversed h a l x :
  h !! a = Some l ->
  symmetric (<[a := rev l]> h) x = symmetric h x.
Proof.
  intros Hl. unfold symmetric. destruct (decide (x = a)) as [->|Hne].
  - rewrite lookup_insert_eq, Hl, rev_involutive.
    destruct (decide (rev l = l)) as [Heq|Hne].
    + rewrite !bool_decide_eq_true_2; congruence.
    + rewrite !bool_decide_eq_false_2; congruence.
  - rewrite lookup_insert_ne by congruence. reflexivity.
Qed.

Lemma shared_as_tree k : agrees host EventActions k.
Proof.
  induction k as [|k IH]; intros h o s parent cb w Ht Hnd; [discriminate|].
  rewrite createFromStruct_shared_steps.
  unfold turned in *. cbn [treeOf arraysOf] in *.
  destruct (o_children o) as [a|] eqn:Hoa.
  - destruct (h !! a) as [l|] eqn:Hl; [|discriminate].
    apply fmap_Some in Ht as (ls & Hm & ->). apply mapM_Some in Hm.
    cbn [default] in *. unfold id in *.
    rewrite createFromStruct_object_steps.
    change (element (structOf o (Some ls))) with (o_element o).
    destruct (truthyOpt (o_element o)).
    2:{ exists (structOf o (Some ls)), RUndefined, w, h.
        split; [reflexivity|]. split; [reflexivity|].
        rewrite Hl. cbn [default]. split; [|auto].
        apply mapM_Some in Hm. rewrite Hm. reflexivity. }
    change (beforeChildren host EventActions (structOf o (Some ls)) parent)
      with (beforeChildren host EventActions (structOf o None) parent).
    destruct (beforeChildren host EventActions (structOf o None) parent w)
      as [[el|] w4].
    2:{ exists (structOf o (Some ls)), RUndefined, w4, h.
        split; [reflexivity|]. split; [reflexivity|].
        rewrite Hl. cbn [default]. split; [|auto].
        apply mapM_Some in Hm. rewrite Hm. reflexivity. }
    set (h1 := <[a := rev l]> h).
    fold (turnedAll k h l) in Hnd.
    assert (Hsym1 : forall x, symmetric h1 x = symmetric h x)
      by (intros x; apply symmetric_reversed, Hl).
    (* the array of the node: turned, or the same after [reverse()] *)
    assert (Ha : (symmetric h a = true /\ rev l = l) \/
                 (symmetric h a = false /\ a ∉ turnedAll k h l)).
    { assert (Hsa : symmetric h a = bool_decide (rev l = l))
        by (unfold symmetric; rewrite Hl; reflexivity).
      cbn [List.filter] in Hnd. rewrite Hsa in Hnd |- *.
      destruct (decide (rev l = l)) as [Heq|Hne].
      - left. rewrite bool_decide_eq_true_2 by exact Heq. auto.
      - right. rewrite bool_decide_eq_false_2 in Hnd |- * by exact Hne.
        split; [reflexivity|].
        cbn [negb] in Hnd. apply NoDup_cons in Hnd as [Hna _]. exact Hna. }
    assert (Hnd' : NoDup (turnedAll k h l)).
    { cbn [List.filter] in Hnd. destruct (negb (symmetric h a));
        [apply NoDup_cons in Hnd as [_ Hnd]|]; exact Hnd. }
    assert (Hna : a ∉ turnedAll k h l).
    { destruct Ha as [[Hs _]|[_ H]]; [|exact H].
      intros Hin. apply elem_of_turnedAll in Hin as [Hf _]. congruence. }
    assert (Hh1 : forall x, x ≠ a \/ symmetric h a = true ->
                            h1 !! x = h !! x).
    { intros x Hx. unfold h1. destruct (decide (x = a)) as [->|Hne].
      - destruct Hx as [Hx|Hx]; [congruence|].
        destruct Ha as [[_ Heq]|[Hf _]]; [|congruence].
        rewrite lookup_insert_eq, Heq, Hl. reflexivity.
      - apply lookup_insert_ne. congruence. }
    assert (Hsame : Forall (fun c => treeOf k h1 c = treeOf k h c /\
                               arraysOf k h1 c = arraysOf k h c) l).
    { apply Forall_forall. intros c Hc. apply walk_frame.
      intros x Hx. apply Hh1.
      destruct (symmetric h a) eqn:Hsa; [auto|]. left. intros ->.
      apply Hna. apply elem_of_turnedAll. eauto. }
    assert (Hfm : flat_map (arraysOf k h1) l = flat_map (arraysOf k h) l).
    { apply flat_map_same. eapply Forall_impl; [exact Hsame|].
      cbn. intros ? [_ H]. exact H. }
    pose proof (turnedAll_same k h h1 l Hsym1 Hfm) as Htu.
    assert (HF1 : Forall2 (fun c s => treeOf k h1 c = Some s) l ls).
    { apply (Forall2_same _ (treeOf k h)); [|exact Hm].
      eapply Forall_impl; [exact Hsame|]. cbn. intros ? [H _]. exact H. }
    destruct (downFrom_declaredLoop k a (rev l) el cb IH l [] ls h1 w4)
      as (ls' & r & w' & h' & E2 & S2 & A2 & T2 & F2 & Y2 & P2).
    { rewrite app_nil_r. reflexivity. }
    { unfold h1. apply lookup_insert_eq. }
    { exact HF1. }
    { rewrite Htu. exact Hnd'. }
    { rewrite Htu. exact Hna. }
    exists (setChildren (Some (rev ls')) (structOf o (Some ls))), r, w', h'.
    split; [|split; [|split; [|split; [|split]]]].
    + unfold try_catch, createChildren. cbn [children structOf].
      unfold bind. rewrite E2. reflexivity.
    + unfold caught, createChildren_shared. rewrite Hoa.
      unfold andThen at 1. unfold array_reverse. rewrite Hl. fold h1.
      unfold andThen at 1. unfold array_length.
      replace (h1 !! a) with (Some (rev l))
        by (symmetry; apply lookup_insert_eq).
      rewrite length_rev, S2. reflexivity.
    + rewrite A2. cbn [setChildren structOf element attr attrNS dataset text
        html event shadow].
      assert (Hr : mapM (treeOf k h') (rev l) = Some (rev ls')).
      { apply mapM_Some. apply Forall2_rev. exact T2. }
      rewrite Hr. reflexivity.
    + intros x Hx.
      assert (Hx' : x ∉ turnedAll k h l).
      { intros Hin. apply Hx. apply elem_of_turnedAll in Hin as [Hf Hin].
        apply list_elem_of_In, filter_In. rewrite Hf. split; [|reflexivity].
        right. apply list_elem_of_In, elem_of_flat_map. exact Hin. }
      rewrite F2 by (rewrite Htu; exact Hx'). apply Hh1.
      destruct (symmetric h a) eqn:Hsa; [auto|]. left. intros ->.
      apply Hx. apply list_elem_of_In, filter_In. rewrite Hsa.
      split; [left|]; reflexivity.
    + intros x. rewrite Y2. apply Hsym1.
    + rewrite A2. cbn [default]. unfold id. apply perm_skip.
      rewrite flat_map_rev_perm, P2, Hfm. reflexivity.
  - injection Ht as <-.
    rewrite createFromStruct_object_steps.
    change (element (structOf o None)) with (o_element o).
    destruct (truthyOpt (o_element o)).
    2:{ exists (structOf o None), RUndefined, w, h. repeat split; auto. }
    destruct (beforeChildren host EventActions (structOf o None) parent w)
      as [[el|] w4].
    2:{ exists (structOf o None), RUndefined, w4, h. repeat split; auto. }
    unfold try_catch, createChildren, caught, createChildren_shared.
    cbn [children structOf]. rewrite Hoa. unfold bind, onWorld.
    destruct (call_cb cb w4) as [[rv|] w5] eqn:Ecb;
      [|destruct cb; discriminate].
    exists (structOf o None), rv, w5, h. repeat split; auto.
Qed.

(** The arrays that a call turns are the same after it. *)
Lemma turned_after k h h' o :
  (forall a, symmetric h' a = symmetric h a) ->
  arraysOf k h' o ≡ₚ arraysOf k h o ->
  turned k h' o ≡ₚ turned k h o.
Proof.
  intros Hs Hp. unfold turned.
  rewrite (filter_ext _ (fun a => negb (symmetric h a)))
    by (intros a; rewrite Hs; reflexivity).
  induction Hp as [|x l l' _ IH|x y l|l1 l2 l3 _ IH1 _ IH2].
  - reflexivity.
  - cbn [List.filter]. destruct (negb _); [apply perm_skip|]; exact IH.
  - cbn [List.filter]. destruct (negb (symmetric h x)), (negb (symmetric h y));
      try reflexivity. apply perm_swap.
  - etransitivity; eassumption.
Qed.

End Simulation.

(** ** Properties of the compiler on the store of arrays *)

Section SharedTheorems.

Variable host : Host.
Variable EventActions : string -> option handler.

Lemma createFromStruct_object_ordinary s parent cb w q :
  ordinary host s = true ->
  attachedTo host w s parent = Some q ->
  let w' := snd (createFromStruct_object host EventActions s parent cb w) in
  let n := length (nodes w) in
  let E := List.filter (fun i => negb (Nat.eqb i q))
                       (elementsFrom n (nodes w')) in
  keeps n q [n] w w' /\
  (q = S n ->
   exists nq, nodes w' !! q = Some nq /\ childNodes nq = [n] /\
              isElement nq = true) /\
  E !! 0 = Some n /\
  length E = size s /\
  shows host (nodes w') E 0 s.
Proof.
  intros Hord Hq. apply node_ordinary; [|exact Hord|exact Hq].
  apply Forall_forall. intros c _. apply compiles_ordinary.
Qed.


End SharedTheorems.


Lemma createFromStruct_object_plain host acts struct parent cb w p np :
  plain host struct = true ->
  defaultParent parent = PNode p ->
  nodes w !! p = Some np ->
  isElement np = true ->
  exists r w',
    createFromStruct_object host acts struct parent cb w =
      (Normal (mirror struct, r), w') /\
    grown host struct p np w w'.
Proof.
  intros Hplain Hpar Hp Hnp.
  assert (Heq : createFromStruct_object host acts struct parent cb w =
                createFromStruct_object host acts struct (PNode p) cb w).
  { rewrite !createFromStruct_object_unfold. rewrite Hpar. reflexivity. }
  destruct (compiles_plain host acts struct p np cb w Hplain Hp Hnp)
    as (r & w1 & E & G & _).
  rewrite Heq. eauto.
Qed.

Lemma createFromStruct_object_orphans host acts struct parent cb w l nb :
  truthyOpt (element struct) = true -> buildable host struct = false ->
  (forall d, parent <> PDesc d) ->
  (forall p np, defaultParent parent = PNode p -> nodes w !! p = Some np ->
                isElement np = true) ->
  truthyOpt (text struct) = false -> truthyOpt (html struct) = false ->
  children struct = Some l -> forallb (plain host) l = true ->
  nodes w !! document_body = Some nb -> isElement nb = true ->
  let w' := snd (createFromStruct_object host acts struct parent cb w) in
  length (nodes w') = length (nodes w) + sizes l /\
  nodes w' !! document_body =
    Some (setChildNodes (childNodes nb ++ childIds (length (nodes w)) l) nb) /\
  rendersAll host (nodes w') (length (nodes w)) l.
Proof.
  intros Hel Hb Hdesc Hnode Ht Hh Hl Hpl Hnb Helb.
  destruct (declaredLoop_plain host acts document_body cb l
              ltac:(apply Forall_forall; intros c _; apply compiles_plain)
              Hpl w nb Hnb Helb)
    as (r & w' & E & L & _ & N & R & _).
  assert (Hout : createFromStruct_object host acts struct parent cb w =
                 (Normal (setChildren (Some (rev (map mirror l))) struct, r),
                  w')).
  { rewrite createFromStruct_object_unfold.
    unfold try_catch. rewrite Hel. unfold bind at 1.
    rewrite (TypeSelect_unbuildable host struct parent w Hel Hb Hdesc Hnode).
    unfold bind at 1. rewrite Ht. cbn [when ret].
    unfold bind at 1. rewrite Hh. cbn [when ret].
    unfold bind at 1. rewrite createEventElement_undefined.
    unfold createChildren. rewrite Hl. unfold bind at 1.
    rewrite declaredLoop_orphans, E. reflexivity. }
  rewrite Hout. cbn [snd]. auto.
Qed.




